(** * Face matching core of facial-recognition-st

    A shallow embedding of the matching logic of
    [src/utils/face_processor.py] (class [FaceProcessor]),
    [src/utils/database.py] ([Database.check_face_exists]) and the call site
    of the duplicate guard in [src/pages/registration.py].

    Numbers are IEEE 754 binary floating-point values ([spec_float], the
    specification type of the Standard Library), in the two array dtypes the
    code meets: [float32] (InsightFace embeddings and boxes) and [float64]
    (the OpenCV fallback embedding, Python floats). The arrays of one
    comparison share a dtype, and a Python literal compared with a NumPy
    scalar is taken in the scalar's dtype.

    The face detectors, [cv2.rectangle], [cv2.resize] and the JPEG encoder
    are external: they are parameters of the methods. Array objects live in
    a heap, so that writing to the copy of a frame and leaving the frame
    alone are different things. An exception is a value of [result]. *)

From Stdlib Require Import ZArith List Bool Lia String Sorted.
From Stdlib Require Import Floats.SpecFloat.
From stdpp Require Import gmap.
Import ListNotations.
Local Open Scope Z_scope.

(** ** NumPy scalars and 1-D arrays *)

Module NumPy.

Inductive dtype := float32 | float64.

Definition prec (dt : dtype) : Z :=
  match dt with float32 => 24 | float64 => 53 end.

Definition emax (dt : dtype) : Z :=
  match dt with float32 => 128 | float64 => 1024 end.

Definition fadd dt := SFadd (prec dt) (emax dt).
Definition fsub dt := SFsub (prec dt) (emax dt).
Definition fmul dt := SFmul (prec dt) (emax dt).
Definition fdiv dt := SFdiv (prec dt) (emax dt).
Definition fsqrt dt := SFsqrt (prec dt) (emax dt).

(** [x > y] on scalars: false as soon as one side is NaN. *)
Definition gt (x y : spec_float) : bool := SFltb y x.

(** An integer, and a decimal literal [n/d] such as [0.5 = 5/10], rounded to
    the dtype. *)
Definition of_Z dt (z : Z) : spec_float :=
  binary_normalize (prec dt) (emax dt) z 0 false.

Definition lit dt (n d : Z) : spec_float :=
  fdiv dt (of_Z dt n) (of_Z dt d).

(** Exceptions are values. *)
Inductive exn := ValueError | KeyError | IndexError | UnpicklingError | PyMongoError.

Inductive result (A : Type) :=
| Ok (a : A)
| Raise (e : exn).
Arguments Ok {A} a.
Arguments Raise {A} e.

#[export] Instance result_bind : MBind result :=
  fun A B (k : A -> result B) (r : result A) =>
    match r with
    | Ok a => k a
    | Raise e => Raise e
    end.

Definition ndarray := list spec_float.

(** Sum of the products of the paired components, accumulated from the
    left, starting from zero. (A BLAS kernel may add the products in another
    order; nothing below depends on the order beyond the arrays of the
    examples, whose sums are exact.) *)
Fixpoint dot_acc dt (acc : spec_float) (a b : ndarray) : spec_float :=
  match a, b with
  | x :: a', y :: b' => dot_acc dt (fadd dt acc (fmul dt x y)) a' b'
  | _, _ => acc
  end.

(** [np.dot] on 1-D arrays: the shapes must agree, else [ValueError]. *)
Definition dot dt (a b : ndarray) : result spec_float :=
  if (length a =? length b)%nat
  then Ok (dot_acc dt (S754_zero false) a b)
  else Raise ValueError.

(** [np.linalg.norm] of a 1-D array: [sqrt(dot(x, x))]. *)
Definition norm dt (a : ndarray) : spec_float :=
  fsqrt dt (dot_acc dt (S754_zero false) a a).

(** [a - b] on 1-D arrays of one shape. *)
Fixpoint sub_arr dt (a b : ndarray) : ndarray :=
  match a, b with
  | x :: a', y :: b' => fsub dt x y :: sub_arr dt a' b'
  | _, _ => []
  end.

Definition sub dt (a b : ndarray) : result ndarray :=
  if (length a =? length b)%nat
  then Ok (sub_arr dt a b)
  else Raise ValueError.

End NumPy.

Import NumPy.


(** ** Images: [height x width x 3] arrays of 8-bit channels, and the heap of
    array objects *)

Module Image.

Definition pixel := (Z * Z * Z)%type.
Definition image := list (list pixel).

(** [image.shape[0]] and [image.shape[1]]. *)
Definition shape0 (im : image) : Z := Z.of_nat (length im).
Definition shape1 (im : image) : Z :=
  match im with
  | [] => 0
  | row :: _ => Z.of_nat (length row)
  end.

(** [image.size]: the number of array elements. *)
Definition size (im : image) : Z := shape0 im * shape1 im * 3.

(** Python's [l[start:stop]]: a negative index counts from the end, and both
    ends are clipped to the list. *)
Definition py_slice {A} (start stop : Z) (l : list A) : list A :=
  let n := Z.of_nat (length l) in
  let clip i := if i <? 0 then Z.max 0 (i + n) else Z.min i n in
  take (Z.to_nat (clip stop - clip start)) (drop (Z.to_nat (clip start)) l).

(** [image[y0:y1, x0:x1]]. *)
Definition crop (im : image) (y0 y1 x0 x1 : Z) : image :=
  map (py_slice x0 x1) (py_slice y0 y1 im).

(** [small_face.flatten() / 255.0]: row-major, channel after channel, as a
    [float64] array. *)
Definition flatten_div255 (im : image) : ndarray :=
  flat_map (fun row =>
    flat_map (fun '(b, g, r) =>
      map (fun c => fdiv float64 (of_Z float64 c) (of_Z float64 255))
          [b; g; r]) row) im.

(** Array objects live in a heap; a Python variable holds a location. *)
Abbreviation loc := positive.
Abbreviation heap := (gmap loc image).

(** [image.copy()]: a new object with the same contents. *)
Definition copy (l : loc) (h : heap) : loc * heap :=
  let l' := fresh (dom h) in
  (l', <[l' := h !!! l]> h).

End Image.

Import Image.

(** ** Python built-ins used by the code *)

Module Python.

Section Sorted.
Context {A K : Type} (key : A -> K) (lt : K -> K -> bool).

(** [x], which stood before every element of [l], is put in front of the
    first element whose key is not greater than its own. *)
Fixpoint insert_desc (x : A) (l : list A) : list A :=
  match l with
  | [] => [x]
  | y :: l' => if lt (key x) (key y) then y :: insert_desc x l' else x :: l
  end.

(** [sorted(l, key=key, reverse=True)]: a stable sort, largest key first;
    elements of equal key keep their order. Keys are compared with [<]
    only; where [<] orders the keys totally the result of a stable sort is
    determined, whatever the algorithm. *)
Definition sorted_reverse (l : list A) : list A :=
  foldr insert_desc [] l.
End Sorted.

(** A 32-bit signed integer ([np.int32]) wraps around. *)
Definition int32 (z : Z) : Z := (z + 2 ^ 31) mod 2 ^ 32 - 2 ^ 31.

(** [x.astype(int)] on a float: truncation toward zero; what does not fit a
    64-bit integer becomes the smallest one. *)
Definition astype_int (x : spec_float) : Z :=
  match x with
  | S754_zero _ => 0
  | S754_finite s m e =>
      let mag :=
        match e with
        | Zneg p => Z.shiftr (Zpos m) (Zpos p)
        | _ => Z.shiftl (Zpos m) e
        end in
      let v := if s then - mag else mag in
      if (- 2 ^ 63 <=? v) && (v <? 2 ^ 63) then v else - 2 ^ 63
  | _ => - 2 ^ 63
  end.

(** [float(x)] of a NumPy scalar of dtype [dt]: the same number as a
    [float64]. *)
Definition to_float (x : spec_float) : spec_float :=
  match x with
  | S754_finite s m e =>
      binary_normalize (prec float64) (emax float64)
        (if s then Zneg m else Zpos m) e false
  | _ => x
  end.

End Python.

Import Python.

(** ** [src/utils/face_processor.py]: class [FaceProcessor] *)

Module FaceProcessor.

(** The payload of a gallery entry, as [Database.get_all_embeddings] builds
    it. *)
Record user_data := {
  ud_name : string;
  ud_id_card_number : string;
  ud_nationality : string;
  ud_profession : string
}.

(** [(user_id, user_data, embedding)]. *)
Definition entry := (string * user_data * ndarray)%type.

(** [(user_id, user_data, similarity)], the value of [best_match]. *)
Definition best := (string * user_data * spec_float)%type.

(** A detection of InsightFace: [bbox = (x1, y1, x2, y2)] and the embedding,
    both [float32]. *)
Record Face := {
  bbox : spec_float * spec_float * spec_float * spec_float;
  embedding : ndarray
}.

(** A detection of the cascade classifier: [(x, y, w, h)], [int32]. *)
Definition rect := (Z * Z * Z * Z)%type.

(** [self]: the backend flag set by [__init__] and the two detectors, which
    are external models: [self.face_app.get(image)] and
    [self.face_cascade.detectMultiScale(cvtColor(image, BGR2GRAY), 1.3, 5)]. *)
Record t := {
  use_insightface : bool;
  face_app_get : image -> list Face;
  face_cascade_detectMultiScale : image -> list rect
}.

Definition red : pixel := (0, 0, 255).
Definition green : pixel := (0, 255, 0).

(** *** Matching one probe against the gallery *)

(** Lines 129-141: the scan of the InsightFace branch. *)
Definition threshold_insightface dt : spec_float := lit dt 5 10.

Fixpoint scan_insightface dt (embedding : ndarray) (stored_embeddings : list entry)
    (best_match : option best) (best_score : spec_float)
  : result (option best) :=
  match stored_embeddings with
  | [] => Ok best_match
  | (user_id, user_data, stored_embedding) :: rest =>
      d ← dot dt embedding stored_embedding;
      let similarity :=
        fdiv dt d (fmul dt (norm dt embedding) (norm dt stored_embedding)) in
      if gt similarity (threshold_insightface dt) && gt similarity best_score
      then scan_insightface dt embedding rest
             (Some (user_id, user_data, similarity)) similarity
      else scan_insightface dt embedding rest best_match best_score
  end.

(** Lines 188-201: the scan of the OpenCV branch. *)
Definition threshold_opencv dt : spec_float := lit dt 8 10.

Fixpoint scan_opencv dt (embedding : ndarray) (stored_embeddings : list entry)
    (best_match : option best) (best_score : spec_float)
  : result (option best) :=
  match stored_embeddings with
  | [] => Ok best_match
  | (user_id, user_data, stored_embedding) :: rest =>
      if (length embedding =? length stored_embedding)%nat
      then
        diff ← sub dt embedding stored_embedding;
        let distance := norm dt diff in
        let similarity := fdiv dt (of_Z dt 1) (fadd dt (of_Z dt 1) distance) in
        if gt similarity (threshold_opencv dt) && gt similarity best_score
        then scan_opencv dt embedding rest
               (Some (user_id, user_data, similarity)) similarity
        else scan_opencv dt embedding rest best_match best_score
      else scan_opencv dt embedding rest best_match best_score
  end.

(** [if stored_embeddings:] is false for [None] and for the empty list. *)
Definition truthy {A} (l : option (list A)) : bool :=
  match l with
  | Some (_ :: _) => true
  | _ => false
  end.

(** Lines 121-147 and 177-207: [match] of one face; the colour and the
    confidence follow from it. *)
Definition match_insightface dt (embedding : ndarray)
    (stored_embeddings : option (list entry)) : result (option best) :=
  if truthy stored_embeddings
  then scan_insightface dt embedding (default [] stored_embeddings)
         None (of_Z dt (-1))
  else Ok None.

Definition match_opencv dt (embedding : ndarray)
    (stored_embeddings : option (list entry)) : result (option best) :=
  if truthy stored_embeddings
  then scan_opencv dt embedding (default [] stored_embeddings)
         None (of_Z dt (-1))
  else Ok None.

Definition color_of (m : option best) : pixel :=
  match m with Some _ => green | None => red end.

Definition confidence_of (m : option best) : spec_float :=
  match m with
  | Some (_, _, similarity) => to_float similarity
  | None => S754_zero false
  end.

(** The dictionary appended to [matches]. *)
Record face_data := {
  fd_bbox : list Z;
  fd_match : option user_data;
  fd_user_id : option string;
  fd_confidence : spec_float;
  fd_recognized : bool;
  fd_face_image : option string
}.

(** *** The methods *)

Section Methods.
(** [cv2.rectangle(img, pt1, pt2, color, thickness)] gives the new contents
    of [img]; [cv2.resize(img, dsize)]; and the JPEG and base64 encoding
    of an image (after [cvtColor] to RGB) are external. *)
Variable cv2_rectangle : image -> Z * Z -> Z * Z -> pixel -> Z -> image.
Variable cv2_resize : image -> Z * Z -> image.
Variable jpeg_base64 : image -> string.
Variable self : t.

(** Lines 227-238; the argument is never [None] at the calls below. *)
Definition encode_image_to_base64 (im : image) : option string :=
  if size im =? 0 then None else Some (jpeg_base64 im).

(** The sort keys of lines 60 and 81. *)
Definition area_insightface (x : Face) : spec_float :=
  let '(b0, b1, b2, b3) := bbox x in
  fmul float32 (fsub float32 b2 b0) (fsub float32 b3 b1).

Definition area_opencv (x : rect) : Z :=
  let '(_, _, w, h) := x in int32 (w * h).

(** [face.bbox.astype(int)]. *)
Definition bbox_astype_int (face : Face) : Z * Z * Z * Z :=
  let '(b0, b1, b2, b3) := bbox face in
  (astype_int b0, astype_int b1, astype_int b2, astype_int b3).

(** Lines 34-92. The result is
    [(face_embedding, face_image, status, message)]. *)
Definition get_face_embedding (image : image)
  : result (option ndarray * option Image.image * bool * string) :=
  if use_insightface self then
    let faces := face_app_get self image in
    if (length faces =? 0)%nat
    then Ok (None, None, false, "No face detected in the image"%string)
    else
      let faces :=
        if (1 <? length faces)%nat
        then sorted_reverse area_insightface SFltb faces
        else faces in
      match faces with
      | [] => Raise IndexError
      | face :: _ =>
          let embedding := embedding face in
          let '(b0, b1, b2, b3) := bbox_astype_int face in
          let face_image :=
            crop image (Z.max 0 b1) (Z.min b3 (shape0 image))
                       (Z.max 0 b0) (Z.min b2 (shape1 image)) in
          Ok (Some embedding, Some face_image, true,
              "Face detected successfully"%string)
      end
  else
    let faces := face_cascade_detectMultiScale self image in
    if (length faces =? 0)%nat
    then Ok (None, None, false, "No face detected in the image"%string)
    else
      let faces :=
        if (1 <? length faces)%nat
        then sorted_reverse area_opencv Z.ltb faces
        else faces in
      match faces with
      | [] => Raise IndexError
      | (x, y, w, h) :: _ =>
          let face_image := crop image y (int32 (y + h)) x (int32 (x + w)) in
          let small_face := cv2_resize face_image (50, 50) in
          let embedding := flatten_div255 small_face in
          Ok (Some embedding, Some face_image, true,
              "Face detected (using OpenCV fallback)"%string)
      end.

Definition make_face_data (bbox : list Z) (m : option best)
    (face_crop : image) : face_data :=
  {| fd_bbox := bbox;
     fd_match := match m with Some (_, d, _) => Some d | None => None end;
     fd_user_id := match m with Some (u, _, _) => Some u | None => None end;
     fd_confidence := confidence_of m;
     fd_recognized := match m with Some _ => true | None => false end;
     fd_face_image := encode_image_to_base64 face_crop |}.

(** Lines 117-168: the loop over the faces InsightFace found. [image] and
    [display_image] are the two array objects; the heap after the loop
    and the list [matches] are the result. *)
Fixpoint loop_insightface (image display_image : loc)
    (stored_embeddings : option (list entry)) (faces : list Face)
    (matches : list face_data) (h : heap)
  : result (list face_data) * heap :=
  match faces with
  | [] => (Ok matches, h)
  | face :: rest =>
      let '(b0, b1, b2, b3) := bbox_astype_int face in
      match match_insightface float32 (embedding face) stored_embeddings with
      | Raise e => (Raise e, h)
      | Ok m =>
          let shown := h !!! display_image in
          let h :=
            <[display_image :=
                cv2_rectangle shown (Z.max 0 b0, Z.max 0 b1)
                  (Z.min b2 (shape1 shown), Z.min b3 (shape0 shown))
                  (color_of m) 2]> h in
          let im := h !!! image in
          let face_crop :=
            crop im (Z.max 0 b1) (Z.min b3 (shape0 im))
                    (Z.max 0 b0) (Z.min b2 (shape1 im)) in
          loop_insightface image display_image stored_embeddings rest
            (matches ++ [make_face_data [b0; b1; b2; b3] m face_crop]) h
      end
  end.

(** Lines 174-222: the loop over the rectangles of the cascade. *)
Fixpoint loop_opencv (image display_image : loc)
    (stored_embeddings : option (list entry)) (faces : list rect)
    (matches : list face_data) (h : heap)
  : result (list face_data) * heap :=
  match faces with
  | [] => (Ok matches, h)
  | (x, y, w, h') :: rest =>
      let face_crop :=
        crop (h !!! image) y (int32 (y + h')) x (int32 (x + w)) in
      let small_face := cv2_resize face_crop (50, 50) in
      let embedding := flatten_div255 small_face in
      match match_opencv float64 embedding stored_embeddings with
      | Raise e => (Raise e, h)
      | Ok m =>
          let h :=
            <[display_image :=
                cv2_rectangle (h !!! display_image) (x, y)
                  (int32 (x + w), int32 (y + h')) (color_of m) 2]> h in
          loop_opencv image display_image stored_embeddings rest
            (matches ++
               [make_face_data [x; y; int32 (x + w); int32 (y + h')] m
                  face_crop]) h
      end
  end.

(** Lines 94-224. [image] is the caller's array; the result is
    [(display_image, matches)] and the heap the call leaves. *)
Definition detect_face_realtime (image : loc)
    (stored_embeddings : option (list entry)) (h : heap)
  : result (loc * list face_data) * heap :=
  let '(display_image, h) := copy image h in
  let matches := [] in
  if use_insightface self then
    let faces := face_app_get self (h !!! image) in
    let '(r, h) :=
      loop_insightface image display_image stored_embeddings faces matches h in
    (matches ← r; Ok (display_image, matches), h)
  else
    let faces := face_cascade_detectMultiScale self (h !!! image) in
    let '(r, h) :=
      loop_opencv image display_image stored_embeddings faces matches h in
    (matches ← r; Ok (display_image, matches), h).

End Methods.

End FaceProcessor.

(** ** [src/utils/database.py]: class [Database] *)

Module Database.

(** The stored [face_embedding] field: the bytes [pickle.dumps] made of an
    array (line 121), or any other bytes. *)
Inductive binary :=
| Pickled (a : ndarray)
| NotAPickle.

Definition pickle_loads (b : binary) : result ndarray :=
  match b with
  | Pickled a => Ok a
  | NotAPickle => Raise UnpicklingError
  end.

(** A document of the [users] collection. [_id] is always there; any other
    key may be missing. *)
Record user := {
  _id : string;
  name : option string;
  id_card_number : option string;
  nationality : option string;
  profession : option string;
  face_embedding : option binary
}.

(** [user[key]]. *)
Definition getitem {A} (field : option A) : result A :=
  match field with
  | Some v => Ok v
  | None => Raise KeyError
  end.

(** [self]: what [self.users_collection.find({})] answers. *)
Record t := {
  users_collection_find : result (list user)
}.

(** The dictionary returned with [True]. *)
Record user_info := {
  ui_id : string;
  ui_name : string;
  ui_similarity : spec_float
}.

(** Lines 409-428: the body of the [try]. *)
Fixpoint check_face_exists_loop dt (face_embedding_ : ndarray)
    (similarity_threshold : spec_float) (users : list user)
  : result (bool * option user_info) :=
  match users with
  | [] => Ok (false, None)
  | user :: rest =>
      match face_embedding user with
      | Some stored =>
          existing_embedding ← pickle_loads stored;
          d ← dot dt existing_embedding face_embedding_;
          let similarity :=
            fdiv dt d (fmul dt (norm dt existing_embedding)
                                (norm dt face_embedding_)) in
          if gt similarity similarity_threshold
          then
            n ← getitem (name user);
            Ok (true, Some {| ui_id := _id user; ui_name := n;
                              ui_similarity := similarity |})
          else check_face_exists_loop dt face_embedding_ similarity_threshold rest
      | None =>
          check_face_exists_loop dt face_embedding_ similarity_threshold rest
      end
  end.

Definition check_face_exists_try (self : t) dt (face_embedding_ : ndarray)
    (similarity_threshold : spec_float) : result (bool * option user_info) :=
  users ← users_collection_find self;
  check_face_exists_loop dt face_embedding_ similarity_threshold users.

(** Lines 394-432: [except Exception] answers [(False, None)]. *)
Definition check_face_exists (self : t) dt (face_embedding_ : ndarray)
    (similarity_threshold : spec_float) : bool * option user_info :=
  match check_face_exists_try self dt face_embedding_ similarity_threshold with
  | Ok r => r
  | Raise _ => (false, None)
  end.

(** The default value of [similarity_threshold]. *)
Definition default_similarity_threshold dt : spec_float := lit dt 5 10.

(** Lines 271-293: the gallery handed to [detect_face_realtime]. *)
Fixpoint get_all_embeddings_loop (users : list user)
    (embeddings : list FaceProcessor.entry)
  : result (list FaceProcessor.entry) :=
  match users with
  | [] => Ok embeddings
  | user :: rest =>
      match face_embedding user with
      | Some stored =>
          embedding ← pickle_loads stored;
          n ← getitem (name user);
          c ← getitem (id_card_number user);
          na ← getitem (nationality user);
          p ← getitem (profession user);
          get_all_embeddings_loop rest
            (embeddings ++
               [(_id user,
                 {| FaceProcessor.ud_name := n;
                    FaceProcessor.ud_id_card_number := c;
                    FaceProcessor.ud_nationality := na;
                    FaceProcessor.ud_profession := p |},
                 embedding)])
      | None => get_all_embeddings_loop rest embeddings
      end
  end.

Definition get_all_embeddings (self : t) : result (list FaceProcessor.entry) :=
  users ← users_collection_find self;
  get_all_embeddings_loop users [].

End Database.

(** ** [src/pages/registration.py]: the duplicate guard of [add_user_page] *)

Module Registration.

(** Lines 68-71 and 99-102: [similarity_threshold=0.6]. *)
Definition similarity_threshold dt : spec_float := lit dt 6 10.

Definition check_duplicate (database : Database.t) dt (face_embedding : ndarray)
  : bool * option Database.user_info :=
  Database.check_face_exists database dt face_embedding (similarity_threshold dt).

End Registration.




(** ** The notions of the specification *)

Module Spec.

(** [dot(a,b)]: the sum of the products of the paired components. *)
Definition dot_product dt (a b : ndarray) : spec_float :=
  fold_left (fun acc xy => fadd dt acc (fmul dt (fst xy) (snd xy)))
    (combine a b) (S754_zero false).

(** The Euclidean norm: the square root of the sum of the squares. *)
Definition euclidean_norm dt (a : ndarray) : spec_float :=
  fsqrt dt (dot_product dt a a).

(** Cosine similarity: [dot(a,b) / (norm a * norm b)]. *)
Definition cosine_similarity dt (a b : ndarray) : spec_float :=
  fdiv dt (dot_product dt a b)
    (fmul dt (euclidean_norm dt a) (euclidean_norm dt b)).

(** What lines 196-197 compute instead: [1 / (1 + norm (a - b))]. *)
Definition inverse_distance_similarity dt (a b : ndarray) : spec_float :=
  fdiv dt (of_Z dt 1) (fadd dt (of_Z dt 1) (norm dt (sub_arr dt a b))).

(** The score the OpenCV scan gives an entry: none when the dimensions
    differ. *)
Definition opencv_score dt (probe : ndarray) (e : FaceProcessor.entry)
  : option spec_float :=
  if (length probe =? length (snd e))%nat
  then Some (inverse_distance_similarity dt probe (snd e))
  else None.

(** The score the InsightFace scan gives an entry. *)
Definition cosine_score dt (probe : ndarray) (e : FaceProcessor.entry)
  : option spec_float :=
  Some (cosine_similarity dt probe (snd e)).

Definition same_dimension (probe : ndarray) (e : FaceProcessor.entry) : Prop :=
  length (snd e) = length probe.

(** An entry whose score is strictly greater than the threshold. *)
Definition above (threshold : spec_float)
    (score : FaceProcessor.entry -> option spec_float)
    (e : FaceProcessor.entry) : Prop :=
  exists s, score e = Some s /\ gt s threshold = true.

(** A vector of zero norm: every component is a zero. *)
Definition is_zero (x : spec_float) : bool :=
  match x with S754_zero _ => true | _ => false end.

Definition zero_vector (a : ndarray) : Prop := forallb is_zero a = true.

Definition is_nan (x : spec_float) : bool :=
  match x with S754_nan => true | _ => false end.

Definition zero_or_nan (x : spec_float) : bool := is_zero x || is_nan x.

(** A running maximum over scored entries: the shape shared by the two
    scans of [detect_face_realtime]. *)
Fixpoint running_max (threshold : spec_float)
    (score : FaceProcessor.entry -> option spec_float)
    (entries : list FaceProcessor.entry)
    (best_match : option FaceProcessor.best) (best_score : spec_float)
  : option FaceProcessor.best :=
  match entries with
  | [] => best_match
  | e :: rest =>
      match score e with
      | Some s =>
          if gt s threshold && gt s best_score
          then running_max threshold score rest (Some (fst e, s)) s
          else running_max threshold score rest best_match best_score
      | None => running_max threshold score rest best_match best_score
      end
  end.


(** The branch taken at line 111, as a function of [self.use_insightface]. *)
Definition backend_match (insight : bool) :=
  if insight then FaceProcessor.match_insightface
  else FaceProcessor.match_opencv.

Definition backend_threshold (insight : bool) dt : spec_float :=
  if insight then FaceProcessor.threshold_insightface dt
  else FaceProcessor.threshold_opencv dt.

Definition backend_score (insight : bool) dt (probe : ndarray) :=
  if insight then cosine_score dt probe else opencv_score dt probe.

(** A document the duplicate guard passes without an exception: no
    embedding, or one that unpickles to the probe's dimension in a document
    that has a name. *)
Definition scannable (probe : ndarray) (u : Database.user) : Prop :=
  match Database.face_embedding u with
  | Some (Database.Pickled a) =>
      length a = length probe /\ is_Some (Database.name u)
  | Some Database.NotAPickle => False
  | None => True
  end.

(** A document whose stored embedding scores above the threshold. *)
Definition duplicate_of dt (probe : ndarray) (threshold : spec_float)
    (u : Database.user) : Prop :=
  exists a,
    Database.face_embedding u = Some (Database.Pickled a) /\
    gt (cosine_similarity dt a probe) threshold = true.



(** The crops [get_face_embedding] returns for a detection. *)
Definition insightface_crop (im : image) (face : FaceProcessor.Face) : image :=
  let '(b0, b1, b2, b3) := FaceProcessor.bbox_astype_int face in
  crop im (Z.max 0 b1) (Z.min b3 (shape0 im)) (Z.max 0 b0) (Z.min b2 (shape1 im)).

Definition opencv_crop (im : image) (x : FaceProcessor.rect) : image :=
  let '(x0, y0, w, h) := x in
  crop im y0 (int32 (y0 + h)) x0 (int32 (x0 + w)).

(** The number of faces the active backend detects. *)
Definition detected (self : FaceProcessor.t) (im : image) : nat :=
  if FaceProcessor.use_insightface self
  then length (FaceProcessor.face_app_get self im)
  else length (FaceProcessor.face_cascade_detectMultiScale self im).

(** The marker of an outcome: its colour, its corners on the displayed
    image, and the markers of a list of outcomes drawn in order. *)
Definition marker_color (fd : FaceProcessor.face_data) : pixel :=
  if FaceProcessor.fd_recognized fd
  then FaceProcessor.green else FaceProcessor.red.

Definition marker_corners (insight : bool) (shown : image)
    (fd : FaceProcessor.face_data) : (Z * Z) * (Z * Z) :=
  match FaceProcessor.fd_bbox fd with
  | [b0; b1; b2; b3] =>
      if insight
      then ((Z.max 0 b0, Z.max 0 b1),
            (Z.min b2 (shape1 shown), Z.min b3 (shape0 shown)))
      else ((b0, b1), (b2, b3))
  | _ => ((0, 0), (0, 0))
  end.

Definition draw_markers
    (cv2_rectangle : image -> Z * Z -> Z * Z -> pixel -> Z -> image)
    (insight : bool) (im : image) (outcomes : list FaceProcessor.face_data)
  : image :=
  fold_left
    (fun shown fd =>
       cv2_rectangle shown (fst (marker_corners insight shown fd))
         (snd (marker_corners insight shown fd)) (marker_color fd) 2)
    outcomes im.

End Spec.

(** ** Concrete galleries *)

Module Examples.

Definition alice : FaceProcessor.user_data :=
  {| FaceProcessor.ud_name := "Alice"; FaceProcessor.ud_id_card_number := "A-1";
     FaceProcessor.ud_nationality := "FR"; FaceProcessor.ud_profession := "nurse" |}.

Definition bob : FaceProcessor.user_data :=
  {| FaceProcessor.ud_name := "Bob"; FaceProcessor.ud_id_card_number := "B-2";
     FaceProcessor.ud_nationality := "DE"; FaceProcessor.ud_profession := "baker" |}.

(** The probe [[1, 0]] and the entries [[1, 0]], [[2, 0]] (cosine 1 to the
    probe, both), [[1.125, 0]] and [[1, 0, 0]] (another dimension). *)
Definition probe dt : ndarray := [of_Z dt 1; of_Z dt 0].

Definition u1 dt : FaceProcessor.entry :=
  ("u1"%string, alice, [of_Z dt 1; of_Z dt 0]).

Definition u2 dt : FaceProcessor.entry :=
  ("u2"%string, bob, [of_Z dt 2; of_Z dt 0]).


Definition u4 dt : FaceProcessor.entry :=
  ("u4"%string, bob, [of_Z dt 1; of_Z dt 0; of_Z dt 0]).


(** [2^-600], whose square is below the smallest [float64]. *)
Definition tiny : spec_float :=
  binary_normalize (prec float64) (emax float64) 1 (-600) false.

(** The stored document of an entry. *)
Definition doc (e : FaceProcessor.entry) : Database.user :=
  {| Database._id := fst (fst e);
     Database.name := Some (FaceProcessor.ud_name (snd (fst e)));
     Database.id_card_number :=
       Some (FaceProcessor.ud_id_card_number (snd (fst e)));
     Database.nationality := Some (FaceProcessor.ud_nationality (snd (fst e)));
     Database.profession := Some (FaceProcessor.ud_profession (snd (fst e)));
     Database.face_embedding := Some (Database.Pickled (snd e)) |}.

Definition corrupt : Database.user :=
  {| Database._id := "u0"; Database.name := Some "Eve"%string;
     Database.id_card_number := None; Database.nationality := None;
     Database.profession := None;
     Database.face_embedding := Some Database.NotAPickle |}.

(** A frame of two rows and two columns. *)
Definition frame : image := [[(0, 0, 0); (10, 10, 10)]; [(20, 20, 20); (30, 30, 30)]].

(** Two InsightFace detections of equal area, 4, and a smaller third. *)
Definition f1 : FaceProcessor.Face :=
  {| FaceProcessor.bbox :=
       (of_Z float32 0, of_Z float32 0, of_Z float32 2, of_Z float32 2);
     FaceProcessor.embedding := probe float32 |}.

Definition f2 : FaceProcessor.Face :=
  {| FaceProcessor.bbox :=
       (of_Z float32 1, of_Z float32 1, of_Z float32 3, of_Z float32 3);
     FaceProcessor.embedding := [of_Z float32 0; of_Z float32 1] |}.

Definition f3 : FaceProcessor.Face :=
  {| FaceProcessor.bbox :=
       (of_Z float32 0, of_Z float32 0, of_Z float32 1, of_Z float32 1);
     FaceProcessor.embedding := [of_Z float32 1; of_Z float32 1] |}.

(** A processor whose detectors answer the given detections on every
    image. *)
Definition processor (insight : bool) (faces : list FaceProcessor.Face)
    (rects : list FaceProcessor.rect) : FaceProcessor.t :=
  {| FaceProcessor.use_insightface := insight;
     FaceProcessor.face_app_get := fun _ => faces;
     FaceProcessor.face_cascade_detectMultiScale := fun _ => rects |}.

(** Stand-ins for the external [cv2.rectangle], [cv2.resize] and the JPEG
    encoder: a rectangle paints the pixel at its first corner. *)
Definition paint (im : image) (p1 p2 : Z * Z) (c : pixel) (t : Z) : image :=
  match im !! Z.to_nat (snd p1) with
  | Some row =>
      <[Z.to_nat (snd p1) := <[Z.to_nat (fst p1) := c]> row]> im
  | None => im
  end.

Definition resize (im : image) (dsize : Z * Z) : image := im.

Definition encode (im : image) : string := "jpeg"%string.

(** The heap before a call: the caller's frame at location 1; and a call
    in InsightFace mode with two detections and a gallery of one entry. *)
Definition memory : heap := {[1%positive := frame]}.

Definition run : result (loc * list FaceProcessor.face_data) * heap :=
  FaceProcessor.detect_face_realtime paint resize encode
    (processor true [f1; f2] []) 1%positive (Some [u1 float32]) memory.

Definition db (users : list Database.user) : Database.t :=
  {| Database.users_collection_find := Ok users |}.

End Examples.

Import FaceProcessor Spec.

(** ** Further notions and cases *)

Module Outcome.

(** The state of a scan is consistent when [best_score] is the score kept in
    [best_match], above the threshold, or still the initial value below
    it. *)
Definition consistent (threshold : spec_float)
    (best_match : option FaceProcessor.best) (best_score : spec_float) : Prop :=
  match best_match with
  | Some (_, s) => s = best_score /\ gt s threshold = true
  | None => SFltb best_score threshold = true
  end.

(** The detections of the active backend, each as the box reported for it
    and its probe: the embedding InsightFace gives, or the flattened
    50 x 50 resize of the crop in OpenCV mode. *)
Definition insightface_detection (face : FaceProcessor.Face)
  : list Z * ndarray :=
  let '(b0, b1, b2, b3) := FaceProcessor.bbox_astype_int face in
  ([b0; b1; b2; b3], FaceProcessor.embedding face).

Definition opencv_detection (cv2_resize : image -> Z * Z -> image)
    (im : image) (x : FaceProcessor.rect) : list Z * ndarray :=
  let '(x0, y0, w, h) := x in
  ([x0; y0; int32 (x0 + w); int32 (y0 + h)],
   flatten_div255 (cv2_resize (opencv_crop im x) (50, 50))).

Definition detections (cv2_resize : image -> Z * Z -> image)
    (self : FaceProcessor.t) (im : image) : list (list Z * ndarray) :=
  if FaceProcessor.use_insightface self
  then map insightface_detection (FaceProcessor.face_app_get self im)
  else map (opencv_detection cv2_resize im)
         (FaceProcessor.face_cascade_detectMultiScale self im).

(** The dtype of a backend's arrays. *)
Definition backend_dtype (insight : bool) : dtype :=
  if insight then float32 else float64.

(** What an outcome says: recognized, with the id and the payload of a
    gallery entry and a confidence that is a score above the threshold; or
    unrecognized, with no id, no payload and confidence zero. *)
Definition coherent (insight : bool)
    (stored : option (list FaceProcessor.entry))
    (fd : FaceProcessor.face_data) : Prop :=
  (FaceProcessor.fd_recognized fd = true /\
   exists gallery u d emb s,
     stored = Some gallery /\ (u, d, emb) ∈ gallery /\
     FaceProcessor.fd_user_id fd = Some u /\
     FaceProcessor.fd_match fd = Some d /\
     FaceProcessor.fd_confidence fd = to_float s /\
     gt s (backend_threshold insight (backend_dtype insight)) = true) \/
  (FaceProcessor.fd_recognized fd = false /\
   FaceProcessor.fd_user_id fd = None /\
   FaceProcessor.fd_match fd = None /\
   FaceProcessor.fd_confidence fd = S754_zero false).

(** An outcome made for a box from the match of its probe against the
    gallery. *)
Definition outcome_for (jpeg_base64 : image -> string) (insight : bool)
    (stored : option (list FaceProcessor.entry))
    (detection : list Z * ndarray) (fd : FaceProcessor.face_data) : Prop :=
  exists m face_crop,
    fd = FaceProcessor.make_face_data jpeg_base64 (fst detection) m face_crop /\
    (if insight
     then FaceProcessor.match_insightface float32 (snd detection) stored
     else FaceProcessor.match_opencv float64 (snd detection) stored) = Ok m.

(** The gallery entry of a stored document, when it has an embedding that
    unpickles and the four profile keys. *)
Definition entry_of (u : Database.user) : option FaceProcessor.entry :=
  match Database.face_embedding u, Database.name u, Database.id_card_number u,
        Database.nationality u, Database.profession u with
  | Some (Database.Pickled a), Some n, Some c, Some na, Some p =>
      Some (Database._id u,
            {| FaceProcessor.ud_name := n;
               FaceProcessor.ud_id_card_number := c;
               FaceProcessor.ud_nationality := na;
               FaceProcessor.ud_profession := p |}, a)
  | _, _, _, _, _ => None
  end.

(** A document [get_all_embeddings] passes: without an embedding, or with
    an entry. *)
Definition loadable (u : Database.user) : Prop :=
  Database.face_embedding u = None \/ is_Some (entry_of u).

(** A rectangular image of [rows] rows and [cols] columns. *)
Definition rectangular (rows cols : nat) (im : image) : Prop :=
  length im = rows /\ Forall (fun row => length row = cols) im.

(** A pixel whose channels are 8-bit values. *)
Definition eight_bit (p : pixel) : Prop :=
  let '(b, g, r) := p in
  0 <= b <= 255 /\ 0 <= g <= 255 /\ 0 <= r <= 255.

End Outcome.

Module Cases.

(** [[4, 3]]: cosine 0.8 to the probe [[1, 0]]. *)
Definition u7 dt : FaceProcessor.entry :=
  ("u7"%string, Examples.bob, [of_Z dt 4; of_Z dt 3]).

(** A document without a stored embedding. *)

Definition no_embedding : Database.user :=
  {| Database._id := "u8"; Database.name := Some "Zoe"%string;
     Database.id_card_number := Some "Z-8"%string;
     Database.nationality := Some "IT"%string;
     Database.profession := Some "pilot"%string;
     Database.face_embedding := None |}.

(** A box that lies above the frame: [y2 = -1]. *)
Definition f4 : FaceProcessor.Face :=
  {| FaceProcessor.bbox :=
       (of_Z float32 0, of_Z float32 (-3), of_Z float32 2, of_Z float32 (-1));
     FaceProcessor.embedding := Examples.probe float32 |}.



End Cases.

Import Outcome.

(** ** The MongoDB server, as far as the code uses it *)

Module Server.

(** A document of [users]: the fields the matching code reads, and the
    others [add_user] writes. *)
Record user_doc := {
  doc_user : Database.user;
  doc_age : option Z;
  doc_image_base64 : option string;
  doc_created_at : option Z;
  doc_updated_at : option Z
}.

(** A document of [logs] and one of [recognition_logs]. *)
Record log_doc := {
  log_timestamp : Z;
  log_person_id : option string;
  log_person_name : option string;
  log_recognition_status : string;
  log_confidence_score : spec_float;
  log_image_base64 : option string
}.

Record recognition_doc := {
  rec_timestamp : Z;
  rec_recognition_status : string;
  rec_person_id : option string;
  rec_person_name : option string;
  rec_confidence_score : spec_float;
  rec_face_image : option string
}.

(** The server: whether it can be reached, its three collections in
    insertion order, and how many times the clock has been read. *)
Record t := {
  reachable : bool;
  users : list user_doc;
  logs : list log_doc;
  recognition_logs : list recognition_doc;
  clock : nat
}.

Definition set_users (us : list user_doc) (s : t) : t :=
  {| reachable := reachable s; users := us; logs := logs s;
     recognition_logs := recognition_logs s; clock := clock s |}.

Definition set_logs (ls : list log_doc) (s : t) : t :=
  {| reachable := reachable s; users := users s; logs := ls;
     recognition_logs := recognition_logs s; clock := clock s |}.

Definition set_recognition_logs (ls : list recognition_doc) (s : t) : t :=
  {| reachable := reachable s; users := users s; logs := logs s;
     recognition_logs := ls; clock := clock s |}.

Definition tick (s : t) : t :=
  {| reachable := reachable s; users := users s; logs := logs s;
     recognition_logs := recognition_logs s; clock := S (clock s) |}.

(** An operation answers or raises, and leaves a server. *)
Definition op (A : Type) : Type := t -> result A * t.

Definition ret {A} (a : A) : op A := fun s => (Ok a, s).

Definition raise {A} (e : exn) : op A := fun s => (Raise e, s).

Definition bind {A B} (m : op A) (k : A -> op B) : op B :=
  fun s =>
    match m s with
    | (Ok a, s') => k a s'
    | (Raise e, s') => (Raise e, s')
    end.

Definition lift {A} (r : result A) : op A := fun s => (r, s).

(** A request to a server that cannot be reached raises. *)
Definition request {A} (answer : t -> A * t) : op A :=
  fun s =>
    if reachable s
    then let '(a, s') := answer s in (Ok a, s')
    else (Raise PyMongoError, s).

(** [find_one], [find], [update_one] with [$set] and [delete_one] on
    [users]; the first document the filter accepts is the one found,
    updated or deleted. *)
Definition find_one_user (accepts : user_doc -> bool) : op (option user_doc) :=
  request (fun s => (List.find accepts (users s), s)).

Definition find_users : op (list user_doc) :=
  request (fun s => (users s, s)).

(** [insert_one] gives the document the [_id] the driver generates and
    answers it. *)
Definition insert_one_user (new_object_id : list user_doc -> string)
    (fields : string -> user_doc) : op string :=
  request (fun s =>
    let oid := new_object_id (users s) in
    (oid, set_users (users s ++ [fields oid]) s)).

Fixpoint update_first (accepts : user_doc -> bool)
    (set : user_doc -> user_doc) (l : list user_doc) : nat * list user_doc :=
  match l with
  | [] => (0%nat, [])
  | d :: l' =>
      if accepts d then (1%nat, set d :: l')
      else let '(n, l'') := update_first accepts set l' in (n, d :: l'')
  end.

Fixpoint delete_first (accepts : user_doc -> bool) (l : list user_doc)
  : nat * list user_doc :=
  match l with
  | [] => (0%nat, [])
  | d :: l' =>
      if accepts d then (1%nat, l')
      else let '(n, l'') := delete_first accepts l' in (n, d :: l'')
  end.

Definition update_one_user (accepts : user_doc -> bool)
    (set : user_doc -> user_doc) : op nat :=
  request (fun s =>
    let '(n, us) := update_first accepts set (users s) in (n, set_users us s)).

Definition delete_one_user (accepts : user_doc -> bool) : op nat :=
  request (fun s =>
    let '(n, us) := delete_first accepts (users s) in (n, set_users us s)).

(** [insert_one] on [logs] and on [recognition_logs], and [find] on
    [logs]. *)
Definition insert_one_log (d : log_doc) : op unit :=
  request (fun s => (tt, set_logs (logs s ++ [d]) s)).

Definition insert_one_recognition_log (d : recognition_doc) : op unit :=
  request (fun s =>
    (tt, set_recognition_logs (recognition_logs s ++ [d]) s)).

Definition find_logs (accepts : log_doc -> bool) : op (list log_doc) :=
  request (fun s => (List.filter accepts (logs s), s)).

(** [list_collection_names] and [create_collection]: a collection exists
    once it is created or written to; creating it changes no document. *)
Definition ensure_collection : op unit :=
  request (fun s => (tt, s)).

(** [datetime.now()]: the next reading of the clock, in microseconds. *)
Definition datetime_now (time_at : nat -> Z) : op Z :=
  fun s => (Ok (time_at (clock s)), tick s).

(** The filters of the code. *)
Definition has_id_card_number (n : string) (d : user_doc) : bool :=
  bool_decide (Database.id_card_number (doc_user d) = Some n).

Definition has_id (oid : string) (d : user_doc) : bool :=
  bool_decide (Database._id (doc_user d) = oid).

(** What [check_face_exists] and [get_all_embeddings] see of the server. *)
Definition database (s : t) : Database.t :=
  {| Database.users_collection_find :=
       if reachable s then Ok (map doc_user (users s))
       else Raise PyMongoError |}.

End Server.

(** ** [src/utils/database.py]: the methods that write and read the
    collections *)

Module DatabaseMethods.

Import Server.

Notation "x <- m ;; k" := (bind m (fun x => k))
  (at level 100, m at next level, right associativity).

Section Methods.
(** External: the clock, the text of an exception ([str(e)]),
    [bson.ObjectId] on a string and the ids the driver generates. *)
Variable time_at : nat -> Z.
Variable str_exn : exn -> string.
Variable ObjectId : string -> result string.
Variable new_object_id : list user_doc -> string.

(** [try: body except Exception as e: return handler(e)]. *)
Definition try {A} (body : op A) (handler : exn -> A) : t -> A * t :=
  fun s =>
    match body s with
    | (Ok a, s') => (a, s')
    | (Raise e, s') => (handler e, s')
    end.

(** Lines 98-144. *)
Definition add_user (name : string) (age : Z)
    (id_card_number nationality profession : string)
    (face_embedding : ndarray) (image_base64 : string)
  : t -> (bool * string * option string) * t :=
  try
    (existing_user <- find_one_user (has_id_card_number id_card_number) ;;
     match existing_user with
     | Some _ =>
         ret (false,
              ("User with ID " ++ id_card_number ++ " already exists")%string,
              None)
     | None =>
         let embedding_binary := Database.Pickled face_embedding in
         created_at <- datetime_now time_at ;;
         updated_at <- datetime_now time_at ;;
         inserted_id <-
           insert_one_user new_object_id (fun oid =>
             {| doc_user :=
                  {| Database._id := oid;
                     Database.name := Some name;
                     Database.id_card_number := Some id_card_number;
                     Database.nationality := Some nationality;
                     Database.profession := Some profession;
                     Database.face_embedding := Some embedding_binary |};
                doc_age := Some age;
                doc_image_base64 := Some image_base64;
                doc_created_at := Some created_at;
                doc_updated_at := Some updated_at |}) ;;
         ret (true, "User added successfully"%string, Some inserted_id)
     end)
    (fun e => (false, ("Error adding user: " ++ str_exn e)%string, None)).

(** Lines 146-157: the projection leaves [face_embedding] out. *)
Definition without_embedding (d : user_doc) : user_doc :=
  {| doc_user :=
       {| Database._id := Database._id (doc_user d);
          Database.name := Database.name (doc_user d);
          Database.id_card_number := Database.id_card_number (doc_user d);
          Database.nationality := Database.nationality (doc_user d);
          Database.profession := Database.profession (doc_user d);
          Database.face_embedding := None |};
     doc_age := doc_age d;
     doc_image_base64 := doc_image_base64 d;
     doc_created_at := doc_created_at d;
     doc_updated_at := doc_updated_at d |}.

Definition get_all_users : op (list user_doc) :=
  users <- find_users ;; ret (map without_embedding users).

(** Lines 159-177: the document, and in place of its [face_embedding] the
    array it unpickles to. No [try]. *)
Definition get_user (user_id : string) : op (option (user_doc * option ndarray)) :=
  oid <- lift (ObjectId user_id) ;;
  user <- find_one_user (has_id oid) ;;
  match user with
  | Some d =>
      match Database.face_embedding (doc_user d) with
      | Some stored =>
          a <- lift (Database.pickle_loads stored) ;; ret (Some (d, Some a))
      | None => ret (Some (d, None))
      end
  | None => ret None
  end.

(** Lines 179-238. *)
Definition set_fields (name : string) (age : Z)
    (id_card_number nationality profession : string) (updated_at : Z)
    (face_embedding : option ndarray) (image_base64 : option string)
    (d : user_doc) : user_doc :=
  {| doc_user :=
       {| Database._id := Database._id (doc_user d);
          Database.name := Some name;
          Database.id_card_number := Some id_card_number;
          Database.nationality := Some nationality;
          Database.profession := Some profession;
          Database.face_embedding :=
            match face_embedding with
            | Some a => Some (Database.Pickled a)
            | None => Database.face_embedding (doc_user d)
            end |};
     doc_age := Some age;
     doc_image_base64 :=
       match image_base64 with
       | Some i => Some i
       | None => doc_image_base64 d
       end;
     doc_created_at := doc_created_at d;
     doc_updated_at := Some updated_at |}.

Definition update_user (user_id name : string) (age : Z)
    (id_card_number nationality profession : string)
    (face_embedding : option ndarray) (image_base64 : option string)
  : t -> (bool * string) * t :=
  try
    (oid <- lift (ObjectId user_id) ;;
     existing_user <-
       find_one_user (fun d =>
         has_id_card_number id_card_number d && negb (has_id oid d)) ;;
     match existing_user with
     | Some _ =>
         ret (false,
              ("Another user with ID " ++ id_card_number ++ " already exists")
                %string)
     | None =>
         updated_at <- datetime_now time_at ;;
         oid' <- lift (ObjectId user_id) ;;
         matched_count <-
           update_one_user (has_id oid')
             (set_fields name age id_card_number nationality profession
                updated_at face_embedding image_base64) ;;
         if (matched_count =? 0)%nat
         then ret (false, "User not found"%string)
         else ret (true, "User updated successfully"%string)
     end)
    (fun e => (false, ("Error updating user: " ++ str_exn e)%string)).

(** Lines 240-269. *)
Definition delete_user (user_id : string) : t -> (bool * string) * t :=
  try
    (oid <- lift (ObjectId user_id) ;;
     user <- find_one_user (has_id oid) ;;
     match user with
     | None =>
         ret (false, ("User with ID " ++ user_id ++ " not found")%string)
     | Some _ =>
         oid' <- lift (ObjectId user_id) ;;
         deleted_count <- delete_one_user (has_id oid') ;;
         if (0 <? deleted_count)%nat
         then ret (true, "User deleted successfully"%string)
         else ret (false, "User not deleted. Please try again."%string)
     end)
    (fun e => (false, ("Error deleting user: " ++ str_exn e)%string)).

(** Lines 295-324. *)
Definition add_log (person_id person_name : option string)
    (recognition_status : string) (confidence_score : spec_float)
    (image_base64 : option string) : t -> (bool * string) * t :=
  try
    (timestamp <- datetime_now time_at ;;
     _ <- insert_one_log
            {| log_timestamp := timestamp; log_person_id := person_id;
               log_person_name := person_name;
               log_recognition_status := recognition_status;
               log_confidence_score := confidence_score;
               log_image_base64 := image_base64 |} ;;
     ret (true, "Log added successfully"%string))
    (fun e => (false, ("Error adding log: " ++ str_exn e)%string)).

(** Lines 326-355. [hours] is [None] or a whole number of hours; it counts
    as given when it is not zero. *)
Definition microseconds_per_hour : Z := 3600000000.

Definition get_logs (hours : option Z) : t -> list log_doc * t :=
  try
    (since <-
       match hours with
       | Some n =>
           if n =? 0 then ret None
           else now <- datetime_now time_at ;;
                ret (Some (now - n * microseconds_per_hour))
       | None => ret None
       end ;;
     found <-
       find_logs (fun l =>
         match since with
         | Some t0 => t0 <=? log_timestamp l
         | None => true
         end) ;;
     ret (sorted_reverse log_timestamp Z.ltb found))
    (fun _ => []).

(** Lines 357-392. *)
Definition add_recognition_log (recognition_status : string)
    (person_id person_name : option string) (confidence_score : spec_float)
    (face_image : option string) : t -> (bool * string) * t :=
  try
    (_ <- ensure_collection ;;
     timestamp <- datetime_now time_at ;;
     _ <- insert_one_recognition_log
            {| rec_timestamp := timestamp;
               rec_recognition_status := recognition_status;
               rec_person_id := person_id; rec_person_name := person_name;
               rec_confidence_score := confidence_score;
               rec_face_image := face_image |} ;;
     ret (true, "Log added successfully"%string))
    (fun e => (false, ("Error adding log: " ++ str_exn e)%string)).

End Methods.

End DatabaseMethods.

(** ** [src/pages/realtime_test.py]: what [live_detection_page] records *)

Module RealtimePage.

Import Server.

(** An entry of [st.session_state.recognition_logs]. *)
Record session_entry := {
  se_timestamp : Z;
  se_recognition_status : string;
  se_person_id : option string;
  se_person_name : option FaceProcessor.user_data;
  se_confidence_score : spec_float;
  se_details : string;
  se_image : option string
}.

Section Page.
(** External: the clock, [str(e)], the f-string
    ["Recognized as {match} with {confidence:.2f} confidence"], and the
    parameters of [FaceProcessor]. *)
Variable time_at : nat -> Z.
Variable str_exn : exn -> string.
Variable recognized_as : option FaceProcessor.user_data -> spec_float -> string.
Variable cv2_rectangle : image -> Z * Z -> Z * Z -> pixel -> Z -> image.
Variable cv2_resize : image -> Z * Z -> image.
Variable jpeg_base64 : image -> string.
Variable face_processor : FaceProcessor.t.

(** Lines 94-107: what is logged for an outcome. *)
Definition logged (match_data : FaceProcessor.face_data)
  : string * option string * option FaceProcessor.user_data * spec_float * string :=
  if FaceProcessor.fd_recognized match_data
  then ("recognized"%string,
        FaceProcessor.fd_user_id match_data,
        FaceProcessor.fd_match match_data,
        FaceProcessor.fd_confidence match_data,
        recognized_as (FaceProcessor.fd_match match_data)
          (FaceProcessor.fd_confidence match_data))
  else ("unknown"%string, None, None, S754_zero false,
        "Unknown person detected"%string).

(** Lines 131-134: the name taken out of the payload. *)
Definition display_name (match_data : FaceProcessor.face_data) : option string :=
  match FaceProcessor.fd_match match_data with
  | Some d => Some (FaceProcessor.ud_name d)
  | None => None
  end.

(** Lines 91-149: the loop over the outcomes. Each is written to [logs]
    with [add_log], whose answer is not looked at, and put in front of the
    session list, which is cut to its first 50 entries. *)
Fixpoint record_matches (matches : list FaceProcessor.face_data)
    (recognition_logs : list session_entry) (s : Server.t)
  : list session_entry * Server.t :=
  match matches with
  | [] => (recognition_logs, s)
  | match_data :: rest =>
      let '(recognition_status, person_id, person_name, confidence_score,
            details) := logged match_data in
      let timestamp := time_at (clock s) in
      let s := tick s in
      let log_entry :=
        {| se_timestamp := timestamp;
           se_recognition_status := recognition_status;
           se_person_id := person_id;
           se_person_name := person_name;
           se_confidence_score := confidence_score;
           se_details := details;
           se_image := FaceProcessor.fd_face_image match_data |} in
      let '(_, s) :=
        DatabaseMethods.add_log time_at str_exn person_id
          (display_name match_data) recognition_status confidence_score
          (FaceProcessor.fd_face_image match_data) s in
      let recognition_logs := log_entry :: recognition_logs in
      let recognition_logs :=
        if (50 <? length recognition_logs)%nat
        then take 50 recognition_logs
        else recognition_logs in
      record_matches rest recognition_logs s
  end.

(** Lines 58-149: the page, for the frame the camera widget gives, if any.
    Nothing is processed while the gallery is empty. *)
Definition live_detection_page (frame : option loc)
    (recognition_logs : list session_entry) (h : heap) (s : Server.t)
  : result (list session_entry * heap * Server.t) :=
  embeddings ← Database.get_all_embeddings (database s);
  match embeddings with
  | [] => Ok (recognition_logs, h, s)
  | _ :: _ =>
      match frame with
      | None => Ok (recognition_logs, h, s)
      | Some image =>
          let '(r, h) :=
            FaceProcessor.detect_face_realtime cv2_rectangle cv2_resize
              jpeg_base64 face_processor image (Some embeddings) h in
          processed ← r;
          let '(recognition_logs, s) :=
            record_matches (snd processed) recognition_logs s in
          Ok (recognition_logs, h, s)
      end
  end.

End Page.

End RealtimePage.

(** ** Notions about the server *)

Module Kept.

Import Server.

(** The id card numbers and the ids of the stored users. *)
Definition id_cards (us : list user_doc) : list string :=
  omap (fun d => Database.id_card_number (doc_user d)) us.

Definition ids (us : list user_doc) : list string :=
  map (fun d => Database._id (doc_user d)) us.

(** What the methods keep: no two users share an id or an id card number. *)
Definition unique (s : Server.t) : Prop :=
  NoDup (ids (users s)) /\ NoDup (id_cards (users s)).

(** What a method has written: nothing, when the collections are the
    same. *)
Definition same_documents (s s' : Server.t) : Prop :=
  users s' = users s /\ logs s' = logs s /\
  recognition_logs s' = recognition_logs s.

(** The gallery entry [add_user] makes. *)
Definition new_entry (oid name id_card_number nationality profession : string)
    (face_embedding : ndarray) : FaceProcessor.entry :=
  (oid,
   {| FaceProcessor.ud_name := name;
      FaceProcessor.ud_id_card_number := id_card_number;
      FaceProcessor.ud_nationality := nationality;
      FaceProcessor.ud_profession := profession |},
   face_embedding).

(** A log without its timestamp. *)
Definition log_view (l : log_doc)
  : option string * option string * string * spec_float * option string :=
  (log_person_id l, log_person_name l, log_recognition_status l,
   log_confidence_score l, log_image_base64 l).

(** The start of the window of [get_logs]. *)
Definition window (time_at : nat -> Z) (hours : option Z) (s : Server.t)
  : option Z :=
  match hours with
  | Some n =>
      if n =? 0 then None
      else Some (time_at (clock s) - n * DatabaseMethods.microseconds_per_hour)
  | None => None
  end.

Definition within (since : option Z) (l : log_doc) : bool :=
  match since with
  | Some t0 => t0 <=? log_timestamp l
  | None => true
  end.

(** Newest first. *)
Definition newer_first (a b : log_doc) : Prop :=
  log_timestamp b <= log_timestamp a.

(** A session entry without its timestamp, and what the page records of an
    outcome in the session list and in [logs]. *)
Definition session_view (e : RealtimePage.session_entry)
  : string * option string * option FaceProcessor.user_data * spec_float *
    string * option string :=
  (RealtimePage.se_recognition_status e, RealtimePage.se_person_id e,
   RealtimePage.se_person_name e, RealtimePage.se_confidence_score e,
   RealtimePage.se_details e, RealtimePage.se_image e).

Definition recorded_in_session
    (recognized_as : option FaceProcessor.user_data -> spec_float -> string)
    (m : FaceProcessor.face_data)
  : string * option string * option FaceProcessor.user_data * spec_float *
    string * option string :=
  if FaceProcessor.fd_recognized m
  then ("recognized"%string, FaceProcessor.fd_user_id m,
        FaceProcessor.fd_match m, FaceProcessor.fd_confidence m,
        recognized_as (FaceProcessor.fd_match m) (FaceProcessor.fd_confidence m),
        FaceProcessor.fd_face_image m)
  else ("unknown"%string, None, None, S754_zero false,
        "Unknown person detected"%string, FaceProcessor.fd_face_image m).

Definition recorded_in_logs (m : FaceProcessor.face_data)
  : option string * option string * string * spec_float * option string :=
  if FaceProcessor.fd_recognized m
  then (FaceProcessor.fd_user_id m,
        option_map FaceProcessor.ud_name (FaceProcessor.fd_match m),
        "recognized"%string, FaceProcessor.fd_confidence m,
        FaceProcessor.fd_face_image m)
  else (None, option_map FaceProcessor.ud_name (FaceProcessor.fd_match m),
        "unknown"%string, S754_zero false, FaceProcessor.fd_face_image m).

End Kept.

Module Stand.

Import Server.

(** Stand-ins for the external parts: a clock that reads 1000 microseconds
    more each time, the text of an exception, an [ObjectId] that accepts the
    strings of four characters, and a driver that generates ["id-" ++ n] for
    the [n]-th document. *)
Definition time_at (n : nat) : Z := 1000 * Z.of_nat n.

Definition str_exn (e : exn) : string :=
  match e with
  | ValueError => "invalid id"
  | KeyError => "key"
  | IndexError => "index"
  | UnpicklingError => "unpickling"
  | PyMongoError => "server unreachable"
  end.

Definition ObjectId (s : string) : result string :=
  if (String.length s =? 4)%nat then Ok s else Raise ValueError.

Definition new_object_id (us : list user_doc) : string :=
  match length us with
  | O => "id-0"
  | 1%nat => "id-1"
  | _ => "id-n"
  end.

Definition empty : Server.t :=
  {| reachable := true; users := []; logs := []; recognition_logs := [];
     clock := 0 |}.

(** The server after Alice is registered with the embedding [[1, 0]]. *)
Definition with_alice : Server.t :=
  snd (DatabaseMethods.add_user time_at str_exn new_object_id "Alice" 30
         "A-1" "FR" "nurse" (Examples.probe float32) "jpeg" empty).

(** Then Bob with [[4, 3]]. *)
Definition with_bob : Server.t :=
  snd (DatabaseMethods.add_user time_at str_exn new_object_id "Bob" 41
         "B-2" "DE" "baker" (snd (Cases.u7 float32)) "jpeg" with_alice).

Definition down (s : Server.t) : Server.t :=
  {| reachable := false; users := users s; logs := logs s;
     recognition_logs := recognition_logs s; clock := clock s |}.

End Stand.

Import Kept.

(** ** [src/pages/registration.py]: [add_user_page] *)

Module RegistrationPage.

Import Server.


(** What a run of the page shows below the image. *)
Inductive view :=
| Nothing
| NoFace (message : string)
| FaceExists (existing_user : Database.user_info)
| Form
| Required
| Success (message : string) (user_id : option string)
| Failure (message : string).


Section Page.
(** External: the clock, [str(e)], the id the driver generates,
    [cv2.resize], and the JPEG encoding of the face image (lines 133-137). *)
Variable time_at : nat -> Z.
Variable str_exn : exn -> string.
Variable new_object_id : list user_doc -> string.
Variable cv2_resize : image -> Z * Z -> image.
Variable jpeg_base64 : image -> string.
Variable face_processor : FaceProcessor.t.



End Page.

End RegistrationPage.

(** ** [src/components/logs_viewer.py]: [show_logs_viewer] *)

Module LogsViewer.

Import Server.

(** An entry of [clean_logs]. *)
Record clean_log := {
  cl_timestamp : Z;
  cl_status : string;
  cl_person_name : string;
  cl_confidence : spec_float;
  cl_image : option string
}.

(** Lines 33-48: the name in a document of [logs] is a string or [None],
    and [None], which is not a string, becomes [str(None)]. *)
Definition person_name_of (log : log_doc) : string :=
  match log_person_name log with
  | Some person_name => person_name
  | None => "None"
  end.

(** Line 66: [image_base64 or face_image]; an empty string is false, and a
    document of [logs] has no [face_image]. *)
Definition image_of (log : log_doc) : option string :=
  match log_image_base64 log with
  | Some (String c rest) => Some (String c rest)
  | _ => None
  end.

(** Lines 55-57: [person_stats[person_name] += 1], after the key is set to
    0 when it is new. A dict keeps its keys in the order they were
    inserted. *)
Fixpoint increment (person_name : string) (person_stats : list (string * nat))
  : list (string * nat) :=
  match person_stats with
  | [] => [(person_name, 1%nat)]
  | (k, n) :: rest =>
      if String.eqb k person_name then (k, S n) :: rest
      else (k, n) :: increment person_name rest
  end.

Record tally := {
  clean_logs : list clean_log;
  recognized_count : nat;
  unknown_count : nat;
  person_stats : list (string * nat)
}.

(** Lines 27-69: the loop over the logs. *)
Fixpoint count_logs (logs : list log_doc) (t : tally) : tally :=
  match logs with
  | [] => t
  | log :: rest =>
      let timestamp := log_timestamp log in
      let status := log_recognition_status log in
      let person_name := person_name_of log in
      let entry :=
        {| cl_timestamp := timestamp; cl_status := status;
           cl_person_name := person_name;
           cl_confidence := log_confidence_score log;
           cl_image := image_of log |} in
      if String.eqb status "recognized"
      then
        count_logs rest
          {| clean_logs := clean_logs t ++ [entry];
             recognized_count := S (recognized_count t);
             unknown_count := unknown_count t;
             person_stats := increment person_name (person_stats t) |}
      else
        count_logs rest
          {| clean_logs := clean_logs t ++ [entry];
             recognized_count := recognized_count t;
             unknown_count := S (unknown_count t);
             person_stats := person_stats t |}
  end.

(** What the page shows: nothing but "No logs available", or the two
    counts, the top people and the recent logs. *)
Inductive view :=
| NoLogs
| Statistics (recognized_count unknown_count : nat)
    (top_people : list (string * nat)) (recent : list clean_log).

Section Viewer.
Variable time_at : nat -> Z.

(** Lines 9-146. *)
Definition show_logs_viewer (s : Server.t) : view * Server.t :=
  let '(logs, s) := DatabaseMethods.get_logs time_at None s in
  match logs with
  | [] => (NoLogs, s)
  | _ :: _ =>
      let t :=
        count_logs logs
          {| clean_logs := []; recognized_count := 0; unknown_count := 0;
             person_stats := [] |} in
      let sorted_people :=
        Python.sorted_reverse snd Nat.ltb (person_stats t) in
      let top_people := take 5 sorted_people in
      (Statistics (recognized_count t) (unknown_count t) top_people
         (take 20 (clean_logs t)), s)
  end.

End Viewer.

End LogsViewer.

(** What the statistics are about. *)

Module Counted.

Import Server.

Definition is_recognized (l : log_doc) : bool :=
  String.eqb (log_recognition_status l) "recognized".

(** The number of recognitions logged under a name. *)
Definition recognitions_of (name : string) (logs : list log_doc) : nat :=
  length (List.filter
            (fun l => is_recognized l &&
                      String.eqb (LogsViewer.person_name_of l) name) logs).

(** The count a name has in [person_stats], 0 when it is not a key. *)
Fixpoint stat (name : string) (person_stats : list (string * nat)) : nat :=
  match person_stats with
  | [] => 0%nat
  | (k, n) :: rest => if String.eqb k name then n else stat name rest
  end.

Definition more_often_first (a b : string * nat) : Prop :=
  (snd b <= snd a)%nat.

(** A log of each kind, to try the viewer on. *)
Definition seen (t : Z) (name : string) : log_doc :=
  {| log_timestamp := t; log_person_id := Some "id-0"%string;
     log_person_name := Some name;
     log_recognition_status := "recognized";
     log_confidence_score := of_Z float64 1;
     log_image_base64 := Some "jpeg"%string |}.

Definition stranger (t : Z) : log_doc :=
  {| log_timestamp := t; log_person_id := None; log_person_name := None;
     log_recognition_status := "unknown";
     log_confidence_score := S754_zero false;
     log_image_base64 := Some "jpeg"%string |}.

Definition busy : Server.t :=
  {| reachable := true; users := [];
     logs := [seen 1 "Alice"; stranger 2; seen 3 "Bob"; seen 4 "Alice"];
     recognition_logs := []; clock := 5 |}.

End Counted.

Import Counted.

(** * Properties *)

(** ** Comparison of floats *)

Section FloatOrder.

Lemma SFcompare_antisym (x y : spec_float) :
SFcompare y x = option_map CompOpp (SFcompare x y).
Proof.
destruct x as [sx|sx| |sx mx ex], y as [sy|sy| |sy my ey]; simpl;
  try reflexivity;
  try (destruct sx; reflexivity); try (destruct sy; reflexivity);
  try (destruct sx, sy; reflexivity).
change (Pos.compare_cont Eq my mx) with (Pos.compare my mx).
change (Pos.compare_cont Eq mx my) with (Pos.compare mx my).
rewrite (Z.compare_antisym ex ey), (Pos.compare_antisym mx my).
destruct sx, sy; try reflexivity;
  destruct (ex ?= ey), (mx ?= my)%positive; reflexivity.
Qed.

Lemma SFcompare_Lt_trans (x y z : spec_float) :
SFcompare x y = Some Lt -> SFcompare y z = Some Lt ->
SFcompare x z = Some Lt.
Proof.
destruct x as [sx|sx| |sx mx ex], y as [sy|sy| |sy my ey],
         z as [sz|sz| |sz mz ez]; simpl;
  try discriminate; try reflexivity;
  try (destruct sx; discriminate || reflexivity);
  try (destruct sy; discriminate || reflexivity);
  try (destruct sz; discriminate || reflexivity);
  try (destruct sx, sy; discriminate || reflexivity);
  try (destruct sy, sz; discriminate || reflexivity);
  try (destruct sx, sz; discriminate || reflexivity);
  try (destruct sx, sy, sz; discriminate || reflexivity).
change (Pos.compare_cont Eq mx my) with (Pos.compare mx my).
change (Pos.compare_cont Eq my mz) with (Pos.compare my mz).
change (Pos.compare_cont Eq mx mz) with (Pos.compare mx mz).
destruct sx, sy, sz; try discriminate; try reflexivity;
  destruct (Z.compare_spec ex ey), (Z.compare_spec ey ez),
           (Z.compare_spec ex ez);
  try discriminate; try reflexivity; try lia; subst;
  destruct (Pos.compare_spec mx my), (Pos.compare_spec my mz),
           (Pos.compare_spec mx mz);
  simpl; try discriminate; try reflexivity; try lia.
Qed.

Lemma SFltb_Lt (x y : spec_float) :
SFltb x y = true <-> SFcompare x y = Some Lt.
Proof.
unfold SFltb. destruct (SFcompare x y) as [[]|]; split; congruence.
Qed.

Lemma SFltb_trans (x y z : spec_float) :
SFltb x y = true -> SFltb y z = true -> SFltb x z = true.
Proof. rewrite !SFltb_Lt. apply SFcompare_Lt_trans. Qed.

Lemma SFltb_irrefl (x : spec_float) : SFltb x x = false.
Proof.
unfold SFltb. pose proof (SFcompare_antisym x x) as H.
destruct (SFcompare x x) as [[]|]; try reflexivity; discriminate.
Qed.

Lemma SFltb_asym (x y : spec_float) :
SFltb x y = true -> SFltb y x = false.
Proof.
unfold SFltb. rewrite (SFcompare_antisym x y).
destruct (SFcompare x y) as [[]|]; simpl; congruence.
Qed.


Lemma SFltb_nan_r (x : spec_float) : SFltb x S754_nan = false.
Proof. destruct x; reflexivity. Qed.

Lemma SFltb_nan_l (x : spec_float) : SFltb S754_nan x = false.
Proof. reflexivity. Qed.

(** Two numbers that both exceed a third are comparable. *)
Lemma SFltb_total (t x y : spec_float) :
SFltb t x = true -> SFltb t y = true ->
SFltb y x = false -> SFeqb x y = false -> SFltb x y = true.
Proof.
intros Htx Hty.
assert (Hx : is_nan x = false)
  by (destruct x; try reflexivity; rewrite SFltb_nan_r in Htx; discriminate).
assert (Hy : is_nan y = false)
  by (destruct y; try reflexivity; rewrite SFltb_nan_r in Hty; discriminate).
unfold SFltb, SFeqb. rewrite (SFcompare_antisym x y).
destruct (SFcompare x y) as [[]|] eqn:E; simpl; try congruence.
destruct x, y; simpl in *; try discriminate;
  match type of E with context [if ?b then _ else _] => destruct b end;
  discriminate.
Qed.

End FloatOrder.

(** ** The array operations against the specification's notions *)

Lemma dot_acc_fold dt (a b : ndarray) (acc : spec_float) :
  dot_acc dt acc a b =
  fold_left (fun acc xy => fadd dt acc (fmul dt (fst xy) (snd xy)))
    (combine a b) acc.
Proof.
  revert b acc. induction a as [|x a IH]; intros [|y b] acc; simpl; auto.
Qed.

Lemma dot_same_length dt (a b : ndarray) :
  length a = length b -> dot dt a b = Ok (dot_product dt a b).
Proof.
  intros H. unfold dot, dot_product.
  rewrite (proj2 (Nat.eqb_eq _ _) H). now rewrite dot_acc_fold.
Qed.

Lemma dot_other_length dt (a b : ndarray) :
  length a <> length b -> dot dt a b = Raise ValueError.
Proof.
  intros H. unfold dot. now rewrite (proj2 (Nat.eqb_neq _ _) H).
Qed.

Lemma norm_euclidean dt (a : ndarray) : norm dt a = euclidean_norm dt a.
Proof. unfold norm, euclidean_norm, dot_product. now rewrite dot_acc_fold. Qed.

Lemma sub_same_length dt (a b : ndarray) :
  length a = length b -> sub dt a b = Ok (sub_arr dt a b).
Proof. intros H. unfold sub. now rewrite (proj2 (Nat.eqb_eq _ _) H). Qed.

(** ** The two scans are running maxima *)

Lemma scan_insightface_running_max dt probe entries bm bs :
  Forall (same_dimension probe) entries ->
  scan_insightface dt probe entries bm bs =
  Ok (running_max (threshold_insightface dt) (cosine_score dt probe)
        entries bm bs).
Proof.
  intros H. revert bm bs.
  induction H as [|[[u d] emb] l Hd _ IH]; intros bm bs; simpl.
  - reflexivity.
  - unfold same_dimension in Hd. simpl in Hd.
    rewrite dot_same_length by congruence. simpl.
    rewrite !norm_euclidean.
    fold (cosine_similarity dt probe emb).
    destruct (gt _ _ && gt _ _); apply IH.
Qed.

Lemma scan_opencv_running_max dt probe entries bm bs :
  scan_opencv dt probe entries bm bs =
  Ok (running_max (threshold_opencv dt) (opencv_score dt probe)
        entries bm bs).
Proof.
  revert bm bs.
  induction entries as [|[[u d] emb] l IH]; intros bm bs; simpl.
  - reflexivity.
  - unfold opencv_score. simpl.
    destruct (length probe =? length emb)%nat eqn:E.
    + apply Nat.eqb_eq in E. rewrite sub_same_length by assumption. simpl.
      fold (inverse_distance_similarity dt probe emb).
      destruct (gt _ _ && gt _ _); apply IH.
    + apply IH.
Qed.

(** ** Running maxima *)

Section RunningMax.
Variable threshold : spec_float.
Variable score : entry -> option spec_float.

Local Abbreviation above := (Spec.above threshold score).

Lemma running_max_started l b bs :
  is_Some (running_max threshold score l (Some b) bs).
Proof.
  revert b bs. induction l as [|e l IH]; intros b bs; simpl; eauto.
  destruct (score e) as [s|]; auto.
  destruct (gt s threshold && gt s bs); auto.
Qed.

Lemma running_max_none l bs :
  Forall (fun e => ~ above e) l ->
  running_max threshold score l None bs = None.
Proof.
  induction 1 as [|e l He _ IH]; simpl; auto.
  destruct (score e) as [s|] eqn:Es; auto.
  destruct (gt s threshold) eqn:Eg; simpl; auto.
  exfalso. apply He. exists s. auto.
Qed.

Lemma running_max_some l bs :
  SFltb bs threshold = true ->
  Exists above l ->
  is_Some (running_max threshold score l None bs).
Proof.
  intros Hbs H. induction H as [e l (s & Es & Hs)|e l _ IH]; simpl.
  - rewrite Es, Hs. unfold gt in *.
    rewrite (SFltb_trans _ _ _ Hbs Hs). simpl. apply running_max_started.
  - destruct (score e) as [s|]; auto.
    destruct (gt s threshold && gt s bs) eqn:E; auto.
    apply running_max_started.
Qed.

(** What is selected is an entry of the list with its own score, which
    exceeds the threshold. *)
Lemma running_max_sound l bm bs ud s :
  running_max threshold score l bm bs = Some (ud, s) ->
  bm = Some (ud, s) \/
  exists e, e ∈ l /\ fst e = ud /\ score e = Some s /\ gt s threshold = true.
Proof.
  revert bm bs. induction l as [|e l IH]; intros bm bs; simpl; auto.
  destruct (score e) as [s'|] eqn:Es.
  - destruct (gt s' threshold) eqn:Eg; simpl.
    + destruct (gt s' bs); intros H; apply IH in H.
      * destruct H as [H|(e' & ? & ?)].
        -- inversion H; subst. right. exists e.
           repeat split; auto. constructor.
        -- right. exists e'. split; auto. now constructor.
      * destruct H as [H|(e' & ? & ?)]; auto.
        right. exists e'. split; auto. now constructor.
    + intros H; apply IH in H. destruct H as [H|(e' & ? & ?)]; auto.
      right. exists e'. split; auto. now constructor.
  - intros H; apply IH in H. destruct H as [H|(e' & ? & ?)]; auto.
    right. exists e'. split; auto. now constructor.
Qed.

(** Nothing after the running maximum replaces it unless it is strictly
    greater. *)
Lemma running_max_stays l b m :
  Forall (fun e => forall s, score e = Some s -> SFltb m s = false) l ->
  running_max threshold score l (Some b) m = Some b.
Proof.
  induction 1 as [|e l He _ IH]; simpl; auto.
  destruct (score e) as [s|]; auto.
  unfold gt. rewrite (He s eq_refl), andb_false_r. exact IH.
Qed.

(** The first entry that reaches the maximum is selected. *)
Lemma running_max_first l1 e l2 m bm bs :
  score e = Some m ->
  gt m threshold = true ->
  SFltb bs m = true ->
  Forall (fun x => forall s, score x = Some s ->
            gt s threshold = true -> SFltb s m = true) l1 ->
  Forall (fun x => forall s, score x = Some s -> SFltb m s = false) l2 ->
  running_max threshold score (l1 ++ e :: l2) bm bs = Some (fst e, m).
Proof.
  intros Hm Hthr Hbs H1 H2. revert bm bs Hbs.
  induction H1 as [|x l1 Hx _ IH]; intros bm bs Hbs; simpl.
  - rewrite Hm, Hthr. unfold gt. rewrite Hbs. simpl.
    now apply running_max_stays.
  - destruct (score x) as [s|]; auto.
    destruct (gt s threshold) eqn:Eg; simpl; auto.
    destruct (gt s bs); auto.
Qed.

End RunningMax.

(** ** The matcher of [detect_face_realtime] *)

Lemma minus_one_below_threshold insight dt :
  SFltb (of_Z dt (-1)) (backend_threshold insight dt) = true.
Proof. destruct insight, dt; vm_compute; reflexivity. Qed.

Lemma backend_match_running_max insight dt probe gallery :
  (insight = true -> Forall (same_dimension probe) gallery) ->
  backend_match insight dt probe (Some gallery) =
  Ok (running_max (backend_threshold insight dt)
        (backend_score insight dt probe) gallery None (of_Z dt (-1))).
Proof.
  intros H. destruct insight; simpl;
    unfold match_insightface, match_opencv; destruct gallery as [|e l];
    try reflexivity; unfold truthy, default.
  - now apply scan_insightface_running_max, H.
  - apply scan_opencv_running_max.
Qed.

Lemma Exists_above_dec threshold score (l : list entry) :
  Exists (above threshold score) l \/
  Forall (fun e => ~ above threshold score e) l.
Proof.
  induction l as [|e l [IH|IH]].
  - right. constructor.
  - left. now constructor.
  - destruct (score e) as [s|] eqn:Es.
    + destruct (gt s threshold) eqn:Eg.
      * left. constructor. exists s. auto.
      * right. constructor; auto. intros (s' & Hs' & Hg). congruence.
    + right. constructor; auto. intros (s' & Hs' & Hg). congruence.
Qed.

Lemma running_max_decision threshold score l bs :
  SFltb bs threshold = true ->
  is_Some (running_max threshold score l None bs) <->
  Exists (above threshold score) l.
Proof.
  intros Hbs. split.
  - intros H. destruct (Exists_above_dec threshold score l) as [|Hn]; auto.
    rewrite (running_max_none _ _ _ _ Hn) in H. now destruct H.
  - now apply running_max_some.
Qed.

(** ** The duplicate guard *)


(** ** Claims about the decision *)




(** C6. Ties go to the first entry seen. When [m], the score of [e], is
    above the threshold, no entry of the gallery scores more than [m] and
    no entry before [e] scores [m], the match is [e] with score [m],
    whatever follows [e], entries of score [m] included. *)
Theorem first_seen_tie_break (insight : bool) dt (probe : ndarray)
    (l1 : list entry) (e : entry) (l2 : list entry) (m : spec_float) :
  (insight = true -> Forall (same_dimension probe) (l1 ++ e :: l2)) ->
  backend_score insight dt probe e = Some m ->
  gt m (backend_threshold insight dt) = true ->
  Forall (fun x => forall s,
            backend_score insight dt probe x = Some s -> SFltb m s = false)
    (l1 ++ e :: l2) ->
  Forall (fun x => forall s,
            backend_score insight dt probe x = Some s -> SFeqb s m = false) l1 ->
  backend_match insight dt probe (Some (l1 ++ e :: l2)) = Ok (Some (fst e, m)).
Proof.
  intros Hdim Hm Hthr Hmax Hfirst.
  rewrite backend_match_running_max by assumption. f_equal.
  apply Forall_app in Hmax as [Hmax1 Hmax2].
  apply Forall_cons in Hmax2 as [_ Hmax2].
  apply running_max_first; auto.
  - exact (SFltb_trans _ _ _ (minus_one_below_threshold insight dt) Hthr).
  - rewrite Forall_forall in *. intros x Hx s Hs Hg.
    apply (SFltb_total (backend_threshold insight dt)); eauto.
Qed.

Lemma first_seen_tie_break_witness :
  backend_match true float32 (Examples.probe float32)
    (Some ([] ++ Examples.u1 float32 :: [Examples.u2 float32])) =
  Ok (Some (fst (Examples.u1 float32), of_Z float32 1)).
Proof.
  apply (first_seen_tie_break true float32 (Examples.probe float32)
           [] (Examples.u1 float32) [Examples.u2 float32] (of_Z float32 1)).
  - intros _. repeat constructor.
  - vm_compute. reflexivity.
  - vm_compute. reflexivity.
  - repeat constructor; intros s [= <-]; vm_compute; reflexivity.
  - constructor.
Defined.

(** ** Dimensions *)

Lemma scan_insightface_other_dimension dt probe entries bm bs :
  Exists (fun e => ~ same_dimension probe e) entries ->
  scan_insightface dt probe entries bm bs = Raise ValueError.
Proof.
  intros H. revert bm bs.
  induction entries as [|[[u d] emb] l IH]; intros bm bs.
  - inversion H.
  - simpl. unfold dot.
    destruct (length probe =? length emb)%nat eqn:E; [|reflexivity]. simpl.
    apply Nat.eqb_eq in E.
    assert (Hl : Exists (fun e => ~ same_dimension probe e) l).
    { inversion H as [? ? Hd|]; subst; auto.
      exfalso. apply Hd. unfold same_dimension. simpl. congruence. }
    destruct (gt _ _ && gt _ _); now apply IH.
Qed.

Lemma same_dimension_dec probe (entries : list entry) :
  Forall (same_dimension probe) entries \/
  Exists (fun e => ~ same_dimension probe e) entries.
Proof.
  induction entries as [|e l [IH|IH]].
  - left. constructor.
  - destruct (Nat.eq_dec (length (snd e)) (length probe)) as [Hd|Hd].
    + left. now constructor.
    + right. now constructor.
  - right. now constructor.
Qed.

Lemma scan_insightface_ok dt probe entries bm bs r :
  scan_insightface dt probe entries bm bs = Ok r ->
  Forall (same_dimension probe) entries.
Proof.
  intros H. destruct (same_dimension_dec probe entries) as [|Hn]; auto.
  rewrite (scan_insightface_other_dimension _ _ _ _ _ Hn) in H. discriminate.
Qed.

(** The OpenCV scan passes over an entry of another dimension. *)
Lemma scan_opencv_other_dimension dt probe u d emb rest bm bs :
  length emb <> length probe ->
  scan_opencv dt probe ((u, d, emb) :: rest) bm bs =
  scan_opencv dt probe rest bm bs.
Proof.
  intros H. simpl.
  destruct (length probe =? length emb)%nat eqn:E; auto.
  apply Nat.eqb_eq in E. congruence.
Qed.

(** C3, at a failing input. In InsightFace mode a gallery entry of another
    dimension ([u4], three components against the probe's two) is not
    passed over: the scan raises [ValueError], where the OpenCV scan of the
    same gallery passes over it and matches [u1]. *)
Theorem insightface_scan_raises_on_other_dimension :
  match_insightface float32 (Examples.probe float32)
    (Some [Examples.u1 float32; Examples.u4 float32]) = Raise ValueError /\
  fst (detect_face_realtime Examples.paint Examples.resize Examples.encode
         (Examples.processor true [Examples.f1] []) 1%positive
         (Some [Examples.u1 float32; Examples.u4 float32]) Examples.memory) =
    Raise ValueError /\
  match_opencv float64 (Examples.probe float64)
    (Some [Examples.u1 float64; Examples.u4 float64]) =
  Ok (Some ("u1"%string, Examples.alice, of_Z float64 1)).
Proof. repeat split; vm_compute; reflexivity. Qed.

(** ** The score that is reported *)

Lemma backend_match_sound insight dt probe gallery u d s :
  backend_match insight dt probe (Some gallery) = Ok (Some (u, d, s)) ->
  exists emb,
    (u, d, emb) ∈ gallery /\
    backend_score insight dt probe (u, d, emb) = Some s /\
    gt s (backend_threshold insight dt) = true.
Proof.
  intros H.
  assert (Hdim : insight = true -> Forall (same_dimension probe) gallery).
  { intros ->. simpl in H. unfold match_insightface in H.
    destruct gallery; [constructor|]. simpl in H.
    eapply scan_insightface_ok, H. }
  rewrite backend_match_running_max in H by assumption.
  injection H as H. apply running_max_sound in H.
  destruct H as [H|([[u' d'] emb] & Hin & Hfst & Hs & Hg)]; [discriminate|].
  simpl in Hfst. injection Hfst as -> ->. eauto.
Qed.

Lemma check_face_exists_loop_sound dt probe thr users info :
  Database.check_face_exists_loop dt probe thr users = Ok (true, Some info) ->
  exists user a,
    user ∈ users /\
    Database.face_embedding user = Some (Database.Pickled a) /\
    length a = length probe /\
    Database.ui_id info = Database._id user /\
    Database.name user = Some (Database.ui_name info) /\
    Database.ui_similarity info = cosine_similarity dt a probe /\
    gt (cosine_similarity dt a probe) thr = true.
Proof.
  induction users as [|u l IH]; simpl; [discriminate|].
  assert (Hrest :
    Database.check_face_exists_loop dt probe thr l = Ok (true, Some info) ->
    exists user a,
      user ∈ u :: l /\
      Database.face_embedding user = Some (Database.Pickled a) /\
      length a = length probe /\
      Database.ui_id info = Database._id user /\
      Database.name user = Some (Database.ui_name info) /\
      Database.ui_similarity info = cosine_similarity dt a probe /\
      gt (cosine_similarity dt a probe) thr = true).
  { intros H. destruct (IH H) as (user & a & Hin & Hrest).
    exists user, a. split; [now constructor|exact Hrest]. }
  destruct (Database.face_embedding u) as [[a|]|] eqn:Ef; simpl;
    try discriminate; auto.
  unfold dot. destruct (length a =? length probe)%nat eqn:El; simpl;
    [|discriminate].
  apply Nat.eqb_eq in El.
  rewrite dot_acc_fold, !norm_euclidean.
  fold (dot_product dt a probe). fold (cosine_similarity dt a probe).
  destruct (gt (cosine_similarity dt a probe) thr) eqn:Eg; auto.
  destruct (Database.name u) as [n|] eqn:En; simpl; [|discriminate].
  intros [= <-]. exists u, a. simpl. repeat split; auto. constructor.
Qed.

Lemma check_face_exists_true db dt probe thr info :
  Database.check_face_exists db dt probe thr = (true, Some info) ->
  exists users,
    Database.users_collection_find db = Ok users /\
    Database.check_face_exists_loop dt probe thr users = Ok (true, Some info).
Proof.
  unfold Database.check_face_exists, Database.check_face_exists_try.
  destruct (Database.users_collection_find db) as [users|]; simpl;
    [|discriminate].
  destruct (Database.check_face_exists_loop dt probe thr users) as [r|] eqn:E;
    [|discriminate].
  intros ->. exists users. split; [reflexivity|exact E].
Qed.





(** ** Vectors of zero norm *)

Lemma fmul_zero dt x y :
  is_zero x = true \/ is_zero y = true -> zero_or_nan (fmul dt x y) = true.
Proof. destruct x, y; simpl; intros [H|H]; try discriminate; reflexivity. Qed.

Lemma fmul_zero_zero dt x y :
  is_zero x = true -> is_zero y = true -> is_zero (fmul dt x y) = true.
Proof. destruct x, y; simpl; try discriminate; reflexivity. Qed.

Lemma fadd_zero_or_nan dt x y :
  zero_or_nan x = true -> zero_or_nan y = true ->
  zero_or_nan (fadd dt x y) = true.
Proof.
  destruct x as [[]| | |], y as [[]| | |]; simpl; try discriminate; reflexivity.
Qed.

Lemma fadd_zero_zero dt x y :
  is_zero x = true -> is_zero y = true -> is_zero (fadd dt x y) = true.
Proof.
  destruct x as [[]| | |], y as [[]| | |]; simpl; try discriminate; reflexivity.
Qed.

Lemma fsqrt_zero dt x : is_zero x = true -> is_zero (fsqrt dt x) = true.
Proof. destruct x; simpl; try discriminate; reflexivity. Qed.

Lemma fdiv_zero_or_nan dt x y :
  zero_or_nan x = true -> zero_or_nan y = true -> fdiv dt x y = S754_nan.
Proof. destruct x, y; simpl; try discriminate; reflexivity. Qed.

Lemma dot_acc_zero_vector dt acc a b :
  zero_or_nan acc = true -> zero_vector a \/ zero_vector b ->
  zero_or_nan (dot_acc dt acc a b) = true.
Proof.
  unfold zero_vector. revert acc b.
  induction a as [|x a IH]; intros acc [|y b] Hacc H; simpl; auto.
  apply IH.
  - apply fadd_zero_or_nan; auto. apply fmul_zero.
    simpl in H. rewrite !andb_true_iff in H. tauto.
  - simpl in H. rewrite !andb_true_iff in H. tauto.
Qed.

Lemma dot_acc_zero_square dt acc a :
  is_zero acc = true -> zero_vector a -> is_zero (dot_acc dt acc a a) = true.
Proof.
  unfold zero_vector. revert acc.
  induction a as [|x a IH]; intros acc Hacc H; simpl; auto.
  simpl in H. apply andb_true_iff in H as [Hx Ha].
  apply IH; auto. apply fadd_zero_zero; auto. now apply fmul_zero_zero.
Qed.

Lemma norm_zero_vector dt a : zero_vector a -> is_zero (norm dt a) = true.
Proof.
  intros H. unfold norm. apply fsqrt_zero. now apply dot_acc_zero_square.
Qed.

Lemma cosine_zero_vector dt a b :
  zero_vector a \/ zero_vector b -> cosine_similarity dt a b = S754_nan.
Proof.
  intros H. unfold cosine_similarity. rewrite <- !norm_euclidean.
  unfold dot_product. rewrite <- dot_acc_fold.
  apply fdiv_zero_or_nan.
  - now apply dot_acc_zero_vector.
  - apply fmul_zero. destruct H; [left|right]; now apply norm_zero_vector.
Qed.



(** Outside the claim: a vector that is not zero but whose squares
    underflow, here [[2^-600]], has a computed norm of zero too; against the
    probe [[1]] its score is [+inf], and it is matched. *)
Example underflowing_norm_scores_infinity :
  norm float64 [Examples.tiny] = S754_zero false /\
  match_insightface float64 [of_Z float64 1]
    (Some [("u6"%string, Examples.bob, [Examples.tiny])]) =
  Ok (Some ("u6"%string, Examples.bob, S754_infinity false)).
Proof. split; vm_compute; reflexivity. Qed.

(** A zero probe matches nothing. *)
Lemma zero_probe_unrecognized dt probe gallery :
  zero_vector probe ->
  Forall (same_dimension probe) gallery ->
  match_insightface dt probe (Some gallery) = Ok None.
Proof.
  intros Hz Hdim. change match_insightface with (backend_match true).
  rewrite backend_match_running_max by auto.
  f_equal. apply running_max_none. apply Forall_forall.
  intros e _ (s & Hs & Hg). simpl in Hs. unfold cosine_score in Hs.
  rewrite cosine_zero_vector in Hs by tauto. injection Hs as <-.
  unfold gt in Hg. rewrite SFltb_nan_r in Hg. discriminate.
Qed.

(** ** Exceptions in the duplicate guard *)

(** C10. Whatever exception the body of the [try] raises, from the query,
    from unpickling a stored embedding, from [np.dot] on another dimension
    or from a missing key, [check_face_exists] answers [(False, None)]. *)
Theorem guard_swallows_exceptions (db : Database.t) dt (probe : ndarray)
    (thr : spec_float) (e : exn) :
  Database.check_face_exists_try db dt probe thr = Raise e ->
  Database.check_face_exists db dt probe thr = (false, None).
Proof. unfold Database.check_face_exists. now intros ->. Qed.

(** The body raises at a stored embedding that does not unpickle or has
    another dimension, when no document before it is a duplicate. *)
Lemma check_face_exists_loop_raises dt probe thr l1 u l2 :
  Forall (scannable probe) l1 ->
  Forall (fun x => ~ duplicate_of dt probe thr x) l1 ->
  ~ scannable probe u ->
  (forall a, Database.face_embedding u = Some (Database.Pickled a) ->
             length a <> length probe) ->
  exists e, Database.check_face_exists_loop dt probe thr (l1 ++ u :: l2) = Raise e.
Proof.
  intros Hs Hn Hu Hlen. induction Hs as [|x l Hx _ IH]; simpl.
  - unfold scannable in Hu.
    destruct (Database.face_embedding u) as [[a|]|]; simpl.
    + rewrite dot_other_length by auto. simpl. eauto.
    + eauto.
    + tauto.
  - apply Forall_cons in Hn as [Hnx Hn]. specialize (IH Hn).
    unfold scannable in Hx.
    destruct (Database.face_embedding x) as [[a|]|] eqn:Ef; simpl;
      try contradiction; auto.
    destruct Hx as [Hl _]. rewrite dot_same_length by assumption. simpl.
    rewrite !norm_euclidean. fold (cosine_similarity dt a probe).
    destruct (gt (cosine_similarity dt a probe) thr) eqn:Eg; auto.
    exfalso. apply Hnx. exists a. auto.
Qed.

Lemma guard_swallows_exceptions_witness :
  Database.check_face_exists
    (Examples.db [Examples.corrupt; Examples.doc (Examples.u1 float32)])
    float32 (Examples.probe float32)
    (Registration.similarity_threshold float32) = (false, None).
Proof.
  apply (guard_swallows_exceptions _ _ _ _ UnpicklingError).
  reflexivity.
Defined.


(** ** The two thresholds *)

Lemma fmul_comm dt x y : fmul dt x y = fmul dt y x.
Proof.
  destruct x as [sx|sx| |sx mx ex], y as [sy|sy| |sy my ey]; simpl;
    try reflexivity; try (now rewrite xorb_comm).
  unfold fmul, SFmul. now rewrite xorb_comm, Pos.mul_comm, Z.add_comm.
Qed.

Lemma dot_acc_comm dt acc a b : dot_acc dt acc a b = dot_acc dt acc b a.
Proof.
  revert acc b. induction a as [|x a IH]; intros acc [|y b]; simpl; auto.
  now rewrite fmul_comm, IH.
Qed.

Lemma cosine_similarity_sym dt a b :
  cosine_similarity dt a b = cosine_similarity dt b a.
Proof.
  unfold cosine_similarity, dot_product. rewrite <- !dot_acc_fold.
  now rewrite dot_acc_comm, fmul_comm.
Qed.

Lemma get_all_embeddings_loop_complete users acc gallery :
  Database.get_all_embeddings_loop users acc = Ok gallery ->
  (forall e, e ∈ acc -> e ∈ gallery) /\
  (forall user a,
     user ∈ users ->
     Database.face_embedding user = Some (Database.Pickled a) ->
     exists u d, (u, d, a) ∈ gallery).
Proof.
  revert acc. induction users as [|x l IH]; intros acc; simpl.
  - intros [= <-]. split; auto. intros user a H. inversion H.
  - destruct (Database.face_embedding x) as [[b|]|] eqn:Ef; simpl;
      try discriminate.
    + destruct (Database.name x); simpl; try discriminate.
      destruct (Database.id_card_number x); simpl; try discriminate.
      destruct (Database.nationality x); simpl; try discriminate.
      destruct (Database.profession x); simpl; try discriminate.
      intros H. apply IH in H as [Hacc Hl]. split.
      * intros e He. apply Hacc. apply elem_of_app. now left.
      * intros user a Hin Ha. apply elem_of_cons in Hin as [->|Hin]; eauto.
        rewrite Ef in Ha. injection Ha as <-. do 2 eexists.
        apply Hacc. apply elem_of_app. right. constructor.
    + intros H. apply IH in H as [Hacc Hl]. split; auto.
      intros user a Hin Ha. apply elem_of_cons in Hin as [->|Hin]; eauto.
      congruence.
Qed.

(** C2, as the code has it. The duplicate-guard threshold (0.6) is greater
    than the InsightFace recognition threshold (0.5) and less than the
    OpenCV one (0.8). So every score above the guard threshold is above the
    InsightFace recognition threshold, and a probe the guard reports as a
    duplicate is recognized by the InsightFace matcher on the gallery of the
    same documents, when the stored embeddings have the probe's
    dimension. *)
Theorem guard_threshold_above_recognition dt :
  SFltb (threshold_insightface dt) (Registration.similarity_threshold dt) = true /\
  SFltb (Registration.similarity_threshold dt) (threshold_opencv dt) = true /\
  (forall s, gt s (Registration.similarity_threshold dt) = true ->
             gt s (threshold_insightface dt) = true) /\
  (forall (db : Database.t) (probe : ndarray) (gallery : list entry)
          (info : Database.user_info),
     Database.get_all_embeddings db = Ok gallery ->
     Forall (same_dimension probe) gallery ->
     Registration.check_duplicate db dt probe = (true, Some info) ->
     exists b, match_insightface dt probe (Some gallery) = Ok (Some b)).
Proof.
  assert (H56 : SFltb (threshold_insightface dt)
                  (Registration.similarity_threshold dt) = true)
    by (destruct dt; vm_compute; reflexivity).
  assert (Hgt : forall s, gt s (Registration.similarity_threshold dt) = true ->
                          gt s (threshold_insightface dt) = true)
    by (intros s Hs; exact (SFltb_trans _ _ _ H56 Hs)).
  repeat split; auto.
  - destruct dt; vm_compute; reflexivity.
  - intros db probe gallery info Hg Hdim Hdup.
    unfold Registration.check_duplicate in Hdup.
    destruct (check_face_exists_true _ _ _ _ _ Hdup) as (users & Hf & Hl).
    destruct (check_face_exists_loop_sound _ _ _ _ _ Hl)
      as (user & a & Hin & Hfe & _ & _ & _ & _ & Habove).
    unfold Database.get_all_embeddings in Hg. rewrite Hf in Hg. simpl in Hg.
    destruct (get_all_embeddings_loop_complete _ _ _ Hg) as [_ Hall].
    destruct (Hall user a Hin Hfe) as (u & d & He).
    assert (Hs : is_Some (running_max (backend_threshold true dt)
                            (backend_score true dt probe) gallery None
                            (of_Z dt (-1)))).
    { apply running_max_decision.
      - apply minus_one_below_threshold.
      - apply Exists_exists. exists (u, d, a). split.
        + exact He.
        + exists (cosine_similarity dt probe a). split; [reflexivity|].
          rewrite cosine_similarity_sym. now apply Hgt. }
    destruct Hs as [b Hb]. exists b.
    change match_insightface with (backend_match true).
    rewrite backend_match_running_max by auto. now rewrite Hb.
Qed.

Lemma guard_threshold_above_recognition_witness :
  exists b,
    match_insightface float32 (Examples.probe float32)
      (Some [Examples.u1 float32]) = Ok (Some b).
Proof.
  apply (proj2 (proj2 (proj2 (guard_threshold_above_recognition float32)))
           (Examples.db [Examples.doc (Examples.u1 float32)])
           (Examples.probe float32) [Examples.u1 float32]
           {| Database.ui_id := "u1"; Database.ui_name := "Alice";
              Database.ui_similarity := of_Z float32 1 |}).
  - reflexivity.
  - repeat constructor.
  - vm_compute. reflexivity.
Defined.

(** C2 as stated fails: the guard threshold is not less than or equal to the
    InsightFace recognition threshold, in either dtype. *)
Lemma guard_threshold_not_below_recognition :
  SFleb (Registration.similarity_threshold float32)
        (threshold_insightface float32) = false /\
  SFleb (Registration.similarity_threshold float64)
        (threshold_insightface float64) = false.
Proof. split; vm_compute; reflexivity. Qed.


(** ** The largest detection *)


Section SortedHead.
Context {A K : Type} (key : A -> K) (lt : K -> K -> bool) (valid : K -> Prop).
Hypothesis lt_trans :
  forall x y z, lt x y = true -> lt y z = true -> lt x z = true.
Hypothesis lt_neg_trans :
  forall x b y, valid b -> lt x y = true -> lt x b = true \/ lt b y = true.



End SortedHead.






(** On these detections (areas 1, 4, 4) the second one is returned. *)
Example equal_areas_keep_detection_order :
  get_face_embedding Examples.resize
    (Examples.processor true [Examples.f3; Examples.f1; Examples.f2] [])
    Examples.frame =
  Ok (Some (embedding Examples.f1), Some Examples.frame, true,
      "Face detected successfully"%string) /\
  get_face_embedding Examples.resize
    (Examples.processor false [] [(0, 0, 1, 1); (0, 0, 2, 1); (1, 0, 1, 2)])
    Examples.frame =
  Ok (Some (flatten_div255 [[(0, 0, 0); (10, 10, 10)]]),
      Some [[(0, 0, 0); (10, 10, 10)]], true,
      "Face detected (using OpenCV fallback)"%string).
Proof. split; vm_compute; reflexivity. Qed.


(** ** The frame *)

Lemma marker_of_match bbox m face_crop jpeg_base64 :
  marker_color (make_face_data jpeg_base64 bbox m face_crop) = color_of m.
Proof. destruct m as [[[u d] s]|]; reflexivity. Qed.

(** The loops write to [display_image] only, and what they leave there is
    the markers of the outcomes they appended. *)
Lemma loop_insightface_frame cv2_rectangle jpeg_base64 image display
    stored faces matches (h : heap) shown :
  h !! display = Some shown ->
  exists shown',
    snd (loop_insightface cv2_rectangle jpeg_base64 image display stored
           faces matches h) = <[display := shown']> h /\
    forall ms,
      fst (loop_insightface cv2_rectangle jpeg_base64 image display stored
             faces matches h) = Ok ms ->
      exists new,
        ms = matches ++ new /\
        shown' = draw_markers cv2_rectangle true shown new.
Proof.
  revert matches h shown.
  induction faces as [|face rest IH]; intros matches h shown Hd; simpl.
  - exists shown. split; [now rewrite insert_id|].
    intros ms [= <-]. exists []. split; [now rewrite app_nil_r|reflexivity].
  - destruct (bbox_astype_int face) as [[[b0 b1] b2] b3].
    destruct (match_insightface float32 (embedding face) stored) as [m|e].
    + rewrite (lookup_total_correct _ _ _ Hd).
      match goal with
      | |- context [loop_insightface _ _ _ _ _ rest ?ms ?h1] =>
          destruct (IH ms h1 _ (lookup_insert_eq _ _ _)) as (shown' & Hh & Hms)
      end.
      exists shown'. split; [now rewrite Hh, insert_insert_eq|].
      intros ms Hok. destruct (Hms ms Hok) as (new & -> & ->).
      eexists (_ :: new). split; [now rewrite <- app_assoc|].
      simpl. now rewrite marker_of_match.
    + exists shown. split; [now rewrite insert_id|]. discriminate.
Qed.

Lemma loop_opencv_frame cv2_rectangle cv2_resize jpeg_base64 image display
    stored faces matches (h : heap) shown :
  h !! display = Some shown ->
  exists shown',
    snd (loop_opencv cv2_rectangle cv2_resize jpeg_base64 image display
           stored faces matches h) = <[display := shown']> h /\
    forall ms,
      fst (loop_opencv cv2_rectangle cv2_resize jpeg_base64 image display
             stored faces matches h) = Ok ms ->
      exists new,
        ms = matches ++ new /\
        shown' = draw_markers cv2_rectangle false shown new.
Proof.
  revert matches h shown.
  induction faces as [|[[[x y] w] h'] rest IH]; intros matches h shown Hd;
    simpl.
  - exists shown. split; [now rewrite insert_id|].
    intros ms [= <-]. exists []. split; [now rewrite app_nil_r|reflexivity].
  - destruct (match_opencv float64 _ stored) as [m|e].
    + rewrite (lookup_total_correct _ _ _ Hd).
      match goal with
      | |- context [loop_opencv _ _ _ _ _ _ rest ?ms ?h1] =>
          destruct (IH ms h1 _ (lookup_insert_eq _ _ _)) as (shown' & Hh & Hms)
      end.
      exists shown'. split; [now rewrite Hh, insert_insert_eq|].
      intros ms Hok. destruct (Hms ms Hok) as (new & -> & ->).
      eexists (_ :: new). split; [now rewrite <- app_assoc|].
      simpl. now rewrite marker_of_match.
    + exists shown. split; [now rewrite insert_id|]. discriminate.
Qed.

Lemma copy_fresh (image : loc) (h : heap) (img : Image.image) :
  h !! image = Some img ->
  copy image h = (fresh (dom h), <[fresh (dom h) := img]> h) /\
  (fresh (dom h) ∉ dom h) /\ image <> fresh (dom h).
Proof.
  intros H. unfold copy. rewrite (lookup_total_correct _ _ _ H).
  split; [reflexivity|]. split; [apply is_fresh|].
  intros ->. apply (is_fresh (dom h)). apply elem_of_dom. eauto.
Qed.

(** C8. [detect_face_realtime] draws on a copy. The caller's array, like
    every array that existed before the call, is as it was; the array
    returned is a new one and holds the caller's frame with one marker per
    outcome, green for a recognized face and red, a different colour, for
    an unrecognized one. *)
Theorem original_frame_unmodified
    (cv2_rectangle : image -> Z * Z -> Z * Z -> pixel -> Z -> image)
    (cv2_resize : image -> Z * Z -> image) (jpeg_base64 : image -> string)
    (self : FaceProcessor.t) (image : loc) (stored : option (list entry))
    (h : heap) (img : Image.image) (r : result (loc * list face_data))
    (h' : heap) :
  h !! image = Some img ->
  detect_face_realtime cv2_rectangle cv2_resize jpeg_base64 self image stored h
    = (r, h') ->
  h' !! image = Some img /\
  (forall l, l ∈ dom h -> h' !! l = h !! l) /\
  green <> red /\
  forall display matches,
    r = Ok (display, matches) ->
    (display ∉ dom h) /\
    h' !! display =
      Some (draw_markers cv2_rectangle (use_insightface self) img matches).
Proof.
  intros Himg Hrun. unfold detect_face_realtime in Hrun.
  destruct (copy_fresh image h img Himg) as (Hcopy & Hfresh & Hne).
  rewrite Hcopy in Hrun. set (display := fresh (dom h)) in *.
  assert (Hd : (<[display := img]> h : heap) !! display = Some img)
    by apply lookup_insert_eq.
  assert (Hinv : exists shown',
            h' = <[display := shown']> h /\
            forall ms, r = Ok (display, ms) ->
              shown' = draw_markers cv2_rectangle (use_insightface self) img ms).
  { destruct (use_insightface self).
    - match type of Hrun with
      | context [loop_insightface _ _ _ _ _ ?fs ?ms ?h0] =>
          destruct (loop_insightface_frame cv2_rectangle jpeg_base64 image
                      display stored fs ms h0 img Hd) as (shown' & Hh & Hms);
          destruct (loop_insightface cv2_rectangle jpeg_base64 image display
                      stored fs ms h0) as [r0 h1]
      end.
      simpl in Hh, Hms. injection Hrun as <- <-.
      exists shown'. split; [now rewrite Hh, insert_insert_eq|].
      intros ms Hok. destruct r0 as [ms0|]; [|discriminate].
      simpl in Hok. injection Hok as <-.
      destruct (Hms ms0 eq_refl) as (new & -> & ->). reflexivity.
    - match type of Hrun with
      | context [loop_opencv _ _ _ _ _ _ ?fs ?ms ?h0] =>
          destruct (loop_opencv_frame cv2_rectangle cv2_resize jpeg_base64
                      image display stored fs ms h0 img Hd)
            as (shown' & Hh & Hms);
          destruct (loop_opencv cv2_rectangle cv2_resize jpeg_base64 image
                      display stored fs ms h0) as [r0 h1]
      end.
      simpl in Hh, Hms. injection Hrun as <- <-.
      exists shown'. split; [now rewrite Hh, insert_insert_eq|].
      intros ms Hok. destruct r0 as [ms0|]; [|discriminate].
      simpl in Hok. injection Hok as <-.
      destruct (Hms ms0 eq_refl) as (new & -> & ->). reflexivity. }
  destruct Hinv as (shown' & -> & Hshown).
  split; [now rewrite lookup_insert_ne|].
  split.
  { intros l Hl. rewrite lookup_insert_ne; [reflexivity|].
    intros <-. now apply Hfresh. }
  split; [discriminate|].
  intros d ms Hr.
  assert (d = display) as ->.
  { subst r. clear -Hrun. destruct (use_insightface self).
    - destruct (loop_insightface _ _ _ _ _ _ _ _) as [[?|?] ?];
        simpl in Hrun; congruence.
    - destruct (loop_opencv _ _ _ _ _ _ _ _ _) as [[?|?] ?];
        simpl in Hrun; congruence. }
  split; [exact Hfresh|].
  rewrite lookup_insert_eq. f_equal. now apply Hshown.
Qed.

Lemma original_frame_unmodified_witness :
  snd Examples.run !! 1%positive = Some Examples.frame /\
  (forall l, l ∈ dom Examples.memory ->
             snd Examples.run !! l = Examples.memory !! l) /\
  green <> red /\
  forall display matches,
    fst Examples.run = Ok (display, matches) ->
    (display ∉ dom Examples.memory) /\
    snd Examples.run !! display =
      Some (draw_markers Examples.paint true Examples.frame matches).
Proof.
  apply (original_frame_unmodified Examples.paint Examples.resize
           Examples.encode
           (Examples.processor true [Examples.f1; Examples.f2] [])
           1%positive (Some [Examples.u1 float32])
           Examples.memory Examples.frame
           (fst Examples.run) (snd Examples.run)).
  - reflexivity.
  - vm_compute. reflexivity.
Defined.

(** On that run the first face is recognized and the second is not: the
    copy carries a green and a red marker, the frame none. *)
Example markers_of_a_run :
  snd Examples.run !! 1%positive = Some Examples.frame /\
  snd Examples.run !! 2%positive =
    Some [[green; (10, 10, 10)]; [(20, 20, 20); red]] /\
  (exists m1 m2,
     fst Examples.run = Ok (2%positive, [m1; m2]) /\
     fd_recognized m1 = true /\ fd_user_id m1 = Some "u1"%string /\
     fd_recognized m2 = false).
Proof.
  split; [vm_compute; reflexivity|]. split; [vm_compute; reflexivity|].
  do 2 eexists. split; [vm_compute; reflexivity|]. repeat split.
Qed.

(** C9. When the active backend detects no face in the frame,
    [get_face_embedding] answers the explicit
    [(None, None, False, "No face detected in the image")] and raises
    nothing, and [detect_face_realtime] answers an empty list of outcomes
    with a new array that holds the frame as it is, the heap being otherwise
    unchanged. *)
Theorem no_face_detected
    (cv2_rectangle : image -> Z * Z -> Z * Z -> pixel -> Z -> image)
    (cv2_resize : image -> Z * Z -> image) (jpeg_base64 : image -> string)
    (self : FaceProcessor.t) (image : loc) (stored : option (list entry))
    (h : heap) (img : Image.image) :
  h !! image = Some img ->
  detected self img = 0%nat ->
  get_face_embedding cv2_resize self img =
    Ok (None, None, false, "No face detected in the image"%string) /\
  exists display,
    (display ∉ dom h) /\
    detect_face_realtime cv2_rectangle cv2_resize jpeg_base64 self image
      stored h = (Ok (display, []), <[display := img]> h).
Proof.
  intros Himg Hnone. unfold detected in Hnone. split.
  - unfold get_face_embedding. destruct (use_insightface self);
      now rewrite Hnone.
  - destruct (copy_fresh image h img Himg) as (Hcopy & Hfresh & Hne).
    exists (fresh (dom h)). split; [exact Hfresh|].
    unfold detect_face_realtime. rewrite Hcopy.
    rewrite lookup_total_insert_ne by auto.
    rewrite (lookup_total_correct _ _ _ Himg).
    destruct (use_insightface self).
    + apply length_zero_iff_nil in Hnone. now rewrite Hnone.
    + apply length_zero_iff_nil in Hnone. now rewrite Hnone.
Qed.

Lemma no_face_detected_witness :
  get_face_embedding Examples.resize (Examples.processor false [] [])
    Examples.frame =
    Ok (None, None, false, "No face detected in the image"%string) /\
  exists display,
    (display ∉ dom Examples.memory) /\
    detect_face_realtime Examples.paint Examples.resize Examples.encode
      (Examples.processor false [] []) 1%positive
      (Some [Examples.u1 float64]) Examples.memory =
    (Ok (display, []), <[display := Examples.frame]> Examples.memory).
Proof.
  apply (no_face_detected Examples.paint Examples.resize Examples.encode
           (Examples.processor false [] []) 1%positive
           (Some [Examples.u1 float64]) Examples.memory Examples.frame).
  - reflexivity.
  - reflexivity.
Defined.

(** * Further properties of the code *)

(** ** [get_face_embedding] *)

Lemma insert_desc_cons {A K} (key : A -> K) lt (x : A) (l : list A) :
  insert_desc key lt x l <> [].
Proof. destruct l as [|y l]; simpl; [|destruct (lt _ _)]; discriminate. Qed.

Lemma sorted_reverse_nil {A K} (key : A -> K) lt (l : list A) :
  sorted_reverse key lt l = [] -> l = [].
Proof.
  destruct l as [|x l]; auto. simpl. intros H.
  now apply insert_desc_cons in H.
Qed.



(** ** The best match *)

Lemma running_max_maximal threshold score l bm bs ud s :
  consistent threshold bm bs ->
  running_max threshold score l bm bs = Some (ud, s) ->
  gt s threshold = true /\
  (bs = s \/ SFltb bs s = true) /\
  forall e s', e ∈ l -> score e = Some s' -> SFltb s s' = false.
Proof.
  revert bm bs. induction l as [|e l IH]; intros bm bs Hc; simpl.
  - intros ->. destruct Hc as [-> Hg]. repeat split; auto.
    intros e s' H. inversion H.
  - assert (Hkeep :
      forall s1, score e = Some s1 ->
        gt s1 threshold && gt s1 bs = false ->
        running_max threshold score l bm bs = Some (ud, s) ->
        gt s threshold = true /\
        (bs = s \/ SFltb bs s = true) /\
        forall e' s', e' ∈ e :: l -> score e' = Some s' -> SFltb s s' = false).
    { intros s1 Hs1 Hno H. destruct (IH _ _ Hc H) as (Hg & Hle & Hall).
      repeat split; auto. intros e' s' Hin Hs'.
      apply elem_of_cons in Hin as [->|Hin]; [|eauto].
      rewrite Hs1 in Hs'. injection Hs' as <-.
      destruct (SFltb s s1) eqn:Ess; auto. exfalso.
      apply andb_false_iff in Hno as [Hno|Hno]; unfold gt in *.
      - rewrite (SFltb_trans _ _ _ Hg Ess) in Hno. discriminate.
      - destruct Hle as [->|Hle]; [congruence|].
        rewrite (SFltb_trans _ _ _ Hle Ess) in Hno. discriminate. }
    destruct (score e) as [s1|] eqn:Es.
    + destruct (gt s1 threshold && gt s1 bs) eqn:E;
        [|exact (Hkeep s1 eq_refl E)].
      apply andb_true_iff in E as [E1 E2]. intros H.
      destruct (IH (Some (fst e, s1)) s1 (conj eq_refl E1) H)
        as (Hg & Hle & Hall).
      repeat split; auto.
      * right. unfold gt in E2. destruct Hle as [<-|Hle]; auto.
        exact (SFltb_trans _ _ _ E2 Hle).
      * intros e' s' Hin Hs'.
        apply elem_of_cons in Hin as [->|Hin]; [|eauto].
        rewrite Es in Hs'. injection Hs' as <-.
        destruct Hle as [<-|Hle]; [apply SFltb_irrefl|now apply SFltb_asym].
    + intros H. destruct (IH _ _ Hc H) as (Hg & Hle & Hall).
      repeat split; auto. intros e' s' Hin Hs'.
      apply elem_of_cons in Hin as [->|Hin]; [congruence|eauto].
Qed.

Lemma backend_match_dimensions insight dt probe gallery r :
  backend_match insight dt probe (Some gallery) = Ok r ->
  insight = true -> Forall (same_dimension probe) gallery.
Proof.
  intros H ->. simpl in H. unfold match_insightface in H.
  destruct gallery; [constructor|]. simpl in H.
  eapply scan_insightface_ok, H.
Qed.

(** X2. The match is a best one: no entry of the gallery has a score that
    the comparison of the code finds greater than the score reported, in
    either backend. *)
Theorem best_match_is_maximal (insight : bool) dt (probe : ndarray)
    (gallery : list entry) (u : string) (d : user_data) (s : spec_float) :
  backend_match insight dt probe (Some gallery) = Ok (Some (u, d, s)) ->
  forall e s',
    e ∈ gallery -> backend_score insight dt probe e = Some s' ->
    SFltb s s' = false.
Proof.
  intros H.
  rewrite backend_match_running_max in H
    by (eapply backend_match_dimensions, H).
  injection H as H.
  apply running_max_maximal in H; [tauto|].
  apply minus_one_below_threshold.
Qed.

Lemma best_match_is_maximal_witness :
  SFltb (of_Z float32 1)
    (cosine_similarity float32 (Examples.probe float32)
       (snd (Cases.u7 float32))) = false.
Proof.
  apply (best_match_is_maximal true float32 (Examples.probe float32)
           [Cases.u7 float32; Examples.u1 float32]
           "u1"%string Examples.alice (of_Z float32 1)) with (e := Cases.u7 float32).
  - vm_compute. reflexivity.
  - constructor.
  - reflexivity.
Defined.

(** ** The duplicate guard and the gallery *)

(** X3. The duplicate guard reports the first stored document above the
    threshold, in the order of the collection, with its id, its name and
    its score; the documents after it are not looked at, whatever their
    scores. *)
Theorem guard_reports_first_duplicate (db : Database.t) dt (probe : ndarray)
    (thr : spec_float) (l1 : list Database.user) (u : Database.user)
    (l2 : list Database.user) (a : ndarray) (n : string) :
  Database.users_collection_find db = Ok (l1 ++ u :: l2) ->
  Forall (scannable probe) l1 ->
  Forall (fun x => ~ duplicate_of dt probe thr x) l1 ->
  Database.face_embedding u = Some (Database.Pickled a) ->
  length a = length probe ->
  gt (cosine_similarity dt a probe) thr = true ->
  Database.name u = Some n ->
  Database.check_face_exists db dt probe thr =
  (true, Some {| Database.ui_id := Database._id u; Database.ui_name := n;
                 Database.ui_similarity := cosine_similarity dt a probe |}).
Proof.
  intros Hf Hs Hn Hfe Hlen Hg Hname.
  unfold Database.check_face_exists, Database.check_face_exists_try.
  rewrite Hf. simpl. clear Hf. revert Hn.
  induction Hs as [|x l Hx _ IH]; intros Hn; simpl.
  - rewrite Hfe. simpl. rewrite dot_same_length by assumption. simpl.
    rewrite !norm_euclidean. fold (cosine_similarity dt a probe).
    rewrite Hg, Hname. reflexivity.
  - apply Forall_cons in Hn as [Hnx Hn]. specialize (IH Hn).
    unfold scannable in Hx.
    destruct (Database.face_embedding x) as [[b|]|] eqn:Ef; simpl;
      try contradiction; auto.
    destruct Hx as [Hl _]. rewrite dot_same_length by assumption. simpl.
    rewrite !norm_euclidean. fold (cosine_similarity dt b probe).
    destruct (gt (cosine_similarity dt b probe) thr) eqn:Eg; auto.
    exfalso. apply Hnx. exists b. auto.
Qed.

Lemma guard_reports_first_duplicate_witness :
  Database.check_face_exists
    (Examples.db [Cases.no_embedding; Examples.doc (Cases.u7 float32);
                  Examples.doc (Examples.u1 float32)])
    float32 (Examples.probe float32)
    (Registration.similarity_threshold float32) =
  (true, Some {| Database.ui_id := "u7"; Database.ui_name := "Bob";
                 Database.ui_similarity :=
                   cosine_similarity float32 (snd (Cases.u7 float32))
                     (Examples.probe float32) |}).
Proof.
  apply (guard_reports_first_duplicate _ float32 (Examples.probe float32) _
           [Cases.no_embedding] (Examples.doc (Cases.u7 float32))
           [Examples.doc (Examples.u1 float32)] (snd (Cases.u7 float32))
           "Bob"%string).
  - reflexivity.
  - repeat constructor.
  - repeat constructor. intros (a & Ha & _). discriminate.
  - reflexivity.
  - reflexivity.
  - vm_compute. reflexivity.
  - reflexivity.
Defined.

Lemma omap_cons_eq {A B} (f : A -> option B) (x : A) (l : list A) :
  omap f (x :: l) =
  match f x with Some y => y :: omap f l | None => omap f l end.
Proof. reflexivity. Qed.

Lemma get_all_embeddings_loop_loadable users acc :
  Forall loadable users ->
  Database.get_all_embeddings_loop users acc = Ok (acc ++ omap entry_of users).
Proof.
  intros H. revert acc. induction H as [|u l Hu _ IH]; intros acc.
  - simpl. now rewrite app_nil_r.
  - rewrite omap_cons_eq. cbn [Database.get_all_embeddings_loop].
    destruct Hu as [Hu|[e Hu]].
    + assert (He : entry_of u = None) by (unfold entry_of; now rewrite Hu).
      rewrite He, Hu. apply IH.
    + rewrite Hu. unfold entry_of in Hu.
      destruct (Database.face_embedding u) as [[a|]|]; try discriminate.
      destruct (Database.name u), (Database.id_card_number u),
               (Database.nationality u), (Database.profession u);
        try discriminate.
      injection Hu as <-. simpl. rewrite IH. now rewrite <- app_assoc.
Qed.

(** X4. When every stored document either has no embedding or has one that
    unpickles together with the four profile keys, [get_all_embeddings]
    returns, in the order of the collection, one entry
    [(str(_id), profile, embedding)] per document with an embedding, and
    nothing for the others. *)
Theorem get_all_embeddings_gallery (db : Database.t)
    (users : list Database.user) :
  Database.users_collection_find db = Ok users ->
  Forall loadable users ->
  Database.get_all_embeddings db = Ok (omap entry_of users).
Proof.
  intros Hf H. unfold Database.get_all_embeddings. rewrite Hf. simpl.
  now rewrite get_all_embeddings_loop_loadable.
Qed.

Lemma get_all_embeddings_gallery_witness :
  Database.get_all_embeddings
    (Examples.db [Examples.doc (Examples.u1 float32); Cases.no_embedding;
                  Examples.doc (Examples.u2 float32)]) =
  Ok [Examples.u1 float32; Examples.u2 float32].
Proof.
  apply (get_all_embeddings_gallery
           (Examples.db [Examples.doc (Examples.u1 float32);
                         Cases.no_embedding;
                         Examples.doc (Examples.u2 float32)])
           [Examples.doc (Examples.u1 float32); Cases.no_embedding;
            Examples.doc (Examples.u2 float32)]).
  - reflexivity.
  - constructor; [right; eexists; reflexivity|].
    constructor; [left; reflexivity|].
    constructor; [right; eexists; reflexivity|]. constructor.
Defined.

(** X5. [get_all_embeddings] has no [try]: one stored document whose
    embedding does not unpickle, or which has an embedding but lacks one of
    the keys [name], [id_card_number], [nationality], [profession], makes it
    raise, wherever the document stands in the collection. *)
Theorem get_all_embeddings_raises (db : Database.t)
    (users : list Database.user) :
  Database.users_collection_find db = Ok users ->
  Exists (fun u => ~ loadable u) users ->
  exists e, Database.get_all_embeddings db = Raise e.
Proof.
  intros Hf H.
  unfold Database.get_all_embeddings. rewrite Hf. simpl. clear Hf.
  generalize (@nil entry) as acc.
  induction H as [u l Hu|u l _ IH]; intros acc; simpl.
  - unfold loadable, entry_of in Hu.
    destruct (Database.face_embedding u) as [[a|]|]; simpl.
    + destruct (Database.name u); simpl; [|eexists; reflexivity].
      destruct (Database.id_card_number u); simpl; [|eexists; reflexivity].
      destruct (Database.nationality u); simpl; [|eexists; reflexivity].
      destruct (Database.profession u); simpl; [|eexists; reflexivity].
      exfalso. apply Hu. right. eexists; reflexivity.
    + eexists; reflexivity.
    + exfalso. apply Hu. now left.
  - destruct (Database.face_embedding u) as [[a|]|]; simpl.
    + destruct (Database.name u); simpl; [|eexists; reflexivity].
      destruct (Database.id_card_number u); simpl; [|eexists; reflexivity].
      destruct (Database.nationality u); simpl; [|eexists; reflexivity].
      destruct (Database.profession u); simpl; [|eexists; reflexivity].
      apply IH.
    + eexists; reflexivity.
    + apply IH.
Qed.

Lemma get_all_embeddings_raises_witness :
  exists e,
    Database.get_all_embeddings
      (Examples.db [Examples.doc (Examples.u1 float32); Examples.corrupt])
    = Raise e.
Proof.
  apply (get_all_embeddings_raises _
           [Examples.doc (Examples.u1 float32); Examples.corrupt]).
  - reflexivity.
  - right. left. intros [H|[e H]]; discriminate.
Defined.

(** ** The outcomes of [detect_face_realtime] *)

Lemma match_opencv_ok dt probe stored :
  exists m, match_opencv dt probe stored = Ok m.
Proof.
  unfold match_opencv. destruct (truthy stored); [|eauto].
  rewrite scan_opencv_running_max. eauto.
Qed.

Lemma loop_insightface_outcomes cv2_rectangle jpeg_base64 image display
    stored faces matches (h : heap) ms :
  fst (loop_insightface cv2_rectangle jpeg_base64 image display stored
         faces matches h) = Ok ms ->
  exists new,
    ms = matches ++ new /\
    Forall2 (outcome_for jpeg_base64 true stored)
      (map insightface_detection faces) new.
Proof.
  revert matches h. induction faces as [|face rest IH]; intros matches h; simpl.
  - intros [= <-]. exists []. split; [now rewrite app_nil_r|constructor].
  - unfold insightface_detection at 1.
    destruct (bbox_astype_int face) as [[[b0 b1] b2] b3].
    destruct (match_insightface float32 (embedding face) stored) as [m|e] eqn:Em;
      [|discriminate].
    intros H. apply IH in H as (new & -> & Hnew).
    eexists (_ :: new). split; [now rewrite <- app_assoc|].
    constructor; [|exact Hnew]. do 2 eexists. split; [reflexivity|exact Em].
Qed.

Lemma loop_opencv_outcomes cv2_rectangle cv2_resize jpeg_base64 image display
    stored faces matches (h : heap) :
  image <> display ->
  exists new,
    fst (loop_opencv cv2_rectangle cv2_resize jpeg_base64 image display
           stored faces matches h) = Ok (matches ++ new) /\
    Forall2 (outcome_for jpeg_base64 false stored)
      (map (opencv_detection cv2_resize (h !!! image)) faces) new.
Proof.
  intros Hne. revert matches h.
  induction faces as [|[[[x y] w] h'] rest IH]; intros matches h; simpl.
  - exists []. split; [now rewrite app_nil_r|constructor].
  - destruct (match_opencv_ok float64
                (flatten_div255
                   (cv2_resize
                      (crop (h !!! image) y (int32 (y + h')) x (int32 (x + w)))
                      (50, 50))) stored) as [m Em].
    rewrite Em.
    match goal with
    | |- context [loop_opencv _ _ _ _ _ _ rest ?ms ?h1] =>
        destruct (IH ms h1) as (new & Hok & Hnew)
    end.
    rewrite lookup_total_insert_ne in Hnew by auto.
    eexists (_ :: new). split; [now rewrite Hok, <- app_assoc|].
    constructor; [|exact Hnew]. do 2 eexists. split; [reflexivity|exact Em].
Qed.

(** What [detect_face_realtime] returns, against the detections. *)
Lemma detect_face_realtime_outcomes cv2_rectangle cv2_resize jpeg_base64 self
    image stored (h : heap) img :
  h !! image = Some img ->
  (forall d ms,
     fst (detect_face_realtime cv2_rectangle cv2_resize jpeg_base64 self image
            stored h) = Ok (d, ms) ->
     Forall2 (outcome_for jpeg_base64 (use_insightface self) stored)
       (detections cv2_resize self img) ms) /\
  (use_insightface self = false ->
   exists d ms,
     fst (detect_face_realtime cv2_rectangle cv2_resize jpeg_base64 self image
            stored h) = Ok (d, ms)).
Proof.
  intros Himg. unfold detect_face_realtime, detections.
  destruct (copy_fresh image h img Himg) as (Hcopy & Hfresh & Hne).
  rewrite Hcopy. rewrite lookup_total_insert_ne by auto.
  rewrite (lookup_total_correct _ _ _ Himg).
  destruct (use_insightface self).
  - split; [|discriminate]. intros d ms.
    match goal with
    | |- context [loop_insightface ?a ?b ?c ?d ?e ?f ?g ?h0] =>
        pose proof (loop_insightface_outcomes a b c d e f g h0) as Hl;
        destruct (loop_insightface a b c d e f g h0) as [[ms0|] h1]
    end; simpl; [|discriminate].
    intros [= <- <-]. destruct (Hl ms0 eq_refl) as (new & -> & Hnew).
    exact Hnew.
  - match goal with
    | |- context [loop_opencv ?a ?b ?c ?d ?e ?f ?g ?m ?h0] =>
        destruct (loop_opencv_outcomes a b c d e f g m h0 Hne)
          as (new & Hok & Hnew);
        destruct (loop_opencv a b c d e f g m h0) as [r0 h1]
    end.
    simpl in Hok. subst r0. simpl.
    rewrite lookup_total_insert_ne in Hnew by auto.
    rewrite (lookup_total_correct _ _ _ Himg) in Hnew.
    split; [|eauto]. intros d ms [= <- <-]. exact Hnew.
Qed.





Lemma outcome_for_coherent jpeg_base64 insight stored detection fd :
  outcome_for jpeg_base64 insight stored detection fd ->
  coherent insight stored fd.
Proof.
  intros (m & c & -> & Hm). destruct m as [[[u d] s]|].
  - left. split; [reflexivity|].
    destruct stored as [gallery|];
      [|destruct insight; discriminate].
    assert (Hb : backend_match insight (backend_dtype insight) (snd detection)
                   (Some gallery) = Ok (Some (u, d, s)))
      by (destruct insight; exact Hm).
    destruct (backend_match_sound _ _ _ _ _ _ _ Hb) as (emb & Hin & _ & Hg).
    exists gallery, u, d, emb, s. repeat split; auto.
  - right. repeat split.
Qed.

(** X7. Every outcome [detect_face_realtime] returns is coherent: either
    it is recognized, its [user_id] and [match] are the id and the payload
    of one entry of the gallery and its confidence is a score strictly
    above the backend's threshold; or it is unrecognized, with no
    [user_id], no [match] and confidence 0. *)
Theorem outcomes_are_coherent
    (cv2_rectangle : image -> Z * Z -> Z * Z -> pixel -> Z -> image)
    (cv2_resize : image -> Z * Z -> image) (jpeg_base64 : image -> string)
    (self : FaceProcessor.t) (image : loc) (stored : option (list entry))
    (h : heap) (img : Image.image) (d : loc) (ms : list face_data) :
  h !! image = Some img ->
  fst (detect_face_realtime cv2_rectangle cv2_resize jpeg_base64 self image
         stored h) = Ok (d, ms) ->
  Forall (coherent (use_insightface self) stored) ms.
Proof.
  intros Himg Hr.
  destruct (detect_face_realtime_outcomes cv2_rectangle cv2_resize jpeg_base64
              self image stored h img Himg) as [Hout _].
  specialize (Hout d ms Hr). clear Hr.
  induction Hout as [|x fd l ms' Hx _ IH]; constructor; auto.
  exact (outcome_for_coherent _ _ _ _ _ Hx).
Qed.

Lemma outcomes_are_coherent_witness :
  Forall (coherent true (Some [Examples.u1 float32]))
    (snd (match fst Examples.run with
          | Ok r => r
          | Raise _ => (1%positive, [])
          end)).
Proof.
  apply (outcomes_are_coherent Examples.paint Examples.resize Examples.encode
           (Examples.processor true [Examples.f1; Examples.f2] [])
           1%positive (Some [Examples.u1 float32]) Examples.memory
           Examples.frame 2%positive).
  - reflexivity.
  - vm_compute. reflexivity.
Defined.

(** ** The OpenCV embedding *)

Lemma flat_map_const_length {A B} (f : A -> list B) (k : nat) (l : list A) :
  Forall (fun x => length (f x) = k) l ->
  length (flat_map f l) = (k * length l)%nat.
Proof.
  induction 1 as [|x l Hx _ IH]; simpl; [lia|].
  rewrite length_app, IH, Hx. now rewrite Nat.mul_succ_r, Nat.add_comm.
Qed.

Lemma flatten_div255_length rows cols (im : image) :
  rectangular rows cols im ->
  length (flatten_div255 im) = (3 * rows * cols)%nat.
Proof.
  intros [<- Hc]. unfold flatten_div255.
  rewrite (flat_map_const_length _ (3 * cols)%nat);
    [now rewrite <- !Nat.mul_assoc, (Nat.mul_comm cols)|].
  eapply Forall_impl; [exact Hc|]. intros row <-.
  apply flat_map_const_length. apply Forall_forall.
  intros [[b g] r] _. reflexivity.
Qed.

Lemma channel_in_unit_interval (c : Z) :
  0 <= c <= 255 ->
  SFleb (S754_zero false) (fdiv float64 (of_Z float64 c) (of_Z float64 255))
    = true /\
  SFleb (fdiv float64 (of_Z float64 c) (of_Z float64 255)) (of_Z float64 1)
    = true.
Proof.
  intros Hc.
  assert (Hall :
    forallb (fun n =>
      let x := fdiv float64 (of_Z float64 (Z.of_nat n)) (of_Z float64 255) in
      SFleb (S754_zero false) x && SFleb x (of_Z float64 1))
      (seq 0 256) = true) by (vm_compute; reflexivity).
  rewrite forallb_forall in Hall.
  specialize (Hall (Z.to_nat c)).
  rewrite Z2Nat.id in Hall by lia.
  apply andb_true_iff. apply Hall. apply in_seq. lia.
Qed.

(** X8. The OpenCV embedding of an image of [rows] rows and [cols] columns
    of 8-bit pixels has [3 * rows * cols] components, and every component
    lies between 0 and 1. *)
Theorem fallback_embedding_shape (rows cols : nat) (im : image) :
  rectangular rows cols im ->
  Forall (Forall eight_bit) im ->
  length (flatten_div255 im) = (3 * rows * cols)%nat /\
  Forall (fun x => SFleb (S754_zero false) x = true /\
                   SFleb x (of_Z float64 1) = true) (flatten_div255 im).
Proof.
  intros Hrect Hpix. split; [now apply flatten_div255_length|].
  unfold flatten_div255. clear Hrect.
  induction Hpix as [|row im Hrow _ IH]; simpl; [constructor|].
  apply Forall_app. split; [|exact IH]. clear IH.
  induction Hrow as [|[[b g] r] row (Hb & Hg & Hr) _ IH]; simpl;
    [constructor|].
  repeat (constructor; [now apply channel_in_unit_interval|]). exact IH.
Qed.

Lemma fallback_embedding_shape_witness :
  length (flatten_div255 Examples.frame) = (3 * 2 * 2)%nat /\
  Forall (fun x => SFleb (S754_zero false) x = true /\
                   SFleb x (of_Z float64 1) = true)
    (flatten_div255 Examples.frame).
Proof.
  apply (fallback_embedding_shape 2 2 Examples.frame).
  - split; [reflexivity|]. repeat constructor.
  - repeat constructor; lia.
Defined.




(** ** Crops *)




(** Without the precondition the slice wraps: for a box above the frame,
    with [y2 = -1], the stop index [min(y2, height)] is [-1], and the crop
    is the frame less its last row. *)
Example crop_of_a_box_above_the_frame :
  insightface_crop Examples.frame Cases.f4 = [[(0, 0, 0); (10, 10, 10)]].
Proof. vm_compute. reflexivity. Qed.

(** ** Registering, updating and deleting users *)

Lemma find_has_id_card_number n (us : list Server.user_doc) :
  (exists d, List.find (Server.has_id_card_number n) us = Some d) <->
  n ∈ id_cards us.
Proof.
  unfold id_cards. induction us as [|d us IH]; simpl.
  - split; [intros [d H]; discriminate|intros H; inversion H].
  - unfold Server.has_id_card_number at 1.
    destruct (Database.id_card_number (Server.doc_user d)) as [c|] eqn:Ec.
    + destruct (bool_decide_reflect (Some c = Some n)) as [Heq|Hne].
      * injection Heq as ->. split; [constructor|eauto].
      * rewrite IH. split; [now constructor|].
        intros H. apply elem_of_cons in H as [->|H]; [congruence|exact H].
    + destruct (bool_decide_reflect (@None string = Some n)); [discriminate|].
      exact IH.
Qed.

Lemma find_none_has_id_card_number n (us : list Server.user_doc) :
  n ∉ id_cards us -> List.find (Server.has_id_card_number n) us = None.
Proof.
  intros H. destruct (List.find _ us) as [d|] eqn:E; [|reflexivity].
  exfalso. apply H. apply find_has_id_card_number. eauto.
Qed.

Lemma get_all_embeddings_loop_app l1 l2 acc :
  Database.get_all_embeddings_loop (l1 ++ l2) acc =
  (g ← Database.get_all_embeddings_loop l1 acc;
   Database.get_all_embeddings_loop l2 g).
Proof.
  revert acc. induction l1 as [|u l1 IH]; intros acc; simpl; [reflexivity|].
  destruct (Database.face_embedding u) as [[a|]|]; simpl; auto.
  destruct (Database.name u); simpl; auto.
  destruct (Database.id_card_number u); simpl; auto.
  destruct (Database.nationality u); simpl; auto.
  destruct (Database.profession u); simpl; auto.
Qed.

(** X11. [add_user] refuses an id card number that a stored user already
    has: it answers [(False, "User with ID ... already exists", None)] and
    writes nothing. *)
Theorem add_user_existing_id_card (time_at : nat -> Z) (str_exn : exn -> string)
    (new_object_id : list Server.user_doc -> string) (name : string) (age : Z)
    (id_card_number nationality profession : string)
    (face_embedding : ndarray) (image_base64 : string) (s : Server.t) :
  Server.reachable s = true ->
  id_card_number ∈ id_cards (Server.users s) ->
  DatabaseMethods.add_user time_at str_exn new_object_id name age
    id_card_number nationality profession face_embedding image_base64 s =
  ((false, ("User with ID " ++ id_card_number ++ " already exists")%string,
    None), s).
Proof.
  intros Hr Hin. apply find_has_id_card_number in Hin as [d Hd].
  unfold DatabaseMethods.add_user, DatabaseMethods.try, Server.bind,
    Server.find_one_user, Server.request.
  rewrite Hr, Hd. reflexivity.
Qed.

Lemma add_user_existing_id_card_witness :
  DatabaseMethods.add_user Stand.time_at Stand.str_exn Stand.new_object_id
    "Alicia" 31 "A-1" "ES" "doctor" (snd (Cases.u7 float32)) "jpeg"
    Stand.with_alice =
  ((false, ("User with ID " ++ "A-1" ++ " already exists")%string, None),
   Stand.with_alice).
Proof.
  apply add_user_existing_id_card.
  - reflexivity.
  - vm_compute. constructor.
Defined.

(** X12. [add_user] with an id card number no stored user has, on a server
    that can be reached, answers [(True, "User added successfully", id)]
    with the id the driver generated, appends one document and leaves the
    others and the logs alone; the gallery [get_all_embeddings] then loads
    is the former gallery followed by [(id, profile, embedding)] with the
    embedding that was registered. *)
Theorem add_user_registers (time_at : nat -> Z) (str_exn : exn -> string)
    (new_object_id : list Server.user_doc -> string) (name : string) (age : Z)
    (id_card_number nationality profession : string)
    (face_embedding : ndarray) (image_base64 : string) (s : Server.t)
    (gallery : list entry) :
  Server.reachable s = true ->
  id_card_number ∉ id_cards (Server.users s) ->
  Database.get_all_embeddings (Server.database s) = Ok gallery ->
  exists s',
    DatabaseMethods.add_user time_at str_exn new_object_id name age
      id_card_number nationality profession face_embedding image_base64 s =
    ((true, "User added successfully"%string,
      Some (new_object_id (Server.users s))), s') /\
    (exists d, Server.users s' = Server.users s ++ [d]) /\
    Server.logs s' = Server.logs s /\
    Server.recognition_logs s' = Server.recognition_logs s /\
    Database.get_all_embeddings (Server.database s') =
    Ok (gallery ++
        [new_entry (new_object_id (Server.users s)) name id_card_number
           nationality profession face_embedding]).
Proof.
  intros Hr Hnew Hg.
  unfold DatabaseMethods.add_user, DatabaseMethods.try, Server.bind,
    Server.find_one_user, Server.insert_one_user, Server.datetime_now,
    Server.request.
  rewrite Hr, (find_none_has_id_card_number _ _ Hnew). simpl. rewrite Hr.
  eexists. split; [reflexivity|]. simpl.
  split; [eauto|]. split; [reflexivity|]. split; [reflexivity|].
  unfold Database.get_all_embeddings, Server.database in *. simpl.
  rewrite Hr in *. simpl in *.
  rewrite map_app, get_all_embeddings_loop_app, Hg. reflexivity.
Qed.

Lemma add_user_registers_witness :
  exists s',
    DatabaseMethods.add_user Stand.time_at Stand.str_exn Stand.new_object_id
      "Bob" 41 "B-2" "DE" "baker" (snd (Cases.u7 float32)) "jpeg"
      Stand.with_alice =
    ((true, "User added successfully"%string,
      Some (Stand.new_object_id (Server.users Stand.with_alice))), s') /\
    (exists d, Server.users s' = Server.users Stand.with_alice ++ [d]) /\
    Server.logs s' = Server.logs Stand.with_alice /\
    Server.recognition_logs s' = Server.recognition_logs Stand.with_alice /\
    Database.get_all_embeddings (Server.database s') =
    Ok ([new_entry "id-0" "Alice" "A-1" "FR" "nurse" (Examples.probe float32)] ++
        [new_entry (Stand.new_object_id (Server.users Stand.with_alice))
           "Bob" "B-2" "DE" "baker" (snd (Cases.u7 float32))]).
Proof.
  apply add_user_registers.
  - reflexivity.
  - vm_compute. intros H. apply list_elem_of_singleton in H. discriminate.
  - reflexivity.
Defined.

Lemma find_split {A} (p : A -> bool) (l : list A) (d : A) :
  List.find p l = Some d ->
  exists l1 l2,
    l = l1 ++ d :: l2 /\ Forall (fun x => p x = false) l1 /\ p d = true.
Proof.
  induction l as [|x l IH]; simpl; [discriminate|].
  destruct (p x) eqn:E.
  - intros [= ->]. exists [], l. repeat split; auto.
  - intros H. destruct (IH H) as (l1 & l2 & -> & H1 & Hd).
    exists (x :: l1), l2. repeat split; auto.
Qed.

Lemma find_none_all {A} (p : A -> bool) (l : list A) :
  List.find p l = None -> Forall (fun x => p x = false) l.
Proof.
  induction l as [|x l IH]; simpl; [constructor|].
  destruct (p x) eqn:E; [discriminate|]. intros H. constructor; auto.
Qed.

Lemma update_first_split p set (l1 : list Server.user_doc) d l2 :
  Forall (fun x => p x = false) l1 -> p d = true ->
  Server.update_first p set (l1 ++ d :: l2) = (1%nat, l1 ++ set d :: l2).
Proof.
  intros H Hd. induction H as [|x l1 Hx _ IH]; simpl.
  - now rewrite Hd.
  - now rewrite Hx, IH.
Qed.

Lemma update_first_none p set (l : list Server.user_doc) :
  Forall (fun x => p x = false) l -> Server.update_first p set l = (0%nat, l).
Proof.
  induction 1 as [|x l Hx _ IH]; simpl; [reflexivity|]. now rewrite Hx, IH.
Qed.

Lemma delete_first_split p (l1 : list Server.user_doc) d l2 :
  Forall (fun x => p x = false) l1 -> p d = true ->
  Server.delete_first p (l1 ++ d :: l2) = (1%nat, l1 ++ l2).
Proof.
  intros H Hd. induction H as [|x l1 Hx _ IH]; simpl.
  - now rewrite Hd.
  - now rewrite Hx, IH.
Qed.

Lemma has_id_true oid d :
  Server.has_id oid d = true <-> Database._id (Server.doc_user d) = oid.
Proof. unfold Server.has_id. apply bool_decide_eq_true. Qed.

Lemma has_id_false oid d :
  Server.has_id oid d = false <-> Database._id (Server.doc_user d) <> oid.
Proof. unfold Server.has_id. apply bool_decide_eq_false. Qed.

Lemma find_has_id oid (us : list Server.user_doc) :
  oid ∈ ids us -> exists d, List.find (Server.has_id oid) us = Some d.
Proof.
  unfold ids. induction us as [|x us IH]; simpl; intros H; [inversion H|].
  destruct (Server.has_id oid x) eqn:E; [eauto|].
  apply IH. apply elem_of_cons in H as [->|H]; auto.
  apply has_id_false in E. congruence.
Qed.

Lemma find_has_id_none oid (us : list Server.user_doc) :
  oid ∉ ids us -> List.find (Server.has_id oid) us = None.
Proof.
  intros H. destruct (List.find _ us) as [d|] eqn:E; [|reflexivity].
  exfalso. apply H. apply find_split in E as (l1 & l2 & -> & _ & Hd).
  apply has_id_true in Hd. unfold ids. rewrite map_app. simpl.
  apply elem_of_app. right. rewrite <- Hd. constructor.
Qed.

(** With distinct ids, only the document found has the id. *)
Lemma unique_id_split oid (l1 : list Server.user_doc) d l2 :
  NoDup (ids (l1 ++ d :: l2)) -> Server.has_id oid d = true ->
  Forall (fun x => Server.has_id oid x = false) (l1 ++ l2).
Proof.
  unfold ids. rewrite map_app. simpl. intros Hn Hd.
  apply has_id_true in Hd.
  apply NoDup_app in Hn as (_ & Hn12 & Hn2).
  apply NoDup_cons in Hn2 as [Hn2 _].
  apply Forall_app. split; apply Forall_forall; intros x Hx;
    apply has_id_false; intros Hxo.
  - apply (Hn12 oid).
    + apply list_elem_of_fmap. exists x. auto.
    + rewrite Hd. constructor.
  - apply Hn2. rewrite Hd. apply list_elem_of_fmap. exists x. auto.
Qed.

Lemma filter_all {A} (p : A -> bool) (l : list A) :
  Forall (fun x => p x = true) l -> List.filter p l = l.
Proof.
  induction 1 as [|x l Hx _ IH]; simpl; [reflexivity|]. now rewrite Hx, IH.
Qed.

Lemma filter_not_has_id oid (l1 : list Server.user_doc) d l2 :
  NoDup (ids (l1 ++ d :: l2)) -> Server.has_id oid d = true ->
  List.filter (fun x => negb (Server.has_id oid x)) (l1 ++ d :: l2) = l1 ++ l2.
Proof.
  intros Hn Hd. pose proof (unique_id_split _ _ _ _ Hn Hd) as H.
  apply Forall_app in H as [H1 H2].
  rewrite List.filter_app. simpl. rewrite Hd. simpl.
  rewrite !filter_all; [reflexivity| |];
    (eapply Forall_impl; [eassumption|]); intros x ->; reflexivity.
Qed.

Ltac run_method :=
  unfold DatabaseMethods.add_user, DatabaseMethods.update_user,
    DatabaseMethods.delete_user, DatabaseMethods.get_user,
    DatabaseMethods.add_log, DatabaseMethods.add_recognition_log,
    DatabaseMethods.get_logs, DatabaseMethods.try, Server.bind, Server.lift,
    Server.ret, Server.find_one_user, Server.insert_one_user,
    Server.update_one_user, Server.delete_one_user, Server.insert_one_log,
    Server.insert_one_recognition_log, Server.find_logs,
    Server.ensure_collection, Server.datetime_now, Server.request.

(** X13. [delete_user] on the id of a stored user, on a server that can be
    reached and whose users have distinct ids, answers
    [(True, "User deleted successfully")], removes that user and no other,
    leaves the logs alone, and [get_user] on the same id then answers
    [None]. *)
Theorem delete_user_removes (str_exn : exn -> string)
    (ObjectId : string -> result string) (user_id oid : string)
    (s : Server.t) :
  Server.reachable s = true ->
  ObjectId user_id = Ok oid ->
  NoDup (ids (Server.users s)) ->
  oid ∈ ids (Server.users s) ->
  exists s',
    DatabaseMethods.delete_user str_exn ObjectId user_id s =
      ((true, "User deleted successfully"%string), s') /\
    Server.users s' =
      List.filter (fun d => negb (Server.has_id oid d)) (Server.users s) /\
    Server.logs s' = Server.logs s /\
    Server.recognition_logs s' = Server.recognition_logs s /\
    fst (DatabaseMethods.get_user ObjectId user_id s') = Ok None.
Proof.
  intros Hr Ho Hn Hin. destruct (find_has_id _ _ Hin) as [d Hd].
  destruct (find_split _ _ _ Hd) as (l1 & l2 & Hl & H1 & Hpd).
  run_method. rewrite Ho, Hr, Hd. simpl. rewrite Hr. simpl.
  rewrite Hl, (delete_first_split _ _ _ _ H1 Hpd). simpl.
  eexists. split; [reflexivity|]. simpl.
  rewrite Hl in Hn. rewrite (filter_not_has_id _ _ _ _ Hn Hpd).
  split; [reflexivity|]. split; [reflexivity|]. split; [reflexivity|].
  rewrite Hr. simpl.
  assert (Hf : List.find (Server.has_id oid) (l1 ++ l2) = None).
  { pose proof (unique_id_split _ _ _ _ Hn Hpd) as Hall.
    clear -Hall. induction Hall as [|x l Hx _ IH]; simpl; [reflexivity|].
    now rewrite Hx. }
  now rewrite Hf.
Qed.

Lemma delete_user_removes_witness :
  exists s',
    DatabaseMethods.delete_user Stand.str_exn Stand.ObjectId "id-0"
      Stand.with_bob = ((true, "User deleted successfully"%string), s') /\
    Server.users s' =
      List.filter (fun d => negb (Server.has_id "id-0" d))
        (Server.users Stand.with_bob) /\
    Server.logs s' = Server.logs Stand.with_bob /\
    Server.recognition_logs s' = Server.recognition_logs Stand.with_bob /\
    fst (DatabaseMethods.get_user Stand.ObjectId "id-0" s') = Ok None.
Proof.
  apply delete_user_removes.
  - reflexivity.
  - reflexivity.
  - vm_compute. repeat constructor; intros H;
      repeat (apply elem_of_cons in H as [H|H]; [discriminate|]);
      inversion H.
  - vm_compute. constructor.
Defined.

(** X14. An id that [ObjectId] rejects: [get_user], which has no [try],
    raises the exception; [delete_user] and [update_user] answer [False]
    with the text of the exception in the message and write nothing. *)
Theorem invalid_user_id (time_at : nat -> Z) (str_exn : exn -> string)
    (ObjectId : string -> result string) (user_id : string) (e : exn)
    (name : string) (age : Z) (id_card_number nationality profession : string)
    (face_embedding : option ndarray) (image_base64 : option string)
    (s : Server.t) :
  ObjectId user_id = Raise e ->
  DatabaseMethods.get_user ObjectId user_id s = (Raise e, s) /\
  DatabaseMethods.delete_user str_exn ObjectId user_id s =
    ((false, ("Error deleting user: " ++ str_exn e)%string), s) /\
  DatabaseMethods.update_user time_at str_exn ObjectId user_id name age
    id_card_number nationality profession face_embedding image_base64 s =
    ((false, ("Error updating user: " ++ str_exn e)%string), s).
Proof. intros H. run_method. rewrite H. repeat split. Qed.

Lemma invalid_user_id_witness :
  DatabaseMethods.get_user Stand.ObjectId "not an id" Stand.with_alice =
    (Raise ValueError, Stand.with_alice) /\
  DatabaseMethods.delete_user Stand.str_exn Stand.ObjectId "not an id"
    Stand.with_alice =
    ((false, ("Error deleting user: " ++ Stand.str_exn ValueError)%string),
     Stand.with_alice) /\
  DatabaseMethods.update_user Stand.time_at Stand.str_exn Stand.ObjectId
    "not an id" "Alice" 31 "A-1" "FR" "nurse" None None Stand.with_alice =
    ((false, ("Error updating user: " ++ Stand.str_exn ValueError)%string),
     Stand.with_alice).
Proof. apply invalid_user_id. reflexivity. Defined.

(** X15. An id that no stored user has, on a server that can be reached:
    [get_user] answers [None], [delete_user] answers
    [(False, "User with ID ... not found")], and [update_user], when no
    user has the id card number given, answers [(False, "User not found")];
    none of them changes a document. *)
Theorem unknown_user_id (time_at : nat -> Z) (str_exn : exn -> string)
    (ObjectId : string -> result string) (user_id oid : string)
    (name : string) (age : Z) (id_card_number nationality profession : string)
    (face_embedding : option ndarray) (image_base64 : option string)
    (s : Server.t) :
  Server.reachable s = true ->
  ObjectId user_id = Ok oid ->
  oid ∉ ids (Server.users s) ->
  id_card_number ∉ id_cards (Server.users s) ->
  DatabaseMethods.get_user ObjectId user_id s = (Ok None, s) /\
  DatabaseMethods.delete_user str_exn ObjectId user_id s =
    ((false, ("User with ID " ++ user_id ++ " not found")%string), s) /\
  fst (DatabaseMethods.update_user time_at str_exn ObjectId user_id name age
         id_card_number nationality profession face_embedding image_base64 s)
    = (false, "User not found"%string) /\
  same_documents s
    (snd (DatabaseMethods.update_user time_at str_exn ObjectId user_id name
            age id_card_number nationality profession face_embedding
            image_base64 s)).
Proof.
  intros Hr Ho Hid Hcard.
  pose proof (find_has_id_none _ _ Hid) as Hf.
  assert (Hc : List.find
                 (fun d => Server.has_id_card_number id_card_number d &&
                           negb (Server.has_id oid d)) (Server.users s) = None).
  { pose proof (find_none_all _ _ (find_none_has_id_card_number _ _ Hcard)) as H.
    clear -H. induction H as [|x l Hx _ IH]; simpl; [reflexivity|].
    now rewrite Hx. }
  run_method. rewrite Ho, Hr, Hf, Hc. simpl. rewrite Hr.
  rewrite (update_first_none _ _ _ (find_none_all _ _ Hf)). simpl.
  repeat split.
Qed.

Lemma unknown_user_id_witness :
  DatabaseMethods.get_user Stand.ObjectId "id-7" Stand.with_alice =
    (Ok None, Stand.with_alice) /\
  DatabaseMethods.delete_user Stand.str_exn Stand.ObjectId "id-7"
    Stand.with_alice =
    ((false, ("User with ID " ++ "id-7" ++ " not found")%string),
     Stand.with_alice) /\
  fst (DatabaseMethods.update_user Stand.time_at Stand.str_exn Stand.ObjectId
         "id-7" "Carl" 50 "C-3" "SE" "cook" None None Stand.with_alice)
    = (false, "User not found"%string) /\
  same_documents Stand.with_alice
    (snd (DatabaseMethods.update_user Stand.time_at Stand.str_exn
            Stand.ObjectId "id-7" "Carl" 50 "C-3" "SE" "cook" None None
            Stand.with_alice)).
Proof.
  apply (unknown_user_id Stand.time_at Stand.str_exn Stand.ObjectId "id-7"
           "id-7").
  - reflexivity.
  - reflexivity.
  - vm_compute. intros H. apply list_elem_of_singleton in H. discriminate.
  - vm_compute. intros H. apply list_elem_of_singleton in H. discriminate.
Defined.

Lemma find_other_card_none n oid (us : list Server.user_doc) :
  (forall x, x ∈ us ->
     Database.id_card_number (Server.doc_user x) = Some n ->
     Database._id (Server.doc_user x) = oid) ->
  List.find (fun d => Server.has_id_card_number n d &&
                      negb (Server.has_id oid d)) us = None.
Proof.
  induction us as [|x l IH]; intros H; simpl; [reflexivity|].
  destruct (Server.has_id_card_number n x) eqn:Ec; simpl.
  - apply bool_decide_eq_true in Ec.
    rewrite (proj2 (has_id_true oid x)); simpl.
    + apply IH. intros y Hy. apply H. now constructor.
    + apply H; [constructor|exact Ec].
  - apply IH. intros y Hy. apply H. now constructor.
Qed.

(** X16. [update_user] without a new embedding and image, on the id of a
    stored user whose new id card number no other user has: it answers
    [(True, "User updated successfully")], rewrites the profile of that
    user only, and every stored embedding, that user's included, is what
    it was. *)
Theorem update_user_keeps_embedding (time_at : nat -> Z)
    (str_exn : exn -> string) (ObjectId : string -> result string)
    (user_id oid name : string) (age : Z)
    (id_card_number nationality profession : string) (s : Server.t) :
  Server.reachable s = true ->
  ObjectId user_id = Ok oid ->
  NoDup (ids (Server.users s)) ->
  oid ∈ ids (Server.users s) ->
  (forall x, x ∈ Server.users s ->
     Database.id_card_number (Server.doc_user x) = Some id_card_number ->
     Database._id (Server.doc_user x) = oid) ->
  exists s',
    DatabaseMethods.update_user time_at str_exn ObjectId user_id name age
      id_card_number nationality profession None None s =
      ((true, "User updated successfully"%string), s') /\
    Server.users s' =
      map (fun d =>
             if Server.has_id oid d
             then DatabaseMethods.set_fields name age id_card_number
                    nationality profession (time_at (Server.clock s))
                    None None d
             else d) (Server.users s) /\
    map (fun d => Database.face_embedding (Server.doc_user d))
      (Server.users s') =
    map (fun d => Database.face_embedding (Server.doc_user d))
      (Server.users s) /\
    Server.logs s' = Server.logs s.
Proof.
  intros Hr Ho Hn Hin Hcard. destruct (find_has_id _ _ Hin) as [d Hd].
  destruct (find_split _ _ _ Hd) as (l1 & l2 & Hl & H1 & Hpd).
  run_method.
  rewrite Ho, Hr, (find_other_card_none _ _ _ Hcard). simpl. rewrite Hr.
  rewrite Hl, (update_first_split _ _ _ _ _ H1 Hpd). simpl.
  eexists. split; [reflexivity|]. simpl.
  rewrite Hl in Hn. pose proof (unique_id_split _ _ _ _ Hn Hpd) as Hall.
  apply Forall_app in Hall as [Ha1 Ha2].
  assert (Hid : forall l : list Server.user_doc,
            Forall (fun x => Server.has_id oid x = false) l ->
            map (fun d0 =>
                   if Server.has_id oid d0
                   then DatabaseMethods.set_fields name age id_card_number
                          nationality profession (time_at (Server.clock s))
                          None None d0
                   else d0) l = l).
  { induction 1 as [|x l Hx _ IH]; simpl; [reflexivity|]. now rewrite Hx, IH. }
  split; [|split; [|reflexivity]].
  - rewrite map_app. simpl. now rewrite Hpd, (Hid _ Ha1), (Hid _ Ha2).
  - rewrite !map_app. reflexivity.
Qed.

Lemma update_user_keeps_embedding_witness :
  exists s',
    DatabaseMethods.update_user Stand.time_at Stand.str_exn Stand.ObjectId
      "id-1" "Robert" 42 "B-2" "AT" "chef" None None Stand.with_bob =
      ((true, "User updated successfully"%string), s') /\
    Server.users s' =
      map (fun d =>
             if Server.has_id "id-1" d
             then DatabaseMethods.set_fields "Robert" 42 "B-2" "AT" "chef"
                    (Stand.time_at (Server.clock Stand.with_bob)) None None d
             else d) (Server.users Stand.with_bob) /\
    map (fun d => Database.face_embedding (Server.doc_user d))
      (Server.users s') =
    map (fun d => Database.face_embedding (Server.doc_user d))
      (Server.users Stand.with_bob) /\
    Server.logs s' = Server.logs Stand.with_bob.
Proof.
  apply update_user_keeps_embedding.
  - reflexivity.
  - reflexivity.
  - vm_compute. repeat constructor; intros H;
      repeat (apply elem_of_cons in H as [H|H]; [discriminate|]);
      inversion H.
  - vm_compute. right. constructor.
  - intros x Hx Hc. vm_compute in Hx.
    apply elem_of_cons in Hx as [->|Hx]; [discriminate|].
    apply list_elem_of_singleton in Hx as ->. reflexivity.
Defined.

Lemma find_app_none {A} (p : A -> bool) (l1 l2 : list A) :
  List.find p l1 = None -> List.find p (l1 ++ l2) = List.find p l2.
Proof.
  induction l1 as [|x l1 IH]; simpl; [reflexivity|].
  destruct (p x); [discriminate|exact IH].
Qed.

(** X17. A user just registered is read back: after [add_user] succeeds
    with the id the driver generated, an id no stored user had and that
    [ObjectId] maps to itself, [get_user] on that id answers the new
    document and, unpickled, the embedding that was registered. *)
Theorem registered_user_is_read_back (time_at : nat -> Z)
    (str_exn : exn -> string) (ObjectId : string -> result string)
    (new_object_id : list Server.user_doc -> string) (name : string) (age : Z)
    (id_card_number nationality profession : string)
    (face_embedding : ndarray) (image_base64 : string) (s : Server.t) :
  Server.reachable s = true ->
  id_card_number ∉ id_cards (Server.users s) ->
  new_object_id (Server.users s) ∉ ids (Server.users s) ->
  ObjectId (new_object_id (Server.users s)) = Ok (new_object_id (Server.users s)) ->
  exists d,
    fst (DatabaseMethods.get_user ObjectId (new_object_id (Server.users s))
           (snd (DatabaseMethods.add_user time_at str_exn new_object_id name
                   age id_card_number nationality profession face_embedding
                   image_base64 s))) = Ok (Some (d, Some face_embedding)) /\
    Database.name (Server.doc_user d) = Some name /\
    Database.id_card_number (Server.doc_user d) = Some id_card_number /\
    Server.doc_age d = Some age /\
    Server.doc_image_base64 d = Some image_base64.
Proof.
  intros Hr Hcard Hfresh Ho.
  run_method.
  rewrite Hr, (find_none_has_id_card_number _ _ Hcard). simpl.
  rewrite Hr. simpl. rewrite Ho, Hr. simpl.
  rewrite (find_app_none _ _ _ (find_has_id_none _ _ Hfresh)). simpl.
  rewrite (proj2 (has_id_true _ _)) by reflexivity. simpl.
  eexists. split; [reflexivity|]. repeat split.
Qed.

Lemma registered_user_is_read_back_witness :
  exists d,
    fst (DatabaseMethods.get_user Stand.ObjectId
           (Stand.new_object_id (Server.users Stand.with_alice))
           (snd (DatabaseMethods.add_user Stand.time_at Stand.str_exn
                   Stand.new_object_id "Bob" 41 "B-2" "DE" "baker"
                   (snd (Cases.u7 float32)) "jpeg" Stand.with_alice))) =
      Ok (Some (d, Some (snd (Cases.u7 float32)))) /\
    Database.name (Server.doc_user d) = Some "Bob"%string /\
    Database.id_card_number (Server.doc_user d) = Some "B-2"%string /\
    Server.doc_age d = Some 41 /\
    Server.doc_image_base64 d = Some "jpeg"%string.
Proof.
  apply (registered_user_is_read_back Stand.time_at Stand.str_exn
           Stand.ObjectId Stand.new_object_id "Bob" 41 "B-2" "DE" "baker"
           (snd (Cases.u7 float32)) "jpeg" Stand.with_alice).
  - reflexivity.
  - vm_compute. intros H. apply list_elem_of_singleton in H. discriminate.
  - vm_compute. intros H. apply list_elem_of_singleton in H. discriminate.
  - reflexivity.
Defined.

Lemma id_cards_app (l1 l2 : list Server.user_doc) :
  id_cards (l1 ++ l2) = id_cards l1 ++ id_cards l2.
Proof.
  unfold id_cards. induction l1 as [|x l1 IH]; [reflexivity|].
  rewrite <- app_comm_cons, !omap_cons_eq, IH.
  now destruct (Database.id_card_number (Server.doc_user x)).
Qed.

Lemma ids_app (l1 l2 : list Server.user_doc) :
  ids (l1 ++ l2) = ids l1 ++ ids l2.
Proof. unfold ids. apply map_app. Qed.

Lemma id_cards_elem n (l : list Server.user_doc) :
  n ∈ id_cards l ->
  exists x, x ∈ l /\ Database.id_card_number (Server.doc_user x) = Some n.
Proof.
  unfold id_cards. induction l as [|x l IH]; [intros H; inversion H|].
  rewrite omap_cons_eq.
  destruct (Database.id_card_number (Server.doc_user x)) as [c|] eqn:E.
  - intros H. apply elem_of_cons in H as [->|H].
    + exists x. split; [constructor|exact E].
    + destruct (IH H) as (y & Hy & Hc). exists y. split; [now constructor|auto].
  - intros H. destruct (IH H) as (y & Hy & Hc).
    exists y. split; [now constructor|auto].
Qed.

Lemma NoDup_app_remove_middle {A} (l1 m l2 : list A) :
  NoDup (l1 ++ m ++ l2) -> NoDup (l1 ++ l2).
Proof.
  rewrite !NoDup_app. intros (H1 & H12 & _ & _ & H2).
  repeat split; auto. intros x Hx Hx2. apply (H12 x Hx).
  apply elem_of_app. now right.
Qed.

Lemma unique_after_delete (l1 : list Server.user_doc) d l2 :
  NoDup (ids (l1 ++ d :: l2)) -> NoDup (id_cards (l1 ++ d :: l2)) ->
  NoDup (ids (l1 ++ l2)) /\ NoDup (id_cards (l1 ++ l2)).
Proof.
  rewrite !ids_app, !id_cards_app. intros Hi Hc. split.
  - exact (NoDup_app_remove_middle _ [_] _ Hi).
  - change (d :: l2) with ([d] ++ l2) in Hc. rewrite id_cards_app in Hc.
    exact (NoDup_app_remove_middle _ _ _ Hc).
Qed.

Lemma unique_after_update (l1 : list Server.user_doc) d l2 d' n :
  NoDup (ids (l1 ++ d :: l2)) -> NoDup (id_cards (l1 ++ d :: l2)) ->
  Database._id (Server.doc_user d') = Database._id (Server.doc_user d) ->
  Database.id_card_number (Server.doc_user d') = Some n ->
  n ∉ id_cards l1 -> n ∉ id_cards l2 ->
  NoDup (ids (l1 ++ d' :: l2)) /\ NoDup (id_cards (l1 ++ d' :: l2)).
Proof.
  intros Hi Hc Hid Hcard Hn1 Hn2. split.
  - rewrite ids_app in *. simpl in *. now rewrite Hid.
  - destruct (unique_after_delete _ _ _ Hi Hc) as [_ Hc'].
    rewrite id_cards_app in *. unfold id_cards at 2. rewrite omap_cons_eq, Hcard.
    fold (id_cards l2).
    apply NoDup_app in Hc' as (H1 & H12 & H2).
    apply NoDup_app. repeat split; auto.
    + intros x Hx Hx2. apply elem_of_cons in Hx2 as [->|Hx2]; [auto|].
      now apply (H12 x).
    + apply NoDup_cons. auto.
Qed.

Lemma update_first_zero p set (l : list Server.user_doc) :
  fst (Server.update_first p set l) = 0%nat ->
  snd (Server.update_first p set l) = l.
Proof.
  induction l as [|x l IH]; simpl; [reflexivity|].
  destruct (p x); [discriminate|].
  destruct (Server.update_first p set l) as [n l']. simpl in *.
  intros ->. now rewrite IH.
Qed.

Lemma delete_first_zero p (l : list Server.user_doc) :
  fst (Server.delete_first p l) = 0%nat ->
  snd (Server.delete_first p l) = l.
Proof.
  induction l as [|x l IH]; simpl; [reflexivity|].
  destruct (p x); [discriminate|].
  destruct (Server.delete_first p l) as [n l']. simpl in *.
  intros ->. now rewrite IH.
Qed.

Lemma update_first_found p set (l : list Server.user_doc) :
  (fst (Server.update_first p set l) = 0%nat /\
   snd (Server.update_first p set l) = l) \/
  exists l1 d l2,
    l = l1 ++ d :: l2 /\ Forall (fun x => p x = false) l1 /\ p d = true /\
    Server.update_first p set l = (1%nat, l1 ++ set d :: l2).
Proof.
  destruct (List.find p l) as [d|] eqn:E.
  - right. destruct (find_split _ _ _ E) as (l1 & l2 & -> & H1 & Hd).
    exists l1, d, l2. repeat split; auto. now apply update_first_split.
  - left. rewrite (update_first_none _ _ _ (find_none_all _ _ E)). auto.
Qed.

Lemma delete_first_found p (l : list Server.user_doc) :
  (fst (Server.delete_first p l) = 0%nat /\
   snd (Server.delete_first p l) = l) \/
  exists l1 d l2,
    l = l1 ++ d :: l2 /\ Forall (fun x => p x = false) l1 /\ p d = true /\
    Server.delete_first p l = (1%nat, l1 ++ l2).
Proof.
  destruct (List.find p l) as [d|] eqn:E.
  - right. destruct (find_split _ _ _ E) as (l1 & l2 & -> & H1 & Hd).
    exists l1, d, l2. repeat split; auto. now apply delete_first_split.
  - left. assert (H := find_none_all _ _ E). clear E.
    induction H as [|x l Hx _ [IH1 IH2]]; simpl; [auto|].
    rewrite Hx. destruct (Server.delete_first p l) as [n l']. simpl in *.
    subst. auto.
Qed.

Lemma add_user_unique time_at str_exn new_object_id name age id_card_number
    nationality profession face_embedding image_base64 (s : Server.t) :
  unique s ->
  new_object_id (Server.users s) ∉ ids (Server.users s) ->
  unique (snd (DatabaseMethods.add_user time_at str_exn new_object_id name age
                 id_card_number nationality profession face_embedding
                 image_base64 s)).
Proof.
  intros [Hi Hc] Hfresh. run_method.
  destruct (Server.reachable s) eqn:Hr; [|split; assumption].
  destruct (List.find _ (Server.users s)) as [d|] eqn:Ef;
    [split; assumption|].
  simpl. rewrite Hr. simpl. unfold unique. simpl.
  rewrite ids_app, id_cards_app. simpl. split.
  - apply NoDup_app. repeat split; auto.
    + intros x Hx Hx'. apply list_elem_of_singleton in Hx' as ->. auto.
    + apply NoDup_singleton.
  - apply NoDup_app. repeat split; auto.
    + intros x Hx Hx'. apply list_elem_of_singleton in Hx' as ->.
      apply find_has_id_card_number in Hx as [d Hd]. congruence.
    + apply NoDup_singleton.
Qed.

Lemma update_user_unique time_at str_exn ObjectId user_id name age
    id_card_number nationality profession face_embedding image_base64
    (s : Server.t) :
  unique s ->
  unique (snd (DatabaseMethods.update_user time_at str_exn ObjectId user_id
                 name age id_card_number nationality profession
                 face_embedding image_base64 s)).
Proof.
  intros [Hi Hc]. run_method.
  destruct (ObjectId user_id) as [oid|e]; [|split; assumption].
  destruct (Server.reachable s) eqn:Hr; [|split; assumption].
  destruct (List.find _ (Server.users s)) as [d|] eqn:Ef;
    [split; assumption|].
  simpl. rewrite Hr.
  destruct (update_first_found (Server.has_id oid)
              (DatabaseMethods.set_fields name age id_card_number nationality
                 profession (time_at (Server.clock s)) face_embedding
                 image_base64) (Server.users s))
    as [[H0 Hsame]|(l1 & d & l2 & Hl & H1 & Hd & Hu)].
  - destruct (Server.update_first _ _ _) as [n us]. simpl in *. subst.
    simpl. split; assumption.
  - rewrite Hu. simpl. unfold unique. simpl. rewrite Hl in Hi, Hc.
    assert (Hother : forall x, x ∈ l1 ++ l2 ->
              Database.id_card_number (Server.doc_user x) <> Some id_card_number).
    { pose proof (unique_id_split _ _ _ _ Hi Hd) as Hall.
      rewrite Forall_forall in Hall.
      pose proof (find_none_all _ _ Ef) as Hnone.
      rewrite Forall_forall in Hnone.
      intros x Hx Hcx. specialize (Hall x Hx).
      assert (Hxin : x ∈ Server.users s).
      { rewrite Hl. apply elem_of_app in Hx as [Hx|Hx];
          apply elem_of_app; [now left|right; now constructor]. }
      specialize (Hnone x Hxin).
      rewrite Hall in Hnone. simpl in Hnone. rewrite andb_true_r in Hnone.
      apply bool_decide_eq_false in Hnone. contradiction. }
    apply (unique_after_update l1 d l2 _ id_card_number); auto.
    + intros Hn. apply id_cards_elem in Hn as (x & Hx & Hcx).
      apply (Hother x); [apply elem_of_app; now left|exact Hcx].
    + intros Hn. apply id_cards_elem in Hn as (x & Hx & Hcx).
      apply (Hother x); [apply elem_of_app; now right|exact Hcx].
Qed.

Lemma delete_user_unique str_exn ObjectId user_id (s : Server.t) :
  unique s ->
  unique (snd (DatabaseMethods.delete_user str_exn ObjectId user_id s)).
Proof.
  intros [Hi Hc]. run_method.
  destruct (ObjectId user_id) as [oid|e]; [|split; assumption].
  destruct (Server.reachable s) eqn:Hr; [|split; assumption].
  destruct (List.find _ (Server.users s)) as [d|] eqn:Ef;
    [|split; assumption].
  simpl. rewrite Hr.
  destruct (delete_first_found (Server.has_id oid) (Server.users s))
    as [[H0 Hsame]|(l1 & d' & l2 & Hl & H1 & Hd & Hu)].
  - destruct (Server.delete_first _ _) as [n us]. simpl in *. subst.
    simpl. split; assumption.
  - rewrite Hu. simpl. unfold unique. simpl. rewrite Hl in Hi, Hc.
    exact (unique_after_delete _ _ _ Hi Hc).
Qed.

(** X18. The three writing methods keep the users unique: when no two
    stored users share an id or an id card number, the same holds after
    [add_user] (the driver generating an id that is not in use), after
    [update_user] and after [delete_user], whatever their arguments and
    whatever they answer. The checks of the code do it; no unique index is
    needed. *)
Theorem methods_keep_users_unique (time_at : nat -> Z)
    (str_exn : exn -> string) (ObjectId : string -> result string)
    (new_object_id : list Server.user_doc -> string)
    (user_id name : string) (age : Z)
    (id_card_number nationality profession : string)
    (face_embedding : ndarray) (new_embedding : option ndarray)
    (image_base64 : string) (new_image : option string) (s : Server.t) :
  unique s ->
  new_object_id (Server.users s) ∉ ids (Server.users s) ->
  unique (snd (DatabaseMethods.add_user time_at str_exn new_object_id name age
                 id_card_number nationality profession face_embedding
                 image_base64 s)) /\
  unique (snd (DatabaseMethods.update_user time_at str_exn ObjectId user_id
                 name age id_card_number nationality profession
                 new_embedding new_image s)) /\
  unique (snd (DatabaseMethods.delete_user str_exn ObjectId user_id s)).
Proof.
  intros Hu Hfresh. split; [|split].
  - now apply add_user_unique.
  - now apply update_user_unique.
  - now apply delete_user_unique.
Qed.

Lemma methods_keep_users_unique_witness :
  unique (snd (DatabaseMethods.add_user Stand.time_at Stand.str_exn
                 Stand.new_object_id "Bob" 41 "B-2" "DE" "baker"
                 (snd (Cases.u7 float32)) "jpeg" Stand.with_alice)) /\
  unique (snd (DatabaseMethods.update_user Stand.time_at Stand.str_exn
                 Stand.ObjectId "id-0" "Bob" 41 "B-2" "DE" "baker"
                 None None Stand.with_alice)) /\
  unique (snd (DatabaseMethods.delete_user Stand.str_exn Stand.ObjectId
                 "id-0" Stand.with_alice)).
Proof.
  apply (methods_keep_users_unique Stand.time_at Stand.str_exn Stand.ObjectId
           Stand.new_object_id "id-0" "Bob" 41 "B-2" "DE" "baker"
           (snd (Cases.u7 float32)) None "jpeg" None Stand.with_alice).
  - split; vm_compute; apply NoDup_singleton.
  - vm_compute. intros H. apply list_elem_of_singleton in H. discriminate.
Defined.

(** X19. A writing method that answers [False] has changed no document:
    after [add_user], [update_user] or [delete_user] with [False] as the
    first component of the answer, the three collections are what they
    were. *)
Theorem refused_write_changes_no_document (time_at : nat -> Z)
    (str_exn : exn -> string) (ObjectId : string -> result string)
    (new_object_id : list Server.user_doc -> string)
    (user_id name : string) (age : Z)
    (id_card_number nationality profession : string)
    (face_embedding : ndarray) (new_embedding : option ndarray)
    (image_base64 : string) (new_image : option string) (s : Server.t) :
  (fst (fst (fst (DatabaseMethods.add_user time_at str_exn new_object_id name
                    age id_card_number nationality profession face_embedding
                    image_base64 s))) = false ->
   same_documents s
     (snd (DatabaseMethods.add_user time_at str_exn new_object_id name age
             id_card_number nationality profession face_embedding
             image_base64 s))) /\
  (fst (fst (DatabaseMethods.update_user time_at str_exn ObjectId user_id
               name age id_card_number nationality profession new_embedding
               new_image s)) = false ->
   same_documents s
     (snd (DatabaseMethods.update_user time_at str_exn ObjectId user_id name
             age id_card_number nationality profession new_embedding
             new_image s))) /\
  (fst (fst (DatabaseMethods.delete_user str_exn ObjectId user_id s)) = false ->
   same_documents s
     (snd (DatabaseMethods.delete_user str_exn ObjectId user_id s))).
Proof.
  split; [|split]; run_method.
  - destruct (Server.reachable s) eqn:Hr; [|repeat split].
    destruct (List.find _ (Server.users s)); [repeat split|].
    simpl. rewrite Hr. simpl. discriminate.
  - destruct (ObjectId user_id) as [oid|e]; [|repeat split].
    destruct (Server.reachable s) eqn:Hr; [|repeat split].
    destruct (List.find _ (Server.users s)); [repeat split|].
    simpl. rewrite Hr.
    pose proof (update_first_zero (Server.has_id oid)
                  (DatabaseMethods.set_fields name age id_card_number
                     nationality profession (time_at (Server.clock s))
                     new_embedding new_image) (Server.users s)) as Hz.
    destruct (Server.update_first _ _ _) as [n us]. simpl in *.
    destruct n as [|n]; simpl; [|discriminate].
    intros _. rewrite Hz by reflexivity. repeat split.
  - destruct (ObjectId user_id) as [oid|e]; [|repeat split].
    destruct (Server.reachable s) eqn:Hr; [|repeat split].
    destruct (List.find _ (Server.users s)); [|repeat split].
    simpl. rewrite Hr.
    pose proof (delete_first_zero (Server.has_id oid) (Server.users s)) as Hz.
    destruct (Server.delete_first _ _) as [n us]. simpl in *.
    destruct n as [|n]; simpl; [|discriminate].
    intros _. rewrite Hz by reflexivity. repeat split.
Qed.

Lemma refused_write_changes_no_document_witness :
  same_documents (Stand.down Stand.with_alice)
    (snd (DatabaseMethods.add_user Stand.time_at Stand.str_exn
            Stand.new_object_id "Bob" 41 "B-2" "DE" "baker"
            (snd (Cases.u7 float32)) "jpeg" (Stand.down Stand.with_alice))).
Proof.
  apply (proj1 (refused_write_changes_no_document Stand.time_at Stand.str_exn
                  Stand.ObjectId Stand.new_object_id "id-0" "Bob" 41 "B-2"
                  "DE" "baker" (snd (Cases.u7 float32)) None "jpeg" None
                  (Stand.down Stand.with_alice))).
  reflexivity.
Defined.

(** ** Logs *)

Lemma insert_desc_permutation {A K} (key : A -> K) lt (x : A) (l : list A) :
  Permutation (insert_desc key lt x l) (x :: l).
Proof.
  induction l as [|y l IH]; simpl; [reflexivity|].
  destruct (lt (key x) (key y)); [|reflexivity].
  rewrite IH. apply perm_swap.
Qed.

Lemma sorted_reverse_permutation {A K} (key : A -> K) lt (l : list A) :
  Permutation (sorted_reverse key lt l) l.
Proof.
  induction l as [|x l IH]; simpl; [reflexivity|].
  rewrite insert_desc_permutation. now constructor.
Qed.

Lemma insert_desc_newer_first (x : Server.log_doc) (l : list Server.log_doc) :
  StronglySorted newer_first l ->
  StronglySorted newer_first (insert_desc Server.log_timestamp Z.ltb x l).
Proof.
  induction 1 as [|y l Hs IH Hy]; simpl.
  - repeat constructor.
  - destruct (Z.ltb_spec (Server.log_timestamp x) (Server.log_timestamp y))
      as [Hlt|Hge].
    + constructor; [exact IH|].
      rewrite insert_desc_permutation. constructor; [|exact Hy].
      unfold newer_first. lia.
    + constructor; [now constructor|].
      constructor; [exact Hge|].
      eapply Forall_impl; [exact Hy|]. unfold newer_first. intros z Hz. lia.
Qed.

Lemma sorted_reverse_newer_first (l : list Server.log_doc) :
  StronglySorted newer_first (sorted_reverse Server.log_timestamp Z.ltb l).
Proof.
  induction l as [|x l IH]; simpl; [constructor|].
  now apply insert_desc_newer_first.
Qed.

(** X20. [get_logs] on a server that can be reached answers the logs of the
    window, each once, newest first, and writes nothing. The window starts
    [hours] hours before the clock reading; with [hours] absent or zero
    ([if hours:] is false for 0) there is no window and all the logs are
    answered. On a server that cannot be reached the answer is the empty
    list. *)
Theorem get_logs_answer (time_at : nat -> Z) (hours : option Z)
    (s : Server.t) :
  (Server.reachable s = true ->
   Permutation (fst (DatabaseMethods.get_logs time_at hours s))
     (List.filter (within (window time_at hours s)) (Server.logs s)) /\
   StronglySorted newer_first (fst (DatabaseMethods.get_logs time_at hours s)) /\
   same_documents s (snd (DatabaseMethods.get_logs time_at hours s))) /\
  (Server.reachable s = true -> hours = None \/ hours = Some 0 ->
   Permutation (fst (DatabaseMethods.get_logs time_at hours s))
     (Server.logs s)) /\
  (Server.reachable s = false ->
   fst (DatabaseMethods.get_logs time_at hours s) = []).
Proof.
  assert (Hmain : Server.reachable s = true ->
    fst (DatabaseMethods.get_logs time_at hours s) =
      sorted_reverse Server.log_timestamp Z.ltb
        (List.filter (within (window time_at hours s)) (Server.logs s)) /\
    same_documents s (snd (DatabaseMethods.get_logs time_at hours s))).
  { intros Hr. run_method. unfold window.
    destruct hours as [n|]; [destruct (n =? 0)|]; simpl; rewrite Hr; simpl;
      repeat split. }
  split; [|split].
  - intros Hr. destruct (Hmain Hr) as [-> Hsame].
    split; [apply sorted_reverse_permutation|].
    split; [apply sorted_reverse_newer_first|exact Hsame].
  - intros Hr Hh. destruct (Hmain Hr) as [-> _].
    rewrite sorted_reverse_permutation.
    assert (Hw : window time_at hours s = None)
      by (destruct Hh as [->| ->]; reflexivity).
    rewrite Hw. simpl. rewrite filter_all; [reflexivity|].
    apply Forall_forall. auto.
  - intros Hr. run_method.
    destruct hours as [n|]; [destruct (n =? 0)|]; simpl; rewrite Hr;
      reflexivity.
Qed.

Lemma get_logs_answer_witness :
  Permutation
    (fst (DatabaseMethods.get_logs Stand.time_at (Some 0) Stand.with_alice))
    (Server.logs Stand.with_alice).
Proof.
  apply (proj1 (proj2 (get_logs_answer Stand.time_at (Some 0)
                         Stand.with_alice))).
  - reflexivity.
  - right. reflexivity.
Defined.

(** X21. What [add_log] writes, [get_logs] reads back; what
    [add_recognition_log] writes goes to another collection,
    [recognition_logs], which [get_logs] never reads: after it, [get_logs]
    without a window answers what it answered before. *)
Theorem logs_written_and_read (time_at : nat -> Z) (str_exn : exn -> string)
    (person_id person_name : option string) (recognition_status : string)
    (confidence_score : spec_float) (image : option string) (s : Server.t) :
  (Server.reachable s = true ->
   fst (DatabaseMethods.add_log time_at str_exn person_id person_name
          recognition_status confidence_score image s) =
     (true, "Log added successfully"%string) /\
   {| Server.log_timestamp := time_at (Server.clock s);
      Server.log_person_id := person_id;
      Server.log_person_name := person_name;
      Server.log_recognition_status := recognition_status;
      Server.log_confidence_score := confidence_score;
      Server.log_image_base64 := image |}
   ∈ fst (DatabaseMethods.get_logs time_at None
            (snd (DatabaseMethods.add_log time_at str_exn person_id
                    person_name recognition_status confidence_score image s))))
  /\
  fst (DatabaseMethods.get_logs time_at None
         (snd (DatabaseMethods.add_recognition_log time_at str_exn
                 recognition_status person_id person_name confidence_score
                 image s))) =
  fst (DatabaseMethods.get_logs time_at None s).
Proof.
  split.
  - intros Hr. run_method. simpl. rewrite Hr. simpl. rewrite Hr. simpl.
    split; [reflexivity|].
    rewrite sorted_reverse_permutation.
    rewrite filter_all by (apply Forall_forall; auto).
    apply elem_of_app. right. constructor.
  - run_method. destruct (Server.reachable s) eqn:Hr; simpl;
      rewrite ?Hr; simpl; rewrite ?Hr; reflexivity.
Qed.

Lemma logs_written_and_read_witness :
  fst (DatabaseMethods.add_log Stand.time_at Stand.str_exn
         (Some "id-0"%string) (Some "Alice"%string) "recognized"
         (of_Z float64 1) None Stand.with_alice) =
    (true, "Log added successfully"%string) /\
  {| Server.log_timestamp := Stand.time_at (Server.clock Stand.with_alice);
     Server.log_person_id := Some "id-0"%string;
     Server.log_person_name := Some "Alice"%string;
     Server.log_recognition_status := "recognized";
     Server.log_confidence_score := of_Z float64 1;
     Server.log_image_base64 := None |}
  ∈ fst (DatabaseMethods.get_logs Stand.time_at None
           (snd (DatabaseMethods.add_log Stand.time_at Stand.str_exn
                   (Some "id-0"%string) (Some "Alice"%string) "recognized"
                   (of_Z float64 1) None Stand.with_alice))).
Proof.
  apply (proj1 (logs_written_and_read Stand.time_at Stand.str_exn
                  (Some "id-0"%string) (Some "Alice"%string) "recognized"
                  (of_Z float64 1) None Stand.with_alice)).
  reflexivity.
Defined.

(** ** The real-time page *)

Lemma take_app_take {A} (m n : nat) (l1 l2 : list A) :
  (m <= n)%nat -> take m (l1 ++ take n l2) = take m (l1 ++ l2).
Proof.
  revert m n. induction l1 as [|x l1 IH]; intros m n Hmn; simpl.
  - rewrite take_take. f_equal. lia.
  - destruct m as [|m]; [reflexivity|]. simpl. f_equal. apply IH. lia.
Qed.

Lemma cut_to_50 {A} (l : list A) :
  (if (50 <? length l)%nat then take 50 l else l) = take 50 l.
Proof.
  destruct (50 <? length l)%nat eqn:E; [reflexivity|].
  apply Nat.ltb_ge in E. now rewrite take_ge.
Qed.

Lemma record_matches_session time_at str_exn recognized_as matches old s :
  map session_view
    (fst (RealtimePage.record_matches time_at str_exn recognized_as matches
            (take 50 old) s)) =
  take 50 (rev (map (recorded_in_session recognized_as) matches) ++
           map session_view old).
Proof.
  revert old s. induction matches as [|m rest IH]; intros old s.
  - simpl. now rewrite <- fmap_take.
  - cbn [RealtimePage.record_matches].
    unfold RealtimePage.logged.
    destruct (fd_recognized m) eqn:Er;
      (destruct (DatabaseMethods.add_log _ _ _ _ _ _ _ _) as [ans s'];
       rewrite cut_to_50;
       match goal with
       | |- context [take 50 (?e :: take 50 old)] =>
           change (e :: take 50 old) with ([e] ++ take 50 old);
           rewrite (take_app_take 50 50 [e] old) by lia;
           rewrite (IH ([e] ++ old) s')
       end;
       simpl; unfold recorded_in_session; rewrite Er;
       rewrite <- app_assoc; reflexivity).
Qed.

(** X22. The session list of the page holds the newest outcomes first and
    at most 50 entries: after a frame's outcomes are recorded, it is the
    first 50 of the new entries, last outcome first, followed by the former
    entries. (Stated for a former list of at most 50 entries, or at least
    one outcome.) *)
Theorem session_list_is_capped (time_at : nat -> Z) (str_exn : exn -> string)
    (recognized_as : option user_data -> spec_float -> string)
    (matches : list face_data) (old : list RealtimePage.session_entry)
    (s : Server.t) :
  matches <> [] \/ (length old <= 50)%nat ->
  (length (fst (RealtimePage.record_matches time_at str_exn recognized_as
                  matches old s)) <= 50)%nat /\
  map session_view
    (fst (RealtimePage.record_matches time_at str_exn recognized_as matches
            old s)) =
  take 50 (rev (map (recorded_in_session recognized_as) matches) ++
           map session_view old).
Proof.
  intros H.
  assert (Hv : map session_view
    (fst (RealtimePage.record_matches time_at str_exn recognized_as matches
            old s)) =
    take 50 (rev (map (recorded_in_session recognized_as) matches) ++
             map session_view old)).
  { destruct H as [H|H].
    - destruct matches as [|m rest]; [congruence|].
      cbn [RealtimePage.record_matches]. unfold RealtimePage.logged.
      destruct (fd_recognized m) eqn:Er;
        (destruct (DatabaseMethods.add_log _ _ _ _ _ _ _ _) as [ans s'];
         rewrite cut_to_50, record_matches_session;
         simpl; unfold recorded_in_session; rewrite Er;
         rewrite <- app_assoc; reflexivity).
    - rewrite <- (take_ge old 50) at 1 by lia.
      apply record_matches_session. }
  split; [|exact Hv].
  rewrite <- (length_map session_view), Hv, length_take. lia.
Qed.

Lemma session_list_is_capped_witness :
  (length (fst (RealtimePage.record_matches Stand.time_at Stand.str_exn
                  (fun _ _ => "Recognized"%string)
                  (snd (match fst Examples.run with
                        | Ok r => r
                        | Raise _ => (1%positive, [])
                        end)) [] Stand.with_alice)) <= 50)%nat /\
  map session_view
    (fst (RealtimePage.record_matches Stand.time_at Stand.str_exn
            (fun _ _ => "Recognized"%string)
            (snd (match fst Examples.run with
                  | Ok r => r
                  | Raise _ => (1%positive, [])
                  end)) [] Stand.with_alice)) =
  take 50 (rev (map (recorded_in_session (fun _ _ => "Recognized"%string))
                  (snd (match fst Examples.run with
                        | Ok r => r
                        | Raise _ => (1%positive, [])
                        end))) ++ map session_view []).
Proof.
  apply session_list_is_capped. right. simpl. lia.
Defined.

Lemma add_log_effect time_at str_exn person_id person_name status
    confidence image (s : Server.t) :
  Server.users
    (snd (DatabaseMethods.add_log time_at str_exn person_id person_name
            status confidence image s)) = Server.users s /\
  Server.recognition_logs
    (snd (DatabaseMethods.add_log time_at str_exn person_id person_name
            status confidence image s)) = Server.recognition_logs s /\
  Server.reachable
    (snd (DatabaseMethods.add_log time_at str_exn person_id person_name
            status confidence image s)) = Server.reachable s /\
  (Server.reachable s = true ->
   map log_view
     (Server.logs
        (snd (DatabaseMethods.add_log time_at str_exn person_id person_name
                status confidence image s))) =
   map log_view (Server.logs s) ++
   [(person_id, person_name, status, confidence, image)]) /\
  (Server.reachable s = false ->
   Server.logs
     (snd (DatabaseMethods.add_log time_at str_exn person_id person_name
             status confidence image s)) = Server.logs s).
Proof.
  run_method. simpl. destruct (Server.reachable s) eqn:Hr; simpl.
  - repeat split; auto; try discriminate. intros _. now rewrite map_app.
  - repeat split; auto. discriminate.
Qed.

Lemma logged_in_logs recognized_as m st pid pn conf det :
  RealtimePage.logged recognized_as m = (st, pid, pn, conf, det) ->
  (pid, RealtimePage.display_name m, st, conf, fd_face_image m) =
  recorded_in_logs m.
Proof.
  unfold RealtimePage.logged, recorded_in_logs, RealtimePage.display_name.
  destruct (fd_recognized m); intros [= <- <- <- <- <-];
    destruct (fd_match m); reflexivity.
Qed.

Lemma record_matches_server time_at str_exn recognized_as matches old s :
  Server.users
    (snd (RealtimePage.record_matches time_at str_exn recognized_as matches
            old s)) = Server.users s /\
  Server.recognition_logs
    (snd (RealtimePage.record_matches time_at str_exn recognized_as matches
            old s)) = Server.recognition_logs s /\
  (Server.reachable s = true ->
   map log_view
     (Server.logs
        (snd (RealtimePage.record_matches time_at str_exn recognized_as
                matches old s))) =
   map log_view (Server.logs s) ++ map recorded_in_logs matches) /\
  (Server.reachable s = false ->
   Server.logs
     (snd (RealtimePage.record_matches time_at str_exn recognized_as matches
             old s)) = Server.logs s).
Proof.
  revert old s. induction matches as [|m rest IH]; intros old s.
  - simpl. rewrite app_nil_r. auto.
  - cbn [RealtimePage.record_matches].
    destruct (RealtimePage.logged recognized_as m)
      as [[[[st pid] pn] conf] det] eqn:El.
    pose proof (add_log_effect time_at str_exn pid
                  (RealtimePage.display_name m) st conf (fd_face_image m)
                  (Server.tick s)) as (Hu & Hrec & Hre & Hup & Hdown).
    destruct (DatabaseMethods.add_log time_at str_exn pid
                (RealtimePage.display_name m) st conf (fd_face_image m)
                (Server.tick s)) as [ans s1].
    cbn [fst snd] in *.
    match goal with
    | |- context [RealtimePage.record_matches _ _ _ rest ?o s1] =>
        destruct (IH o s1) as (Hu' & Hrec' & Hup' & Hdown')
    end.
    cbn [Server.tick Server.users Server.recognition_logs Server.reachable
         Server.logs] in Hu, Hrec, Hre, Hup, Hdown.
    rewrite Hre in Hup', Hdown'.
    split; [congruence|]. split; [congruence|]. split.
    + intros Hr. rewrite (Hup' Hr), (Hup Hr), <- app_assoc.
      simpl. now rewrite (logged_in_logs _ _ _ _ _ _ _ El).
    + intros Hr. rewrite (Hdown' Hr). exact (Hdown Hr).
Qed.

(** X23. Recording the outcomes of a frame writes one document to [logs]
    per outcome, in order, when the server can be reached: the id, the name
    taken out of the payload, the status, the confidence and the face image
    of a recognized outcome, and no id, status "unknown" and confidence 0
    for an unrecognized one. When the server cannot be reached nothing is
    written and nothing is raised, the answer of [add_log] not being looked
    at; the users are untouched in both cases. *)
Theorem every_outcome_is_logged (time_at : nat -> Z) (str_exn : exn -> string)
    (recognized_as : option user_data -> spec_float -> string)
    (matches : list face_data) (old : list RealtimePage.session_entry)
    (s : Server.t) :
  (Server.reachable s = true ->
   map log_view
     (Server.logs
        (snd (RealtimePage.record_matches time_at str_exn recognized_as
                matches old s))) =
   map log_view (Server.logs s) ++ map recorded_in_logs matches) /\
  (Server.reachable s = false ->
   Server.logs
     (snd (RealtimePage.record_matches time_at str_exn recognized_as matches
             old s)) = Server.logs s) /\
  Server.users
    (snd (RealtimePage.record_matches time_at str_exn recognized_as matches
            old s)) = Server.users s.
Proof.
  destruct (record_matches_server time_at str_exn recognized_as matches old s)
    as (Hu & _ & Hup & Hdown).
  auto.
Qed.

Lemma every_outcome_is_logged_witness :
  map log_view
    (Server.logs
       (snd (RealtimePage.record_matches Stand.time_at Stand.str_exn
               (fun _ _ => "Recognized"%string)
               (snd (match fst Examples.run with
                     | Ok r => r
                     | Raise _ => (1%positive, [])
                     end)) [] Stand.with_alice))) =
  map log_view (Server.logs Stand.with_alice) ++
  map recorded_in_logs
    (snd (match fst Examples.run with
          | Ok r => r
          | Raise _ => (1%positive, [])
          end)).
Proof.
  apply (proj1 (every_outcome_is_logged Stand.time_at Stand.str_exn
                  (fun _ _ => "Recognized"%string)
                  (snd (match fst Examples.run with
                        | Ok r => r
                        | Raise _ => (1%positive, [])
                        end)) [] Stand.with_alice)).
  reflexivity.
Defined.

Lemma detect_face_realtime_heap cv2_rectangle cv2_resize jpeg_base64 self
    image stored (h : heap) img :
  h !! image = Some img ->
  snd (detect_face_realtime cv2_rectangle cv2_resize jpeg_base64 self image
         stored h) !! image = Some img.
Proof.
  intros Himg. unfold detect_face_realtime.
  destruct (copy_fresh image h img Himg) as (Hcopy & Hfresh & Hne).
  rewrite Hcopy.
  assert (Hd : (<[fresh (dom h) := img]> h : heap) !! fresh (dom h) = Some img)
    by apply lookup_insert_eq.
  destruct (use_insightface self).
  - match goal with
    | |- context [loop_insightface _ _ _ _ _ ?fs ?ms ?h0] =>
        destruct (loop_insightface_frame cv2_rectangle jpeg_base64 image
                    (fresh (dom h)) stored fs ms h0 img Hd)
          as (shown' & Hh & _);
        destruct (loop_insightface cv2_rectangle jpeg_base64 image
                    (fresh (dom h)) stored fs ms h0) as [r0 h1]
    end.
    simpl in *. subst h1. now rewrite !lookup_insert_ne by auto.
  - match goal with
    | |- context [loop_opencv _ _ _ _ _ _ ?fs ?ms ?h0] =>
        destruct (loop_opencv_frame cv2_rectangle cv2_resize jpeg_base64
                    image (fresh (dom h)) stored fs ms h0 img Hd)
          as (shown' & Hh & _);
        destruct (loop_opencv cv2_rectangle cv2_resize jpeg_base64 image
                    (fresh (dom h)) stored fs ms h0) as [r0 h1]
    end.
    simpl in *. subst h1. now rewrite !lookup_insert_ne by auto.
Qed.

(** X24. A frame the page has processed to the end: the server could be
    reached and every stored embedding was loaded; the caller's frame is as
    it was; no user is touched; with an empty gallery nothing at all is
    done, and otherwise [logs] has grown by one document per detection of
    the frame, in the order of the detections, each with the outcome
    [detect_face_realtime] gave for that detection against the gallery. *)
Theorem page_logs_each_detection (time_at : nat -> Z) (str_exn : exn -> string)
    (recognized_as : option user_data -> spec_float -> string)
    (cv2_rectangle : image -> Z * Z -> Z * Z -> pixel -> Z -> image)
    (cv2_resize : image -> Z * Z -> image) (jpeg_base64 : image -> string)
    (face_processor : FaceProcessor.t) (image : loc) (img : Image.image)
    (old logs' : list RealtimePage.session_entry) (h h' : heap)
    (s s' : Server.t) :
  h !! image = Some img ->
  RealtimePage.live_detection_page time_at str_exn recognized_as cv2_rectangle
    cv2_resize jpeg_base64 face_processor (Some image) old h s =
  Ok (logs', h', s') ->
  Server.reachable s = true /\
  h' !! image = Some img /\
  Server.users s' = Server.users s /\
  exists gallery,
    Database.get_all_embeddings (Server.database s) = Ok gallery /\
    (gallery = [] -> logs' = old /\ h' = h /\ s' = s) /\
    (gallery <> [] ->
     exists matches,
       Forall2 (outcome_for jpeg_base64 (use_insightface face_processor)
                  (Some gallery))
         (detections cv2_resize face_processor img) matches /\
       map log_view (Server.logs s') =
       map log_view (Server.logs s) ++ map recorded_in_logs matches).
Proof.
  intros Himg Hpage. unfold RealtimePage.live_detection_page in Hpage.
  destruct (Server.reachable s) eqn:Hr.
  2:{ unfold Database.get_all_embeddings, Server.database in Hpage.
      cbn in Hpage. rewrite Hr in Hpage. discriminate. }
  destruct (Database.get_all_embeddings (Server.database s)) as [gallery|e];
    [|discriminate].
  cbn [mbind result_bind] in Hpage.
  destruct gallery as [|g gallery].
  - injection Hpage as <- <- <-.
    split; [reflexivity|]. split; [exact Himg|]. split; [reflexivity|].
    exists []. split; [reflexivity|]. split; [auto|]. now intros [].
  - pose proof (detect_face_realtime_heap cv2_rectangle cv2_resize jpeg_base64
                  face_processor image (Some (g :: gallery)) h img Himg)
      as Hheap.
    destruct (detect_face_realtime_outcomes cv2_rectangle cv2_resize
                jpeg_base64 face_processor image (Some (g :: gallery)) h img
                Himg) as (Hout & _).
    destruct (detect_face_realtime cv2_rectangle cv2_resize jpeg_base64
                face_processor image (Some (g :: gallery)) h) as [r h1].
    destruct r as [[d ms]|e]; [|discriminate].
    cbn [mbind result_bind fst snd] in Hpage, Hheap, Hout.
    destruct (record_matches_server time_at str_exn recognized_as ms old s)
      as (Hu & _ & Hup & _).
    destruct (RealtimePage.record_matches time_at str_exn recognized_as ms
                old s) as [l s1].
    cbn [fst snd] in *. injection Hpage as <- <- <-.
    split; [reflexivity|]. split; [exact Hheap|]. split; [exact Hu|].
    exists (g :: gallery). split; [reflexivity|]. split; [discriminate|].
    intros _. exists ms. split; [now apply (Hout d)|auto].
Qed.

Lemma page_logs_each_detection_witness :
  Server.reachable Stand.with_alice = true /\
  snd (fst (match RealtimePage.live_detection_page Stand.time_at Stand.str_exn
                    (fun _ _ => "Recognized"%string) Examples.paint
                    Examples.resize Examples.encode
                    (Examples.processor true [Examples.f1; Examples.f2] [])
                    (Some 1%positive) [] Examples.memory Stand.with_alice with
            | Ok r => r
            | Raise _ => ([], Examples.memory, Stand.empty)
            end)) !! 1%positive = Some Examples.frame.
Proof.
  pose (page :=
          match RealtimePage.live_detection_page Stand.time_at Stand.str_exn
                  (fun _ _ => "Recognized"%string) Examples.paint
                  Examples.resize Examples.encode
                  (Examples.processor true [Examples.f1; Examples.f2] [])
                  (Some 1%positive) [] Examples.memory Stand.with_alice with
          | Ok r => r
          | Raise _ => ([], Examples.memory, Stand.empty)
          end).
  destruct (page_logs_each_detection Stand.time_at Stand.str_exn
              (fun _ _ => "Recognized"%string) Examples.paint Examples.resize
              Examples.encode
              (Examples.processor true [Examples.f1; Examples.f2] [])
              1%positive Examples.frame [] (fst (fst page)) Examples.memory
              (snd (fst page)) Stand.with_alice (snd page))
    as (Hr & Hh & _).
  - reflexivity.
  - vm_compute. reflexivity.
  - split; [exact Hr|exact Hh].
Defined.

(** ** The registration page *)






(** ** The statistics of the logs viewer *)

Lemma stat_increment_same name st :
  stat name (LogsViewer.increment name st) = S (stat name st).
Proof.
  induction st as [|[k n] st IH]; simpl.
  - now rewrite String.eqb_refl.
  - destruct (String.eqb k name) eqn:E; simpl; rewrite E; auto.
Qed.

Lemma stat_increment_other name k st :
  k <> name -> stat k (LogsViewer.increment name st) = stat k st.
Proof.
  intros Hne. induction st as [|[k' n] st IH]; simpl.
  - apply String.eqb_neq in Hne. rewrite String.eqb_sym in Hne.
    now rewrite Hne.
  - destruct (String.eqb_spec k' name) as [->|E]; simpl.
    + apply String.eqb_neq in Hne. rewrite String.eqb_sym in Hne.
      now rewrite Hne.
    + now rewrite IH.
Qed.

Lemma keys_increment name st :
  (name ∈ map fst st /\
   map fst (LogsViewer.increment name st) = map fst st) \/
  ((name ∉ map fst st) /\
   map fst (LogsViewer.increment name st) = map fst st ++ [name]).
Proof.
  induction st as [|[k n] st IH]; simpl.
  - right. split; [inversion 1|reflexivity].
  - destruct (String.eqb_spec k name) as [->|Hne]; simpl.
    + left. split; [constructor|reflexivity].
    + destruct IH as [[Hin ->]|[Hnin ->]].
      * left. split; [now constructor|reflexivity].
      * right. split; [|reflexivity].
        intros H. apply elem_of_cons in H as [->|H]; auto.
Qed.

Lemma NoDup_increment name st :
  NoDup (map fst st) -> NoDup (map fst (LogsViewer.increment name st)).
Proof.
  intros Hnd. destruct (keys_increment name st) as [[_ ->]|[Hnin ->]]; auto.
  apply NoDup_app. split; [exact Hnd|]. split; [|apply NoDup_singleton].
  intros x Hx Hx'. apply list_elem_of_singleton in Hx'. now subst.
Qed.

Lemma positive_increment name st :
  Forall (fun p => (0 < snd p)%nat) st ->
  Forall (fun p => (0 < snd p)%nat) (LogsViewer.increment name st).
Proof.
  induction 1 as [|[k n] st Hp Hst IH]; simpl.
  - repeat constructor.
  - destruct (String.eqb k name).
    + constructor; [simpl in *; lia|assumption].
    + constructor; [assumption|exact IH].
Qed.

Lemma stat_of_entry k n st :
  NoDup (map fst st) -> (k, n) ∈ st -> stat k st = n.
Proof.
  induction st as [|[k' n'] st IH]; simpl; intros Hnd Hin; [inversion Hin|].
  apply NoDup_cons in Hnd as [Hk Hnd].
  apply elem_of_cons in Hin as [[= <- <-]|Hin].
  - now rewrite String.eqb_refl.
  - destruct (String.eqb_spec k' k) as [->|Hne]; [|auto].
    exfalso. apply Hk. apply list_elem_of_fmap. exists (k, n). auto.
Qed.

Lemma entry_of_stat k st :
  (0 < stat k st)%nat -> (k, stat k st) ∈ st.
Proof.
  induction st as [|[k' n'] st IH]; simpl; [lia|].
  destruct (String.eqb_spec k' k) as [->|Hne]; intros H.
  - constructor.
  - apply list_elem_of_further. auto.
Qed.

Lemma count_logs_tally logs t :
  LogsViewer.recognized_count (LogsViewer.count_logs logs t) =
    (LogsViewer.recognized_count t +
     length (List.filter is_recognized logs))%nat /\
  (LogsViewer.recognized_count (LogsViewer.count_logs logs t) +
   LogsViewer.unknown_count (LogsViewer.count_logs logs t) =
   LogsViewer.recognized_count t + LogsViewer.unknown_count t +
   length logs)%nat /\
  length (LogsViewer.clean_logs (LogsViewer.count_logs logs t)) =
    (length (LogsViewer.clean_logs t) + length logs)%nat /\
  (forall name,
     stat name (LogsViewer.person_stats (LogsViewer.count_logs logs t)) =
     (stat name (LogsViewer.person_stats t) + recognitions_of name logs)%nat) /\
  (NoDup (map fst (LogsViewer.person_stats t)) ->
   NoDup (map fst (LogsViewer.person_stats (LogsViewer.count_logs logs t)))) /\
  (Forall (fun p => (0 < snd p)%nat) (LogsViewer.person_stats t) ->
   Forall (fun p => (0 < snd p)%nat)
     (LogsViewer.person_stats (LogsViewer.count_logs logs t))).
Proof.
  revert t. induction logs as [|log rest IH]; intros t.
  - simpl. repeat split; auto; intros; unfold recognitions_of; simpl; lia.
  - assert (Hn : forall name,
              recognitions_of name (log :: rest) =
              ((if is_recognized log &&
                   String.eqb (LogsViewer.person_name_of log) name
                then 1 else 0) + recognitions_of name rest)%nat).
    { intros name. unfold recognitions_of. cbn [List.filter].
      destruct (is_recognized log && _); reflexivity. }
    assert (Hf : length (List.filter is_recognized (log :: rest)) =
                 ((if is_recognized log then 1 else 0) +
                  length (List.filter is_recognized rest))%nat).
    { cbn [List.filter]. destruct (is_recognized log); reflexivity. }
    rewrite Hf. cbn [LogsViewer.count_logs length].
    fold (is_recognized log).
    destruct (is_recognized log) eqn:Es.
    + match goal with
      | |- context [LogsViewer.count_logs rest ?t1] =>
          destruct (IH t1) as (Hr & Hs & Hc & Hst & Hnd & Hp)
      end.
      cbn [LogsViewer.recognized_count LogsViewer.unknown_count
           LogsViewer.clean_logs LogsViewer.person_stats] in *.
      rewrite length_app in Hc. cbn [length] in Hc.
      split; [rewrite Hr; lia|]. split; [rewrite Hs; lia|].
      split; [rewrite Hc; lia|]. split.
      * intros name. rewrite Hst, Hn. cbn [andb].
        destruct (String.eqb_spec (LogsViewer.person_name_of log) name)
          as [<-|Hne].
        -- rewrite stat_increment_same. lia.
        -- rewrite stat_increment_other by auto. reflexivity.
      * split; intros H; [apply Hnd, NoDup_increment, H
                         |apply Hp, positive_increment, H].
    + match goal with
      | |- context [LogsViewer.count_logs rest ?t1] =>
          destruct (IH t1) as (Hr & Hs & Hc & Hst & Hnd & Hp)
      end.
      cbn [LogsViewer.recognized_count LogsViewer.unknown_count
           LogsViewer.clean_logs LogsViewer.person_stats] in *.
      rewrite length_app in Hc. cbn [length] in Hc.
      split; [rewrite Hr; lia|]. split; [rewrite Hs; lia|].
      split; [rewrite Hc; lia|]. split.
      * intros name. rewrite Hst, Hn. reflexivity.
      * split; assumption.
Qed.

Lemma filter_length_permutation {A} (p : A -> bool) (l l' : list A) :
  Permutation l l' ->
  length (List.filter p l) = length (List.filter p l').
Proof.
  induction 1 as [|x l l' _ IH|x y l|l l' l'' _ IH1 _ IH2]; simpl.
  - reflexivity.
  - destruct (p x); simpl; congruence.
  - destruct (p x), (p y); reflexivity.
  - congruence.
Qed.

Lemma insert_desc_more_often_first (x : string * nat) l :
  StronglySorted more_often_first l ->
  StronglySorted more_often_first (insert_desc snd Nat.ltb x l).
Proof.
  induction 1 as [|y l Hs IH Hy]; simpl.
  - repeat constructor.
  - destruct (Nat.ltb_spec (snd x) (snd y)) as [Hlt|Hge].
    + constructor; [exact IH|].
      rewrite insert_desc_permutation. constructor; [|exact Hy].
      unfold more_often_first. lia.
    + constructor; [now constructor|].
      constructor; [exact Hge|].
      eapply Forall_impl; [exact Hy|].
      unfold more_often_first. intros z Hz. lia.
Qed.

Lemma sorted_reverse_more_often_first (l : list (string * nat)) :
  StronglySorted more_often_first (sorted_reverse snd Nat.ltb l).
Proof.
  induction l as [|x l IH]; simpl; [constructor|].
  now apply insert_desc_more_often_first.
Qed.

Lemma StronglySorted_take {A} (R : A -> A -> Prop) n (l : list A) :
  StronglySorted R l -> StronglySorted R (take n l).
Proof.
  intros H. revert n. induction H as [|x l _ IH Hx]; intros [|n]; simpl;
    try constructor; auto.
  apply Forall_forall. intros y Hy.
  apply (proj1 (Forall_forall _ _) Hx).
  now apply (elem_of_take _ _ _) in Hy as (i & Hy%list_elem_of_lookup_2 & _).
Qed.

Lemma StronglySorted_app_order {A} (R : A -> A -> Prop) (l1 l2 : list A) :
  StronglySorted R (l1 ++ l2) ->
  forall x y, x ∈ l1 -> y ∈ l2 -> R x y.
Proof.
  induction l1 as [|a l1 IH]; simpl; intros Hs x y Hx Hy; [inversion Hx|].
  apply StronglySorted_inv in Hs as [Hs Ha].
  apply elem_of_cons in Hx as [->|Hx]; [|eauto].
  apply (proj1 (Forall_forall _ _) Ha). apply elem_of_app. auto.
Qed.

Lemma elem_of_permutation {A} (x : A) (l l' : list A) :
  Permutation l l' -> x ∈ l -> x ∈ l'.
Proof. intros H. now rewrite H. Qed.

Lemma get_logs_all time_at (s : Server.t) :
  Server.reachable s = true ->
  DatabaseMethods.get_logs time_at None s =
  (sorted_reverse Server.log_timestamp Z.ltb
     (List.filter (fun _ => true) (Server.logs s)), s).
Proof. intros Hr. run_method. simpl. rewrite Hr. reflexivity. Qed.

(** X26. The statistics of the logs viewer add up. On a server that cannot
    be reached, or without logs, the page says that no logs are available.
    Otherwise every log is counted once, as recognized when its status is
    "recognized" and as unknown when it is anything else; the top people
    are at most five names, each once, with the number of recognitions
    logged under the name, the most often recognized first; a recognized
    name that is left out has no more recognitions than any of the five.
    At most 20 logs are listed, and nothing is written. *)
Theorem logs_viewer_statistics (time_at : nat -> Z) (s : Server.t) :
  snd (LogsViewer.show_logs_viewer time_at s) = s /\
  (Server.reachable s = false \/ Server.logs s = [] ->
   fst (LogsViewer.show_logs_viewer time_at s) = LogsViewer.NoLogs) /\
  (Server.reachable s = true -> Server.logs s <> [] ->
   exists recognized unknown top recent,
     fst (LogsViewer.show_logs_viewer time_at s) =
       LogsViewer.Statistics recognized unknown top recent /\
     recognized = length (List.filter is_recognized (Server.logs s)) /\
     (recognized + unknown)%nat = length (Server.logs s) /\
     (length top <= 5)%nat /\
     NoDup (map fst top) /\
     StronglySorted more_often_first top /\
     (forall name n,
        (name, n) ∈ top ->
        n = recognitions_of name (Server.logs s) /\ (0 < n)%nat) /\
     (forall name,
        (0 < recognitions_of name (Server.logs s))%nat ->
        name ∉ map fst top ->
        length top = 5%nat /\
        forall p, p ∈ top ->
                  (recognitions_of name (Server.logs s) <= snd p)%nat) /\
     length recent = Nat.min 20 (length (Server.logs s))).
Proof.
  unfold LogsViewer.show_logs_viewer.
  destruct (Server.reachable s) eqn:Hr.
  2:{ assert (Hg : DatabaseMethods.get_logs time_at None s = ([], s))
        by (run_method; simpl; rewrite Hr; reflexivity).
      rewrite Hg. simpl. repeat split; auto; discriminate. }
  rewrite (get_logs_all time_at s Hr).
  rewrite filter_all by (apply Forall_forall; auto).
  pose proof (sorted_reverse_permutation Server.log_timestamp Z.ltb
                (Server.logs s)) as Hperm.
  destruct (sorted_reverse Server.log_timestamp Z.ltb (Server.logs s))
    as [|l0 found] eqn:Ef.
  { apply sorted_reverse_nil in Ef. rewrite Ef. simpl.
    repeat split; auto. congruence. }
  set (logs := l0 :: found) in *.
  split; [reflexivity|]. split.
  { intros [H|H]; [discriminate|]. rewrite H in Hperm.
    symmetry in Hperm. apply Permutation_nil in Hperm. discriminate. }
  intros _ _.
  destruct (count_logs_tally logs
              {| LogsViewer.clean_logs := [];
                 LogsViewer.recognized_count := 0;
                 LogsViewer.unknown_count := 0;
                 LogsViewer.person_stats := [] |})
    as (Hrec & Hsum & Hclean & Hstat & Hnd & Hpos).
  cbn [LogsViewer.clean_logs LogsViewer.recognized_count
       LogsViewer.unknown_count LogsViewer.person_stats length stat map]
    in Hrec, Hsum, Hclean, Hstat, Hnd, Hpos.
  specialize (Hnd (NoDup_nil_2 : NoDup [])). specialize (Hpos ltac:(constructor)).
  set (t := LogsViewer.count_logs logs _) in *.
  set (sorted_people := sorted_reverse snd Nat.ltb (LogsViewer.person_stats t)).
  assert (Hsp : Permutation sorted_people (LogsViewer.person_stats t))
    by apply sorted_reverse_permutation.
  assert (Hsorted : StronglySorted more_often_first sorted_people)
    by apply sorted_reverse_more_often_first.
  assert (Hof : forall name,
            stat name (LogsViewer.person_stats t) =
            recognitions_of name (Server.logs s)).
  { intros name. rewrite Hstat. unfold recognitions_of.
    now rewrite (filter_length_permutation _ _ _ Hperm). }
  do 4 eexists. split; [reflexivity|].
  split.
  { rewrite Hrec. now rewrite (filter_length_permutation _ _ _ Hperm). }
  split.
  { rewrite Hsum. now rewrite (Permutation_length Hperm). }
  split; [apply firstn_le_length|].
  split.
  { rewrite <- firstn_map. eapply sublist_NoDup; [|apply sublist_take].
    assert (Hm : Permutation (map fst sorted_people)
                   (map fst (LogsViewer.person_stats t)))
      by apply Permutation_map, Hsp.
    rewrite Hm. exact Hnd. }
  split; [now apply StronglySorted_take|].
  split.
  { intros name n Hin.
    assert (Hin' : (name, n) ∈ LogsViewer.person_stats t).
    { rewrite <- Hsp.
      now apply (elem_of_take _ _ _) in Hin as (i & Hi%list_elem_of_lookup_2 & _). }
    split.
    - rewrite <- Hof. symmetry. now apply stat_of_entry.
    - apply (proj1 (Forall_forall _ _) Hpos _ Hin'). }
  split.
  { intros name Hseen Hout. rewrite <- Hof in *.
    apply entry_of_stat in Hseen as Hin.
    apply (elem_of_permutation _ _ _ (Permutation_sym Hsp)) in Hin.
    rewrite <- (take_drop 5 sorted_people) in Hin, Hsorted.
    apply elem_of_app in Hin as [Hin|Hin].
    { exfalso. apply Hout. apply list_elem_of_fmap.
      exists (name, stat name (LogsViewer.person_stats t)). auto. }
    split.
    - apply length_take_le.
      destruct (Nat.le_gt_cases 5 (length sorted_people)) as [|Hlt]; auto.
      rewrite drop_ge in Hin by lia. inversion Hin.
    - intros p Hp.
      apply (StronglySorted_app_order _ _ _ Hsorted p _ Hp Hin). }
  rewrite length_take. rewrite Hclean.
  now rewrite (Permutation_length Hperm).
Qed.

Lemma logs_viewer_statistics_witness :
  exists recognized unknown top recent,
    fst (LogsViewer.show_logs_viewer Stand.time_at busy) =
      LogsViewer.Statistics recognized unknown top recent /\
    recognized = length (List.filter is_recognized (Server.logs busy)) /\
    (recognized + unknown)%nat = length (Server.logs busy).
Proof.
  destruct (proj2 (proj2 (logs_viewer_statistics Stand.time_at busy)))
    as (r & u & top & recent & Hv & Hr & Hs & _).
  - reflexivity.
  - discriminate.
  - exists r, u, top, recent. auto.
Defined.

Example statistics_of_a_day :
  fst (LogsViewer.show_logs_viewer Stand.time_at busy) =
  LogsViewer.Statistics 3 1 [("Alice"%string, 2%nat); ("Bob"%string, 1%nat)]
    (take 20
       (LogsViewer.clean_logs
          (LogsViewer.count_logs
             (sorted_reverse Server.log_timestamp Z.ltb (Server.logs busy))
             {| LogsViewer.clean_logs := [];
                LogsViewer.recognized_count := 0;
                LogsViewer.unknown_count := 0;
                LogsViewer.person_stats := [] |}))).
Proof. reflexivity. Qed.
